(** * HVAC acquisition research: the scoring engine and the glue around it

    A shallow embedding of
      - [hvac-research/src/lib/scoring/calculator.ts] (the scoring engine),
      - [waitForResearchCompletion] of the deep-research client, and
      - [runRegionDiscoveryPipeline] of [lib/research/pipeline.ts],
    followed by the properties the specification states about them.

    Conventions of the embedding.
      - A JavaScript [number] that takes part in arithmetic whose result can
        be fractional is a binary64 value: Rocq's primitive [float], whose
        operations are the IEEE 754 ones the JavaScript engine performs.
      - The columns of the store that hold whole numbers (counts, years,
        ages, epoch milliseconds) are [Z]; they enter float arithmetic
        through [Z2F], the nearest binary64 value. The service radius is
        taken in whole miles and is a [Z] too; a property that depends on
        that says so.
      - An optional field ([x?: T]) is an [option]; the truthiness tests of
        the source ([x || d], [x ? a : b], [if (x)]) are written out.
      - The persistence layer is a record of finite maps that is threaded
        through the calls; an exception is the [inl] of a sum. *)

From Stdlib Require Import ZArith List Bool Ascii String Floats QArith Lqa Lia.
From stdpp Require Import base option list gmap strings pretty.
Import ListNotations.

Set Warnings "-inexact-float".
Local Open Scope string_scope.
Local Open Scope Z_scope.

(** ** JavaScript numbers *)

Module JS.

(** [Number(z)]: the binary64 value nearest to the integer [z]. *)
Definition Z2F (z : Z) : float := SF2Prim (binary_normalize prec emax z 0 false).

(** [Math.round]: the integer nearest to [x], ties towards +infinity; NaN,
    the infinities and the zeros are returned as they are, and a negative
    argument that rounds to zero gives -0. The mantissa and the exponent are
    read off the value, so the result is exact. *)
Definition Math_round (x : float) : float :=
  match Prim2SF x with
  | S754_finite s m e =>
      let n := if s then Z.neg m else Z.pos m in
      let r := if 0 <=? e then n * 2 ^ e
               else (2 * n + 2 ^ (- e)) / 2 ^ (- e + 1) in
      if (r =? 0) && s then (-0)%float else Z2F r
  | _ => x
  end.

(** [Math.min] of two numbers. *)
Definition Math_min (a b : float) : float :=
  if is_nan a || is_nan b then nan
  else if (a <? b)%float then a
  else if (b <? a)%float then b
  else if get_sign a then a else b.

(** [a >= b] on numbers (false as soon as one side is NaN). *)
Definition geb (a b : float) : bool := (b <=? a)%float.
(** [a > b]. *)
Definition gtb (a b : float) : bool := (b <? a)%float.

(** [String.prototype.toLowerCase] on the ASCII range; the other code
    units are left as they are (no letter outside that range folds to one
    of the letters of the premium niche names). *)
Definition lower_ascii (c : ascii) : ascii :=
  let n := nat_of_ascii c in
  if (65 <=? n)%nat && (n <=? 90)%nat then ascii_of_nat (n + 32) else c.

Fixpoint toLowerCase (s : string) : string :=
  match s with
  | EmptyString => EmptyString
  | String c r => String (lower_ascii c) (toLowerCase r)
  end.

(** [Array.prototype.includes] on an array of strings: membership by
    strict equality of whole elements. *)
Definition includes (l : list string) (x : string) : bool :=
  existsb (String.eqb x) l.

(** [Array.prototype.join]. *)
Fixpoint join (sep : string) (l : list string) : string :=
  match l with
  | [] => ""
  | [x] => x
  | x :: r => x +:+ sep +:+ join sep r
  end.

(** Truthiness of an optional string: present and not empty. *)
Definition truthy_str (o : option string) : bool :=
  match o with Some s => negb (String.eqb s "") | None => false end.

(** Truthiness of an optional integer-valued number: present and not 0. *)
Definition truthy_num (o : option Z) : bool :=
  match o with Some n => negb (n =? 0) | None => false end.

(** [x || 0] on an optional integer-valued number. *)
Definition or0 (o : option Z) : Z := default 0 o.

End JS.
Import JS.

(** ** Data model ([types/index.ts]) *)

Inductive OwnershipType :=
  FAMILY_OWNED | FRANCHISE | PRIVATE_EQUITY | CORPORATE | OWNERSHIP_UNKNOWN.

Inductive SuccessionStatus :=
  OWNER_RETIRING | SUCCESSION_PLANNED | NO_SUCCESSOR | RECENTLY_TRANSITIONED
| SUCCESSION_UNKNOWN.

Inductive Recommendation :=
  HIGH_PRIORITY | MEDIUM_PRIORITY | LOW_PRIORITY | NOT_RECOMMENDED.

(** The string a value of the enumeration is at run time. *)
Definition ownership_str (t : OwnershipType) : string :=
  match t with
  | FAMILY_OWNED => "FAMILY_OWNED"
  | FRANCHISE => "FRANCHISE"
  | PRIVATE_EQUITY => "PRIVATE_EQUITY"
  | CORPORATE => "CORPORATE"
  | OWNERSHIP_UNKNOWN => "UNKNOWN"
  end.

Definition succession_str (t : SuccessionStatus) : string :=
  match t with
  | OWNER_RETIRING => "OWNER_RETIRING"
  | SUCCESSION_PLANNED => "SUCCESSION_PLANNED"
  | NO_SUCCESSOR => "NO_SUCCESSOR"
  | RECENTLY_TRANSITIONED => "RECENTLY_TRANSITIONED"
  | SUCCESSION_UNKNOWN => "UNKNOWN"
  end.

(** A [Date] is its time value, in milliseconds since the epoch. *)
Record Permit := {
  permitNumber : string;
  issueDate : option Z;
}.

Record Review := {
  rating : float;
  reviewCount : Z;
}.

Record EmployeeEstimate := { estimatedCount : Z }.
Record FleetEstimate := { vehicleCount : Z }.

(** [BusinessWithRelations], restricted to the fields the scoring engine and
    the pipeline read. *)
Record Business := {
  b_id : string;
  name : string;
  city : string;
  county : string;
  serviceRadius : option Z;
  website : option string;
  facebookUrl : option string;
  linkedinUrl : option string;
  instagramUrl : option string;
  niches : list string;
  ownershipType : option OwnershipType;
  ownerAge : option Z;
  foundedYear : option Z;
  successionStatus : option SuccessionStatus;
  permits : option (list Permit);
  reviews : option (list Review);
  employees : option (list EmployeeEstimate);
  fleet : option (list FleetEstimate);
}.

(** [ScoreFactor.value] is [number | string | boolean] in the source. *)
Inductive FactorValue :=
| VNum (x : float)
| VStr (s : string).

Record ScoreFactor := {
  f_name : string;
  f_value : FactorValue;
  f_score : float;
  f_weight : float;
  f_explanation : string;
}.

Record ComponentScore := {
  score : float;
  factors : list ScoreFactor;
}.

Record ScoreBreakdown := {
  bd_revenueProxy : ComponentScore;
  bd_onlineWeakness : ComponentScore;
  bd_acquisitionFit : ComponentScore;
  bd_growthSignals : ComponentScore;
}.

(** A row of the score table (its two timestamps are left out). *)
Record Score := {
  s_id : string;
  s_businessId : string;
  revenueProxyScore : float;
  onlineWeaknessScore : float;
  acquisitionFitScore : float;
  growthSignalsScore : float;
  overallScore : float;
  recommendation : Recommendation;
  breakdown : ScoreBreakdown;
  configVersion : string;
}.

Record FactorConfig := {
  fc_name : string;
  fc_weight : float;
  fc_scorer : string;
}.

Record Weights := {
  w_revenueProxy : float;
  w_onlineWeakness : float;
  w_acquisitionFit : float;
  w_growthSignals : float;
}.

Record Thresholds := {
  highPriority : float;
  mediumPriority : float;
  lowPriority : float;
}.

Record FactorTables := {
  ft_revenueProxy : list FactorConfig;
  ft_onlineWeakness : list FactorConfig;
  ft_acquisitionFit : list FactorConfig;
  ft_growthSignals : list FactorConfig;
}.

Record ScoringConfig := {
  version : string;
  weights : Weights;
  thresholds : Thresholds;
  cfg_factors : FactorTables;
}.

Definition DEFAULT_SCORING_CONFIG : ScoringConfig := {|
  version := "1.0";
  weights := {|
    w_revenueProxy := 0.30;
    w_onlineWeakness := 0.25;
    w_acquisitionFit := 0.25;
    w_growthSignals := 0.20 |};
  thresholds := {|
    highPriority := 75;
    mediumPriority := 50;
    lowPriority := 25 |};
  cfg_factors := {|
    ft_revenueProxy := [
      {| fc_name := "employeeCount"; fc_weight := 0.30; fc_scorer := "employeeScorer" |};
      {| fc_name := "fleetSize"; fc_weight := 0.25; fc_scorer := "fleetScorer" |};
      {| fc_name := "permitVolume"; fc_weight := 0.25; fc_scorer := "permitScorer" |};
      {| fc_name := "serviceArea"; fc_weight := 0.20; fc_scorer := "serviceAreaScorer" |} ];
    ft_onlineWeakness := [
      {| fc_name := "websiteQuality"; fc_weight := 0.30; fc_scorer := "websiteScorer" |};
      {| fc_name := "socialPresence"; fc_weight := 0.20; fc_scorer := "socialScorer" |};
      {| fc_name := "reviewVolume"; fc_weight := 0.30; fc_scorer := "reviewVolumeScorer" |};
      {| fc_name := "seoVisibility"; fc_weight := 0.20; fc_scorer := "seoScorer" |} ];
    ft_acquisitionFit := [
      {| fc_name := "ownershipType"; fc_weight := 0.30; fc_scorer := "ownershipScorer" |};
      {| fc_name := "businessAge"; fc_weight := 0.25; fc_scorer := "ageScorer" |};
      {| fc_name := "nicheSpecialization"; fc_weight := 0.25; fc_scorer := "nicheScorer" |};
      {| fc_name := "successionStatus"; fc_weight := 0.20; fc_scorer := "successionScorer" |} ];
    ft_growthSignals := [
      {| fc_name := "permitTrend"; fc_weight := 0.35; fc_scorer := "permitTrendScorer" |};
      {| fc_name := "reviewTrend"; fc_weight := 0.25; fc_scorer := "reviewTrendScorer" |};
      {| fc_name := "hiringActivity"; fc_weight := 0.25; fc_scorer := "hiringScorer" |};
      {| fc_name := "fleetGrowth"; fc_weight := 0.15; fc_scorer := "fleetGrowthScorer" |} ] |};
|}.

(** What the engine takes from its host: the clock ([new Date()]), the local
    calendar ([getFullYear], [setFullYear]) and [Number.prototype.toFixed]. *)
Record Host := {
  now : Z;
  getFullYear : Z -> Z;
  setFullYear : Z -> Z -> Z;
  toFixed : float -> nat -> string;
}.

(** ** Component scorers ([calculator.ts]) *)

(** [factors.reduce((sum, f) => sum + f.score * f.weight, 0)]. *)
Definition totalScore (fs : list ScoreFactor) : float :=
  fold_left (fun sum f => (sum + f_score f * f_weight f)%float) fs 0%float.

(** *** Revenue proxy *)

Definition employeeScore (employeeCount : Z) : Z :=
  if (5 <=? employeeCount) && (employeeCount <=? 50) then
    100 - Z.abs (employeeCount - 25) * 2
  else if (50 <? employeeCount) && (employeeCount <=? 100) then 50
  else if (0 <? employeeCount) && (employeeCount <? 5) then employeeCount * 15
  else 0.

Definition fleetScore (fleetSize : Z) : Z :=
  if (3 <=? fleetSize) && (fleetSize <=? 20) then
    100 - Z.abs (fleetSize - 10) * 5
  else if (20 <? fleetSize) && (fleetSize <=? 40) then 60
  else if (0 <? fleetSize) && (fleetSize <? 3) then fleetSize * 25
  else 0.

(** The permits issued within the last twelve months. *)
Definition oneYearAgo (h : Host) : Z :=
  setFullYear h (now h) (getFullYear h (now h) - 1).

Definition isRecent (h : Host) (p : Permit) : bool :=
  match issueDate p with
  | None => false
  | Some d => oneYearAgo h <=? d
  end.

Definition recentPermits (h : Host) (b : Business) : Z :=
  match permits b with
  | None => 0
  | Some ps => Z.of_nat (length (List.filter (isRecent h) ps))
  end.

Definition permitScore (recent : Z) : float :=
  if (50 <=? recent) && (recent <=? 400) then
    Z2F (80 + (if (100 <=? recent) && (recent <=? 300) then 20 else 0))
  else if 400 <? recent then 60%float
  else if 0 <? recent then Math_min (Z2F recent * 1.5) 75
  else 0%float.

Definition areaScore (radius : Z) : Z :=
  if 0 <? radius then
    if (20 <=? radius) && (radius <=? 75) then 90
    else if 75 <? radius then 70
    else radius * 3
  else 50.

Definition getEmployeeExplanation (count : Z) : string :=
  if (5 <=? count) && (count <=? 50) then
    pretty count +:+ " employees - ideal range for $1-10M revenue"
  else if 50 <? count then pretty count +:+ " employees - may be larger than target"
  else if 0 <? count then pretty count +:+ " employees - smaller operation"
  else "Employee count unknown".

Definition getFleetExplanation (count : Z) : string :=
  if (3 <=? count) && (count <=? 20) then
    pretty count +:+ " vehicles - typical for target range"
  else if 20 <? count then pretty count +:+ " vehicles - larger operation"
  else if 0 <? count then pretty count +:+ " vehicles - smaller fleet"
  else "Fleet size unknown".

(** [business.employees?.[0]?.estimatedCount || 0]. *)
Definition employeeCountOf (b : Business) : Z :=
  match employees b with
  | Some (e :: _) => estimatedCount e
  | _ => 0
  end.

(** [business.fleet?.[0]?.vehicleCount || 0]. *)
Definition fleetSizeOf (b : Business) : Z :=
  match fleet b with
  | Some (f :: _) => vehicleCount f
  | _ => 0
  end.

Definition calculateRevenueProxyScore (h : Host) (b : Business) (config : ScoringConfig)
  : ComponentScore :=
  let employeeCount := employeeCountOf b in
  let fleetSize := fleetSizeOf b in
  let recent := recentPermits h b in
  let radius := or0 (serviceRadius b) in
  let factors := [
    {| f_name := "Employee Count";
       f_value := VNum (Z2F employeeCount);
       f_score := Z2F (employeeScore employeeCount);
       f_weight := 0.30;
       f_explanation := getEmployeeExplanation employeeCount |};
    {| f_name := "Fleet Size";
       f_value := VNum (Z2F fleetSize);
       f_score := Z2F (fleetScore fleetSize);
       f_weight := 0.25;
       f_explanation := getFleetExplanation fleetSize |};
    {| f_name := "Permit Volume";
       f_value := VNum (Z2F recent);
       f_score := permitScore recent;
       f_weight := 0.25;
       f_explanation := pretty recent +:+ " permits in last 12 months" |};
    {| f_name := "Service Area";
       f_value := if radius =? 0 then VStr "Unknown" else VNum (Z2F radius);
       f_score := Z2F (areaScore radius);
       f_weight := 0.20;
       f_explanation :=
         if radius =? 0 then "Service area unknown"
         else pretty radius +:+ " mile service radius" |} ] in
  {| score := Math_round (totalScore factors); factors := factors |}.

(** *** Online weakness *)

(** [business.facebookUrl || business.linkedinUrl || business.instagramUrl],
    as the condition it is used for. *)
Definition hasSocial (b : Business) : bool :=
  truthy_str (facebookUrl b) || truthy_str (linkedinUrl b) || truthy_str (instagramUrl b).

(** [business.reviews?.reduce((sum, r) => sum + r.reviewCount, 0) || 0]. *)
Definition totalReviews (b : Business) : Z :=
  match reviews b with
  | None => 0
  | Some rs => fold_left (fun sum r => sum + reviewCount r) rs 0
  end.

Definition websiteScore (b : Business) : Z :=
  if truthy_str (website b) then 50 else 100.

Definition socialScore (b : Business) : Z :=
  if hasSocial b then 40 else 90.

Definition reviewScore (total : Z) : Z :=
  if 100 <=? total then 20
  else if 50 <=? total then 40
  else if 20 <=? total then 60
  else if 10 <=? total then 75
  else 90.

Definition seoScore (b : Business) : Z :=
  if truthy_str (website b) then 50 else 85.

Definition calculateOnlineWeaknessScore (h : Host) (b : Business) (config : ScoringConfig)
  : ComponentScore :=
  let total := totalReviews b in
  let factors := [
    {| f_name := "Website Quality";
       f_value := VStr (if truthy_str (website b) then default "" (website b) else "None");
       f_score := Z2F (websiteScore b);
       f_weight := 0.30;
       f_explanation :=
         if truthy_str (website b) then "Website exists (quality unknown)"
         else "No website found" |};
    {| f_name := "Social Presence";
       f_value := VStr (if hasSocial b then "Present" else "None");
       f_score := Z2F (socialScore b);
       f_weight := 0.20;
       f_explanation :=
         if hasSocial b then "Some social media presence"
         else "No social media found" |};
    {| f_name := "Review Volume";
       f_value := VNum (Z2F total);
       f_score := Z2F (reviewScore total);
       f_weight := 0.30;
       f_explanation := pretty total +:+ " total reviews across platforms" |};
    {| f_name := "SEO Visibility";
       f_value := VStr "Estimated";
       f_score := Z2F (seoScore b);
       f_weight := 0.20;
       f_explanation := "SEO visibility estimated from web presence" |} ] in
  {| score := Math_round (totalScore factors); factors := factors |}.

(** *** Acquisition fit *)

Definition ownershipScore (t : option OwnershipType) : Z :=
  match t with
  | Some FAMILY_OWNED => 100
  | Some FRANCHISE => 30
  | Some PRIVATE_EQUITY => 10
  | Some CORPORATE => 20
  | _ => 50
  end.

Definition getOwnershipExplanation (t : option OwnershipType) : string :=
  match t with
  | Some FAMILY_OWNED => "Family-owned - ideal acquisition target"
  | Some FRANCHISE => "Franchise - may have transfer restrictions"
  | Some PRIVATE_EQUITY => "PE-owned - likely not available"
  | Some CORPORATE => "Corporate - may be part of larger org"
  | _ => "Ownership type unknown"
  end.

(** [new Date().getFullYear()]. *)
Definition currentYear (h : Host) : Z := getFullYear h (now h).

(** [business.foundedYear ? currentYear - business.foundedYear : 0]. *)
Definition yearsInBusiness (h : Host) (b : Business) : Z :=
  match foundedYear b with
  | Some y => if y =? 0 then 0 else currentYear h - y
  | None => 0
  end.

Definition ageScore (years : Z) : Z :=
  if (10 <=? years) && (years <=? 30) then 100
  else if (30 <? years) && (years <=? 50) then 80
  else if (5 <=? years) && (years <? 10) then 70
  else if 50 <? years then 60
  else if 0 <? years then years * 10
  else 50.

Definition premiumNiches : list string :=
  ["refrigeration"; "clean_rooms"; "industrial"; "restaurants"].

Definition nicheScore (ns : list string) : Z :=
  if (0 <? length ns)%nat then
    if existsb (fun n => includes premiumNiches (toLowerCase n)) ns then 100
    else 80
  else 50.

Definition successionBase (st : option SuccessionStatus) : Z :=
  match st with
  | Some OWNER_RETIRING => 100
  | Some NO_SUCCESSOR => 90
  | Some SUCCESSION_PLANNED => 40
  | Some RECENTLY_TRANSITIONED => 20
  | _ => 50
  end.

Definition successionScore (st : option SuccessionStatus) (age : option Z) : Z :=
  let base := successionBase st in
  match age with
  | Some a =>
      if a =? 0 then base
      else if 60 <=? a then Z.max base 85
      else if 55 <=? a then Z.max base 70
      else base
  | None => base
  end.

Definition getSuccessionExplanation (st : option SuccessionStatus) (age : option Z) : string :=
  let ageInfo :=
    if truthy_num age then " (owner age: " +:+ pretty (or0 age) +:+ ")" else "" in
  match st with
  | Some OWNER_RETIRING => "Owner retiring - high acquisition potential" +:+ ageInfo
  | Some NO_SUCCESSOR => "No successor identified - good opportunity" +:+ ageInfo
  | Some SUCCESSION_PLANNED => "Succession planned - may not be available" +:+ ageInfo
  | Some RECENTLY_TRANSITIONED => "Recently transitioned - unlikely to sell" +:+ ageInfo
  | _ =>
      if truthy_num age then "Succession unknown (owner age: " +:+ pretty (or0 age) +:+ ")"
      else "Succession status unknown"
  end.

(** The Business Age factor. *)
Definition businessAgeFactor (h : Host) (b : Business) : ScoreFactor :=
  let years := yearsInBusiness h b in
  {| f_name := "Business Age";
     f_value := if years =? 0 then VStr "Unknown" else VNum (Z2F years);
     f_score := Z2F (ageScore years);
     f_weight := 0.25;
     f_explanation :=
       if years =? 0 then "Age unknown"
       else pretty years +:+ " years in business" |}.

(** The Niche Specialization factor. *)
Definition nicheFactor (b : Business) : ScoreFactor :=
  let ns := niches b in
  {| f_name := "Niche Specialization";
     f_value := VStr (if (0 <? length ns)%nat then join ", " ns else "General");
     f_score := Z2F (nicheScore ns);
     f_weight := 0.25;
     f_explanation :=
       if (0 <? length ns)%nat then "Specializes in " +:+ join ", " ns
       else "General HVAC services" |}.

(** The Succession Status factor. *)
Definition successionFactor (b : Business) : ScoreFactor :=
  {| f_name := "Succession Status";
     f_value := VStr (match successionStatus b with
                      | Some st => succession_str st
                      | None => "Unknown"
                      end);
     f_score := Z2F (successionScore (successionStatus b) (ownerAge b));
     f_weight := 0.20;
     f_explanation := getSuccessionExplanation (successionStatus b) (ownerAge b) |}.

Definition calculateAcquisitionFitScore (h : Host) (b : Business) (config : ScoringConfig)
  : ComponentScore :=
  let factors := [
    {| f_name := "Ownership Type";
       f_value := VStr (match ownershipType b with
                        | Some t => ownership_str t
                        | None => "Unknown"
                        end);
       f_score := Z2F (ownershipScore (ownershipType b));
       f_weight := 0.30;
       f_explanation := getOwnershipExplanation (ownershipType b) |};
    businessAgeFactor h b;
    nicheFactor b;
    successionFactor b ] in
  {| score := Math_round (totalScore factors); factors := factors |}.

(** *** Growth signals *)

(** [p.issueDate && new Date(p.issueDate).getFullYear() === year]. *)
Definition issuedIn (h : Host) (year : Z) (p : Permit) : bool :=
  match issueDate p with
  | None => false
  | Some d => getFullYear h d =? year
  end.

Definition permitsIn (h : Host) (year : Z) (b : Business) : Z :=
  Z.of_nat (length (List.filter (issuedIn h year) (default [] (permits b)))).

Definition thisYearPermits (h : Host) (b : Business) : Z := permitsIn h (currentYear h) b.
Definition lastYearPermits (h : Host) (b : Business) : Z := permitsIn h (currentYear h - 1) b.

Definition permitTrendScore (thisYear lastYear : Z) : Z :=
  if 0 <? lastYear then
    let growth := (Z2F (thisYear - lastYear) / Z2F lastYear)%float in
    if geb growth 0.2 then 100
    else if geb growth 0.1 then 85
    else if geb growth 0 then 70
    else if geb growth (-0.1) then 50
    else 30
  else 60.

Definition getPermitTrendExplanation (h : Host) (current previous : Z) : string :=
  if previous =? 0 then "No historical permit data"
  else
    let growth := (Z2F (current - previous) / Z2F previous * 100)%float in
    if geb growth 20 then "Strong growth: " +:+ toFixed h growth 0 +:+ "% increase"
    else if geb growth 10 then "Moderate growth: " +:+ toFixed h growth 0 +:+ "% increase"
    else if geb growth 0 then "Stable: " +:+ toFixed h growth 0 +:+ "% change"
    else if geb growth (-10) then "Slight decline: " +:+ toFixed h growth 0 +:+ "% change"
    else "Declining: " +:+ toFixed h growth 0 +:+ "% decrease".

Definition avgRating (b : Business) : float :=
  match reviews b with
  | Some (r :: rs) =>
      (fold_left (fun sum r => sum + rating r) (r :: rs) 0
       / Z2F (Z.of_nat (length (r :: rs))))%float
  | _ => 0%float
  end.

Definition reviewTrendScore (avg : float) : Z :=
  if geb avg 4.5 then 90
  else if geb avg 4.0 then 75
  else if geb avg 3.5 then 60
  else if gtb avg 0 then 40
  else 60.

Definition hiringScore : Z := 60.
Definition fleetGrowthScore : Z := 60.

Definition calculateGrowthSignalsScore (h : Host) (b : Business) (config : ScoringConfig)
  : ComponentScore :=
  let thisYear := thisYearPermits h b in
  let lastYear := lastYearPermits h b in
  let avg := avgRating b in
  let factors := [
    {| f_name := "Permit Trend";
       f_value := VStr (pretty thisYear +:+ " this year vs " +:+ pretty lastYear
                        +:+ " last year");
       f_score := Z2F (permitTrendScore thisYear lastYear);
       f_weight := 0.35;
       f_explanation := getPermitTrendExplanation h thisYear lastYear |};
    {| f_name := "Review Trend";
       f_value := VStr (if gtb avg 0 then toFixed h avg 1 else "No data");
       f_score := Z2F (reviewTrendScore avg);
       f_weight := 0.25;
       f_explanation :=
         if gtb avg 0 then toFixed h avg 1 +:+ " average rating"
         else "No review data" |};
    {| f_name := "Hiring Activity";
       f_value := VStr "Unknown";
       f_score := Z2F hiringScore;
       f_weight := 0.25;
       f_explanation := "Hiring activity data not available" |};
    {| f_name := "Fleet Growth";
       f_value := VStr "Unknown";
       f_score := Z2F fleetGrowthScore;
       f_weight := 0.15;
       f_explanation := "Fleet growth data not available" |} ] in
  {| score := Math_round (totalScore factors); factors := factors |}.

(** ** Recommendation and overall score *)

Definition getRecommendation (score : float) (config : ScoringConfig) : Recommendation :=
  if geb score (highPriority (thresholds config)) then HIGH_PRIORITY
  else if geb score (mediumPriority (thresholds config)) then MEDIUM_PRIORITY
  else if geb score (lowPriority (thresholds config)) then LOW_PRIORITY
  else NOT_RECOMMENDED.

(** The weighted overall score of [calculateBusinessScore] (lines 94-100). *)
Definition weightedOverall (config : ScoringConfig) (rev onl acq gro : float) : float :=
  Math_round
    (rev * w_revenueProxy (weights config)
     + onl * w_onlineWeakness (weights config)
     + acq * w_acquisitionFit (weights config)
     + gro * w_growthSignals (weights config))%float.

(** The score [calculateBusinessScore] computes for a business it has
    fetched: the part of its body between the lookup and the upsert, and the
    row the upsert writes. This is the pure function the specification calls
    [calculateScore]. *)
Definition calculateScore (h : Host) (businessId : string) (b : Business)
  (config : ScoringConfig) : Score :=
  let revenueProxy := calculateRevenueProxyScore h b config in
  let onlineWeakness := calculateOnlineWeaknessScore h b config in
  let acquisitionFit := calculateAcquisitionFitScore h b config in
  let growthSignals := calculateGrowthSignalsScore h b config in
  let overall :=
    weightedOverall config (score revenueProxy) (score onlineWeakness)
      (score acquisitionFit) (score growthSignals) in
  {| s_id := businessId +:+ "_latest";
     s_businessId := businessId;
     revenueProxyScore := score revenueProxy;
     onlineWeaknessScore := score onlineWeakness;
     acquisitionFitScore := score acquisitionFit;
     growthSignalsScore := score growthSignals;
     overallScore := overall;
     recommendation := getRecommendation overall config;
     breakdown := {|
       bd_revenueProxy := revenueProxy;
       bd_onlineWeakness := onlineWeakness;
       bd_acquisitionFit := acquisitionFit;
       bd_growthSignals := growthSignals |};
     configVersion := version config |}.

(** ** The store and the effects of the asynchronous functions *)

Inductive ResearchJobStatus :=
  JOB_PENDING | JOB_QUEUED | JOB_RUNNING | JOB_COMPLETED | JOB_FAILED | JOB_CANCELLED.

Record ResearchJob := {
  job_status : ResearchJobStatus;
  job_progress : float;
  job_businessesFound : Z;
  job_businessesQualified : Z;
  job_error : option string;
  job_openaiResponseId : option string;
}.

(** The tables the modelled functions touch, and the console. [nextId]
    numbers the rows the store creates. *)
Record World := {
  businesses : gmap string Business;
  scores : gmap string Score;
  jobs : gmap string ResearchJob;
  jobLinks : list (string * string);
  nextId : nat;
  console : list string;
}.

Definition set_scores (f : gmap string Score -> gmap string Score) (w : World) : World :=
  {| businesses := businesses w; scores := f (scores w); jobs := jobs w;
     jobLinks := jobLinks w; nextId := nextId w; console := console w |}.

Definition set_businesses (f : gmap string Business -> gmap string Business) (w : World)
  : World :=
  {| businesses := f (businesses w); scores := scores w; jobs := jobs w;
     jobLinks := jobLinks w; nextId := nextId w; console := console w |}.

Definition set_jobs (f : gmap string ResearchJob -> gmap string ResearchJob) (w : World)
  : World :=
  {| businesses := businesses w; scores := scores w; jobs := f (jobs w);
     jobLinks := jobLinks w; nextId := nextId w; console := console w |}.

Definition add_link (l : string * string) (w : World) : World :=
  {| businesses := businesses w; scores := scores w; jobs := jobs w;
     jobLinks := jobLinks w ++ [l]; nextId := nextId w; console := console w |}.

Definition set_nextId (n : nat) (w : World) : World :=
  {| businesses := businesses w; scores := scores w; jobs := jobs w;
     jobLinks := jobLinks w; nextId := n; console := console w |}.

(** [console.error] / [console.log]. *)
Definition log (line : string) (w : World) : World :=
  {| businesses := businesses w; scores := scores w; jobs := jobs w;
     jobLinks := jobLinks w; nextId := nextId w; console := console w ++ [line] |}.

(** A computation that reads and writes the world and either returns a value
    or throws an [Error] with a message. *)
Definition M (A : Type) : Type := World -> (string + A) * World.

Definition ret {A} (a : A) : M A := fun w => (inr a, w).
Definition throw {A} (msg : string) : M A := fun w => (inl msg, w).
Definition bind {A B} (m : M A) (k : A -> M B) : M B :=
  fun w => match m w with
           | (inr a, w') => k a w'
           | (inl e, w') => (inl e, w')
           end.
(** [try { m } catch (error) { handler(error) }]. *)
Definition try_catch {A} (m : M A) (handler : string -> M A) : M A :=
  fun w => match m w with
           | (inr a, w') => (inr a, w')
           | (inl e, w') => handler e w'
           end.
Definition modify (f : World -> World) : M unit := fun w => (inr tt, f w).
Definition gets {A} (f : World -> A) : M A := fun w => (inr (f w), w).
(** [m] with its exception, if it throws one, as a value: how a statement
    inside a [try] block ends, for the code that follows it. *)
Definition attempt {A} (m : M A) : M (string + A) :=
  fun w => match m w with
           | (inr a, w') => (inr (inr a), w')
           | (inl e, w') => (inr (inl e), w')
           end.

Declare Scope m_scope.
Delimit Scope m_scope with M.
Notation "x <- m ;; k" := (bind m (fun x => k))
  (at level 100, m at next level, right associativity) : m_scope.
Notation "m ;;; k" := (bind m (fun _ => k))
  (at level 100, right associativity) : m_scope.
Local Open Scope m_scope.

(** ** The main scoring function *)

Definition calculateBusinessScore (h : Host) (businessId : string)
  (config : ScoringConfig) : M Score :=
  found <- gets (fun w => businesses w !! businessId) ;;
  match found with
  | None => throw ("Business not found: " +:+ businessId)
  | Some business =>
      let row := calculateScore h businessId business config in
      modify (set_scores (insert (businessId +:+ "_latest") row)) ;;;
      ret row
  end.

(** The body of the [for] loop of [batchScoreBusinesses], over the ids that
    remain, with the scores pushed so far. *)
Fixpoint batchLoop (h : Host) (config : ScoringConfig) (businessIds : list string)
  (acc : list Score) : M (list Score) :=
  match businessIds with
  | [] => ret acc
  | id :: rest =>
      acc' <- try_catch
                (row <- calculateBusinessScore h id config ;; ret (acc ++ [row])%list)
                (fun error =>
                   modify (log ("Failed to score business " +:+ id +:+ ": " +:+ error)) ;;;
                   ret acc) ;;
      batchLoop h config rest acc'
  end.

Definition batchScoreBusinesses (h : Host) (businessIds : list string)
  (config : ScoringConfig) : M (list Score) :=
  batchLoop h config businessIds [].

(** ** Polling for research completion ([deep-research.ts]) *)

Inductive ResearchStatus := RS_pending | RS_in_progress | RS_completed | RS_failed.

(** [ResearchResult] (sources and token usage left out). *)
Record ResearchResult := {
  r_id : string;
  r_status : ResearchStatus;
  r_output : option string;
  r_error : option string;
}.

(** The [options] argument: numbers of milliseconds; a field that is
    [undefined] takes its default. *)
Record PollOptions := {
  maxWaitMs : option float;
  initialDelayMs : option float;
  maxDelayMs : option float;
}.

Definition defaultPollOptions : PollOptions :=
  {| maxWaitMs := None; initialDelayMs := None; maxDelayMs := None |}.

Definition maxWaitOf (o : PollOptions) : float := default (30 * 60 * 1000)%float (maxWaitMs o).
Definition initialDelayOf (o : PollOptions) : float := default 5000%float (initialDelayMs o).
Definition maxDelayOf (o : PollOptions) : float := default 60000%float (maxDelayMs o).

(** Time is measured in milliseconds, as a rational. [Qpow2 e] is two to
    the [e], and [F2Q x] the rational a finite number is (0 for NaN and the
    infinities). *)
Definition Qpow2 (e : Z) : Q :=
  match e with
  | Z0 => 1%Q
  | Zpos p => inject_Z (2 ^ Zpos p)
  | Zneg p => (1 # (2 ^ p))%Q
  end.

Definition F2Q (x : float) : Q :=
  match Prim2SF x with
  | S754_finite s m e => (inject_Z (if s then Zneg m else Zpos m) * Qpow2 e)%Q
  | _ => 0%Q
  end.

(** [Date.now() - startTime < maxWaitMs], for the time [elapsed]. *)
Definition beforeDeadline (elapsed : Q) (maxWait : float) : bool :=
  match Prim2SF maxWait with
  | S754_nan => false
  | S754_infinity negative => negb negative
  | _ => negb (Qle_bool (F2Q maxWait) elapsed)
  end.

(** The longest delay of a timer, 2^31 - 1 ms. *)
Definition TIMEOUT_MAX : float := 2147483647.

(** The time [setTimeout(resolve, delay)] waits at least (Node's timers): a
    delay that is not a number from 1 to [TIMEOUT_MAX] is taken as 1. *)
Definition timerDelay (delay : float) : Q :=
  if geb delay 1 && (delay <=? TIMEOUT_MAX)%float then F2Q delay else 1%Q.

(** The world the poll runs in: what the k-th call of [getResearchStatus]
    returns, how long that call takes, and by how much the k-th timer
    overshoots its delay, as [Date.now()] shows it. *)
Record Remote := {
  statusAt : nat -> ResearchResult;
  latency : nat -> Q;
  slack : nat -> Q;
}.

(** What the poll does, in order. *)
Inductive PollEvent :=
| Checked (k : nat) (r : ResearchResult)
| Slept (delay : float).

Definition isTerminal (r : ResearchResult) : bool :=
  match r_status r with
  | RS_completed | RS_failed => true
  | _ => false
  end.

Definition timedOut (responseId : string) : ResearchResult :=
  {| r_id := responseId; r_status := RS_failed; r_output := None;
     r_error := Some "Research timed out" |}.

(** [delay = Math.min(delay * 1.5, maxDelayMs)]. *)
Definition nextDelay (o : PollOptions) (delay : float) : float :=
  Math_min (delay * 1.5) (maxDelayOf o).

(** The [while] loop: [k] checks have been made, [elapsed] is
    [Date.now() - startTime] at the loop head. [fuel] bounds the number of
    iterations the model follows. *)
Fixpoint pollLoop (env : Remote) (o : PollOptions) (responseId : string) (fuel k : nat)
  (elapsed : Q) (delay : float) (trace : list PollEvent)
  : option (ResearchResult * list PollEvent) :=
  match fuel with
  | O => None
  | S fuel' =>
      if negb (beforeDeadline elapsed (maxWaitOf o)) then Some (timedOut responseId, trace)
      else
        let result := statusAt env k in
        let trace := (trace ++ [Checked k result])%list in
        if isTerminal result then Some (result, trace)
        else
          pollLoop env o responseId fuel' (S k)
            (elapsed + latency env k + timerDelay delay + slack env k)
            (nextDelay o delay)
            (trace ++ [Slept delay])%list
  end.

Definition waitForResearchCompletion (env : Remote) (responseId : string) (o : PollOptions)
  (fuel : nat) : option (ResearchResult * list PollEvent) :=
  pollLoop env o responseId fuel 0 0%Q (initialDelayOf o) [].

(** The delay before the check number [k + 1]. *)
Fixpoint delaySeq (o : PollOptions) (k : nat) : float :=
  match k with
  | O => initialDelayOf o
  | S k' => nextDelay o (delaySeq o k')
  end.

(** The delays a trace slept. *)
Definition sleeps (trace : list PollEvent) : list float :=
  omap (fun e => match e with Slept d => Some d | _ => None end) trace.

(** The number of status checks in a trace. *)
Definition checks (trace : list PollEvent) : nat :=
  length (List.filter (fun e => match e with Checked _ _ => true | _ => false end) trace).

(** ** The region-discovery pipeline ([pipeline.ts]) *)

Inductive PipelineStage :=
  INIT | DISCOVERY | EXTRACTION | VALIDATION | STORAGE | SCORING | COMPLETE | ERROR.

Record PipelineProgress := {
  stage : PipelineStage;
  progress : float;
  message : string;
  businessesFound : Z;
  businessesProcessed : Z;
  errors : list string;
}.

Record PipelineStats := {
  discovered : Z;
  validated : Z;
  stored : Z;
  scored : Z;
  st_errors : Z;
}.

(** [PipelineResult] (the wall-clock [duration] left out). *)
Record PipelineResult := {
  success : bool;
  jobId : string;
  businessIds : list string;
  stats : PipelineStats;
}.

(** [ExtractedBusinessData], restricted to the fields that reach the fields
    of [Business] kept above. *)
Record ExtractedBusinessData := {
  e_name : string;
  e_city : string;
  e_county : string;
  e_website : option string;
  e_niches : option (list string);
  e_foundedYear : option Z;
  e_employeeEstimate : option Z;
  e_confidence : float;
}.

Record Region := {
  rg_county : option string;
  rg_city : option string;
}.

Record ResearchJobParameters := { region : option Region }.

(** What [validateBusinessData] resolves to, as far as the pipeline reads
    it. The JSON the model answered is parsed and returned unchecked:
    [isValid] is the truthiness of that field, and [issues] is absent when
    the answer has no such field. *)
Record ValidationAnswer := {
  isValid : bool;
  issues : option (list string);
}.

(** The research back end as the pipeline sees it: what [startDeepResearch]
    and [waitForResearchCompletion] return for the discovery prompt, and the
    extraction and the validation call, each of which either throws an error
    with a message ([inl]: the request fails, or the answer cannot be read)
    or resolves. *)
Record Research := {
  startResult : ResearchResult;
  finalResult : ResearchResult;
  extractBusinessData : string -> string + list ExtractedBusinessData;
  validateBusinessData : ExtractedBusinessData -> string + ValidationAnswer;
}.

(** [Partial<PipelineProgress>]. *)
Record ProgressUpdate := {
  u_stage : option PipelineStage;
  u_progress : option float;
  u_message : option string;
  u_businessesFound : option Z;
  u_businessesProcessed : option Z;
}.

(** [Object.assign(progress, updates)]. *)
Definition assign (p : PipelineProgress) (u : ProgressUpdate) : PipelineProgress :=
  {| stage := default (stage p) (u_stage u);
     progress := default (progress p) (u_progress u);
     message := default (message p) (u_message u);
     businessesFound := default (businessesFound p) (u_businessesFound u);
     businessesProcessed := default (businessesProcessed p) (u_businessesProcessed u);
     errors := errors p |}.

(** The message of the error [prisma.*.update] throws when no row has the
    id (P2025). *)
Definition recordNotFound : string := "Record to update not found.".

(** [prisma.researchJob.update]: it throws when the job has no row. *)
Definition updateJob (jobId : string) (f : ResearchJob -> ResearchJob) : M unit :=
  row <- gets (fun w => jobs w !! jobId) ;;
  match row with
  | Some _ => modify (set_jobs (alter f jobId))
  | None => throw recordNotFound
  end.

Definition updateJobProgress (jobId : string) (p : PipelineProgress) : M unit :=
  updateJob jobId (fun j =>
    {| job_status := job_status j; job_progress := progress p;
       job_businessesFound := job_businessesFound j;
       job_businessesQualified := job_businessesQualified j; job_error := job_error j;
       job_openaiResponseId := job_openaiResponseId j |}).

Definition updateJobStatus (jobId : string) (status : ResearchJobStatus)
  (found qualified : option Z) (error : option string) : M unit :=
  updateJob jobId (fun j =>
    {| job_status := status; job_progress := job_progress j;
       job_businessesFound := default (job_businessesFound j) found;
       job_businessesQualified := default (job_businessesQualified j) qualified;
       job_error := if truthy_str error then error else job_error j;
       job_openaiResponseId := job_openaiResponseId j |}).

(** The [progress] object of a run and the snapshots [onProgress] was called
    with, oldest first. *)
Record Reporter := {
  current : PipelineProgress;
  reported : list PipelineProgress;
}.

(** The closure [updateProgress]. The promise of [updateJobProgress] is not
    awaited: when it rejects, nothing is thrown into the run. *)
Definition updateProgress (jobId : string) (rp : Reporter) (u : ProgressUpdate)
  : M Reporter :=
  let p := assign (current rp) u in
  try_catch (updateJobProgress jobId p) (fun _ => ret tt) ;;;
  ret {| current := p; reported := (reported rp ++ [p])%list |}.

Definition runDiscoveryStage (ai : Research) (jobId : string)
  (params : ResearchJobParameters) : M (bool * option string * option string) :=
  if negb (truthy_str (region params ≫= rg_county)) then
    ret (false, None, Some "County is required for region discovery")
  else
    let researchResult := startResult ai in
    match r_status researchResult with
    | RS_failed => ret (false, None, r_error researchResult)
    | _ =>
        updateJob jobId (fun j =>
          {| job_status := job_status j; job_progress := job_progress j;
             job_businessesFound := job_businessesFound j;
             job_businessesQualified := job_businessesQualified j;
             job_error := job_error j;
             job_openaiResponseId := Some (r_id researchResult) |}) ;;;
        let final := finalResult ai in
        match r_status final with
        | RS_completed => ret (true, r_output final, None)
        | _ =>
            ret (false, None,
                 Some (if truthy_str (r_error final) then default "" (r_error final)
                       else "Research did not complete"))
        end
    end.

(** The message of the [TypeError] that reading [length] of an [issues]
    that is not there throws. *)
Definition issuesUndefined : string :=
  "Cannot read properties of undefined (reading 'length')".

(** The AI validation of one record, [if (business.confidence >= 0.7) ...]:
    the message of the error it throws, if it throws one. The call can
    reject; an answer that is not valid and has no [issues] makes the test
    throw; the issues of an answer that is not valid are printed. *)
Definition checkValidation (ai : Research) (business : ExtractedBusinessData)
  : M (option string) :=
  if geb (e_confidence business) 0.7 then
    match validateBusinessData ai business with
    | inl error => ret (Some error)
    | inr validation =>
        if isValid validation then ret None
        else
          match issues validation with
          | None => ret (Some issuesUndefined)
          | Some found =>
              (if (0 <? length found)%nat then
                 modify (log ("Validation issues for " +:+ e_name business +:+ ": "
                              +:+ join "," found))
               else ret tt) ;;;
              ret None
          end
    end
  else ret None.

(** The loop of [validateBusinesses], at index [i] of [n]. An exception
    leaves the loop; it is returned as [inl], with the progress object as it
    is then, for the [catch] block of the run. *)
Fixpoint validateLoop (ai : Research) (jobId : string) (n : nat) (i : nat)
  (todo : list ExtractedBusinessData) (validatedSoFar : list ExtractedBusinessData)
  (rp : Reporter) : M ((string + list ExtractedBusinessData) * Reporter) :=
  match todo with
  | [] => ret (inr validatedSoFar, rp)
  | business :: rest =>
      if String.eqb (e_name business) "" || String.eqb (e_city business) ""
         || String.eqb (e_county business) "" then
        validateLoop ai jobId n (S i) rest validatedSoFar rp
      else
        thrown <- checkValidation ai business ;;
        match thrown with
        | Some error => ret (inl error, rp)
        | None =>
            rp' <- updateProgress jobId rp
                     {| u_stage := None;
                        u_progress :=
                          Some (55 + Math_round (Z2F (Z.of_nat i) / Z2F (Z.of_nat n) * 15))%float;
                        u_message :=
                          Some ("Validating " +:+ pretty (S i) +:+ "/" +:+ pretty n);
                        u_businessesFound := None;
                        u_businessesProcessed := Some (Z.of_nat (S i)) |} ;;
            validateLoop ai jobId n (S i) rest (validatedSoFar ++ [business])%list rp'
        end
  end.

Definition validateBusinesses (ai : Research) (jobId : string)
  (extracted : list ExtractedBusinessData) (rp : Reporter)
  : M ((string + list ExtractedBusinessData) * Reporter) :=
  validateLoop ai jobId (length extracted) 0 extracted [] rp.

(** [prisma.business.findFirst] by name, city and county. *)
Definition findFirst (e : ExtractedBusinessData) (w : World) : option (string * Business) :=
  List.find
    (fun kv => String.eqb (name (snd kv)) (e_name e)
               && String.eqb (city (snd kv)) (e_city e)
               && String.eqb (county (snd kv)) (e_county e))
    (map_to_list (businesses w)).

Definition updateExisting (e : ExtractedBusinessData) (existing : Business) : Business :=
  {| b_id := b_id existing; name := name existing; city := city existing;
     county := county existing; serviceRadius := serviceRadius existing;
     website := if truthy_str (e_website e) then e_website e else website existing;
     facebookUrl := facebookUrl existing; linkedinUrl := linkedinUrl existing;
     instagramUrl := instagramUrl existing;
     niches := default (niches existing) (e_niches e);
     ownershipType := ownershipType existing; ownerAge := ownerAge existing;
     foundedYear :=
       if truthy_num (e_foundedYear e) then e_foundedYear e else foundedYear existing;
     successionStatus := successionStatus existing;
     permits := permits existing; reviews := reviews existing;
     employees := employees existing; fleet := fleet existing |}.

Definition createBusiness (newId : string) (e : ExtractedBusinessData) : Business :=
  {| b_id := newId; name := e_name e; city := e_city e; county := e_county e;
     serviceRadius := None; website := e_website e;
     facebookUrl := None; linkedinUrl := None; instagramUrl := None;
     niches := default [] (e_niches e);
     ownershipType := None; ownerAge := None; foundedYear := e_foundedYear e;
     successionStatus := None;
     permits := Some []; reviews := Some []; employees := Some []; fleet := Some [] |}.

(** [prisma.employeeEstimate.create]: one more row in the relation. *)
Definition addEmployeeEstimate (count : Z) (b : Business) : Business :=
  {| b_id := b_id b; name := name b; city := city b; county := county b;
     serviceRadius := serviceRadius b; website := website b;
     facebookUrl := facebookUrl b; linkedinUrl := linkedinUrl b;
     instagramUrl := instagramUrl b; niches := niches b;
     ownershipType := ownershipType b; ownerAge := ownerAge b;
     foundedYear := foundedYear b; successionStatus := successionStatus b;
     permits := permits b; reviews := reviews b;
     employees := Some (default [] (employees b) ++ [{| estimatedCount := count |}])%list;
     fleet := fleet b |}.

(** The ids [prisma.business.create] gives are new: the row is created
    under the first of the keys biz_n, biz_(n+1), ... that no business has,
    [n] being the counter of the store. Among [fuel + 1] keys one is free
    when the table has [fuel] rows. *)
Definition businessKey (n : nat) : string := "biz_" +:+ pretty n.

Fixpoint firstFree (table : gmap string Business) (n fuel : nat) : nat :=
  match fuel with
  | O => n
  | S fuel' =>
      if bool_decide (is_Some (table !! businessKey n)) then firstFree table (S n) fuel'
      else n
  end.

Definition newBusinessNumber (w : World) : nat :=
  firstFree (businesses w) (nextId w) (size (businesses w)).

(** One pass of the loop of [storeBusinesses]: the id the business is
    stored under. *)
Definition storeOne (jobId : string) (e : ExtractedBusinessData) : M string :=
  existing <- gets (findFirst e) ;;
  storedId <-
    match existing with
    | Some (key, row) =>
        modify (set_businesses (insert key (updateExisting e row))) ;;;
        ret key
    | None =>
        n <- gets newBusinessNumber ;;
        let newId := businessKey n in
        modify (set_nextId (S n)) ;;;
        modify (set_businesses (insert newId (createBusiness newId e))) ;;;
        ret newId
    end ;;
  modify (add_link (jobId, storedId)) ;;;
  (if truthy_num (e_employeeEstimate e) then
     modify (set_businesses (alter (addEmployeeEstimate (or0 (e_employeeEstimate e))) storedId))
   else ret tt) ;;;
  ret storedId.

Fixpoint storeLoop (jobId : string) (todo : list ExtractedBusinessData)
  (storedIds : list string) : M (list string) :=
  match todo with
  | [] => ret storedIds
  | business :: rest =>
      storedIds' <- try_catch
                      (storedId <- storeOne jobId business ;; ret (storedIds ++ [storedId])%list)
                      (fun error =>
                         modify (log ("Error storing business " +:+ e_name business +:+ ": "
                                      +:+ error)) ;;;
                         ret storedIds) ;;
      storeLoop jobId rest storedIds'
  end.

Definition storeBusinesses (jobId : string) (validatedList : list ExtractedBusinessData)
  : M (list string) :=
  storeLoop jobId validatedList [].

Definition initialProgress : PipelineProgress :=
  {| stage := INIT; progress := 0; message := "Initializing pipeline";
     businessesFound := 0; businessesProcessed := 0; errors := [] |}.

Definition initialStats : PipelineStats :=
  {| discovered := 0; validated := 0; stored := 0; scored := 0; st_errors := 0 |}.

(** The [catch] block of [runRegionDiscoveryPipeline], entered with the
    progress object and the [result] object ([succeeded] is its [success],
    [st] its statistics, [ids] its [businessIds]) as they are when the error
    is thrown. The block itself throws when the job has no row. *)
Definition pipelineFailed (jobId : string) (rp : Reporter) (succeeded : bool)
  (st : PipelineStats) (ids : list string) (errorMessage : string)
  : M (PipelineResult * list PipelineProgress) :=
  let p := current rp in
  let pushed :=
    {| stage := stage p; progress := progress p; message := message p;
       businessesFound := businessesFound p;
       businessesProcessed := businessesProcessed p;
       errors := (errors p ++ [errorMessage])%list |} in
  rp' <- updateProgress jobId {| current := pushed; reported := reported rp |}
           {| u_stage := Some ERROR; u_progress := None;
              u_message := Some ("Pipeline failed: " +:+ errorMessage);
              u_businessesFound := None; u_businessesProcessed := None |} ;;
  updateJobStatus jobId JOB_FAILED None None (Some errorMessage) ;;;
  ret ({| success := succeeded; jobId := jobId; businessIds := ids;
          stats := {| discovered := discovered st; validated := validated st;
                      stored := stored st; scored := scored st;
                      st_errors := Z.of_nat (length (errors (current rp'))) |} |},
       reported rp').

(** The run. The body of the [try] block is followed statement by
    statement: a statement that can throw is run with [attempt], and the
    exception enters the [catch] block with the progress and the result
    object as they are then. *)
Definition runRegionDiscoveryPipeline (ai : Research) (jobId : string)
  (params : ResearchJobParameters) : M (PipelineResult * list PipelineProgress) :=
  let rp := {| current := initialProgress; reported := [] |} in
  (* Stage 1: Discovery *)
  rp <- updateProgress jobId rp
          {| u_stage := Some DISCOVERY; u_progress := Some 10%float;
             u_message := Some "Starting deep research discovery";
             u_businessesFound := None; u_businessesProcessed := None |} ;;
  discoveryResult <- attempt (runDiscoveryStage ai jobId params) ;;
  match discoveryResult with
  | inl errorMessage => pipelineFailed jobId rp false initialStats [] errorMessage
  | inr (ok, output, error) =>
  if negb ok then
    pipelineFailed jobId rp false initialStats []
      (if truthy_str error then default "" error else "Discovery failed")
  else
    rp <- updateProgress jobId rp
            {| u_stage := None; u_progress := Some 30%float;
               u_message := Some "Deep research completed";
               u_businessesFound := Some 0; u_businessesProcessed := None |} ;;
    (* Stage 2: Extraction *)
    rp <- updateProgress jobId rp
            {| u_stage := Some EXTRACTION; u_progress := Some 40%float;
               u_message := Some "Extracting business data from research";
               u_businessesFound := None; u_businessesProcessed := None |} ;;
    match extractBusinessData ai (if truthy_str output then default "" output else "") with
    | inl errorMessage => pipelineFailed jobId rp false initialStats [] errorMessage
    | inr extractedBusinesses =>
        let nDiscovered := Z.of_nat (length extractedBusinesses) in
        let discoveredStats :=
          {| discovered := nDiscovered; validated := 0; stored := 0; scored := 0;
             st_errors := 0 |} in
        rp <- updateProgress jobId rp
                {| u_stage := None; u_progress := Some 50%float;
                   u_message := Some ("Extracted " +:+ pretty nDiscovered +:+ " businesses");
                   u_businessesFound := Some nDiscovered;
                   u_businessesProcessed := None |} ;;
        (* Stage 3: Validation *)
        rp <- updateProgress jobId rp
                {| u_stage := Some VALIDATION; u_progress := Some 55%float;
                   u_message := Some "Validating business data";
                   u_businessesFound := None; u_businessesProcessed := None |} ;;
        v <- validateBusinesses ai jobId extractedBusinesses rp ;;
        let '(validationResult, rp) := v in
        match validationResult with
        | inl errorMessage => pipelineFailed jobId rp false discoveredStats [] errorMessage
        | inr validatedBusinesses =>
        (* Stage 4: Storage *)
        rp <- updateProgress jobId rp
                {| u_stage := Some STORAGE; u_progress := Some 70%float;
                   u_message := Some "Storing businesses in database";
                   u_businessesFound := None; u_businessesProcessed := None |} ;;
        storedBusinessIds <- storeBusinesses jobId validatedBusinesses ;;
        let nStored := Z.of_nat (length storedBusinessIds) in
        rp <- updateProgress jobId rp
                {| u_stage := None; u_progress := Some 85%float;
                   u_message := Some ("Stored " +:+ pretty nStored +:+ " businesses");
                   u_businessesFound := None; u_businessesProcessed := None |} ;;
        (* Stage 5: Initial Scoring *)
        rp <- updateProgress jobId rp
                {| u_stage := Some SCORING; u_progress := Some 90%float;
                   u_message := Some "Running initial scoring";
                   u_businessesFound := None; u_businessesProcessed := None |} ;;
        (* Note: Scoring will be implemented in Phase 4.
           For now, just mark businesses as needing scores. *)
        let st := {| discovered := nDiscovered;
                     validated := Z.of_nat (length validatedBusinesses);
                     stored := nStored;
                     scored := nStored;
                     st_errors := 0 |} in
        (* Complete *)
        rp <- updateProgress jobId rp
                {| u_stage := Some COMPLETE; u_progress := Some 100%float;
                   u_message := Some "Pipeline complete";
                   u_businessesFound := None;
                   u_businessesProcessed := Some nStored |} ;;
        (* [result.success = true] is set before the status is written. *)
        statusWritten <- attempt (updateJobStatus jobId JOB_COMPLETED
                                    (Some (discovered st)) (Some (stored st)) None) ;;
        match statusWritten with
        | inl errorMessage => pipelineFailed jobId rp true st storedBusinessIds errorMessage
        | inr _ =>
            ret ({| success := true; jobId := jobId; businessIds := storedBusinessIds;
                    stats := st |},
                 reported rp)
        end
        end
    end
  end.

(** ** Auxiliary definitions for the statements *)

(** An otherwise identical business with another owner age. *)
Definition setOwnerAge (age : option Z) (b : Business) : Business :=
  {| b_id := b_id b; name := name b; city := city b; county := county b;
     serviceRadius := serviceRadius b; website := website b;
     facebookUrl := facebookUrl b; linkedinUrl := linkedinUrl b;
     instagramUrl := instagramUrl b; niches := niches b;
     ownershipType := ownershipType b; ownerAge := age;
     foundedYear := foundedYear b; successionStatus := successionStatus b;
     permits := permits b; reviews := reviews b;
     employees := employees b; fleet := fleet b |}.

(** An otherwise identical business with another founding year. *)
Definition setFoundedYear (year : option Z) (b : Business) : Business :=
  {| b_id := b_id b; name := name b; city := city b; county := county b;
     serviceRadius := serviceRadius b; website := website b;
     facebookUrl := facebookUrl b; linkedinUrl := linkedinUrl b;
     instagramUrl := instagramUrl b; niches := niches b;
     ownershipType := ownershipType b; ownerAge := ownerAge b;
     foundedYear := year; successionStatus := successionStatus b;
     permits := permits b; reviews := reviews b;
     employees := employees b; fleet := fleet b |}.

(** [String.prototype.includes]: [needle] occurs in [hay]. *)
Fixpoint String_includes (needle hay : string) : bool :=
  if String.prefix needle hay then true
  else match hay with
       | EmptyString => false
       | String _ rest => String_includes needle rest
       end.

(** The premium test as the specification words it: some tag contains, case
    folded, the name of a premium niche. *)
Definition premiumBySubstring (ns : list string) : bool :=
  existsb (fun n => existsb (fun p => String_includes p (toLowerCase n)) premiumNiches) ns.

(** The premium test of the source: some tag is, case folded, the name of a
    premium niche. *)
Definition premiumByEquality (ns : list string) : bool :=
  existsb (fun n => includes premiumNiches (toLowerCase n)) ns.

(** A number that is an integer between 0 and 100. *)
Definition isPercent (x : float) : Prop := exists n : Z, 0 <= n <= 100 /\ x = Z2F n.

(** [x] is one of the numbers 0 to 100 (decided by comparison; -0 is not). *)
Definition inRange (x : float) : bool :=
  (0 <=? x)%float && (x <=? 100)%float && negb (Leibniz.eqb x (-0)%float).

(** ** Concrete inputs for the examples *)

(** A host whose clock reads a moment in 2026, with a calendar of years of
    365.2425 days. *)
Definition exampleHost : Host :=
  {| now := 1793000000000;
     getFullYear := fun t => 1970 + t / 31556952000;
     setFullYear := fun t y => t + (y - (1970 + t / 31556952000)) * 31556952000;
     toFixed := fun _ _ => "" |}.

(** A freshly discovered business: every optional field absent. *)
Definition blankBusiness : Business :=
  {| b_id := "biz_0"; name := "Acme Air"; city := "Austin"; county := "Travis";
     serviceRadius := None; website := None;
     facebookUrl := None; linkedinUrl := None; instagramUrl := None;
     niches := []; ownershipType := None; ownerAge := None; foundedYear := None;
     successionStatus := None;
     permits := None; reviews := None; employees := None; fleet := None |}.

(** The same business with one niche tag. *)
Definition refrigerationBusiness : Business :=
  {| b_id := "biz_0"; name := "Acme Air"; city := "Austin"; county := "Travis";
     serviceRadius := None; website := None;
     facebookUrl := None; linkedinUrl := None; instagramUrl := None;
     niches := ["Commercial Refrigeration"];
     ownershipType := None; ownerAge := None; foundedYear := None;
     successionStatus := None;
     permits := None; reviews := None; employees := None; fleet := None |}.

(** An established family business: 25 employees, 10 vehicles, 150 permits
    in the last months, a 50 mile radius, no web presence, five reviews,
    founded 15 years ago, a premium niche, the owner retiring at 62. *)
Definition establishedBusiness : Business :=
  {| b_id := "biz_9"; name := "Lone Star Cooling"; city := "Houston"; county := "Harris";
     serviceRadius := Some 50; website := None;
     facebookUrl := None; linkedinUrl := None; instagramUrl := None;
     niches := ["refrigeration"];
     ownershipType := Some FAMILY_OWNED; ownerAge := Some 62;
     foundedYear := Some 2011; successionStatus := Some OWNER_RETIRING;
     permits :=
       Some (repeat {| permitNumber := "P"; issueDate := Some 1792000000000 |} 150);
     reviews := Some [ {| rating := 4.8; reviewCount := 5 |} ];
     employees := Some [ {| estimatedCount := 25 |} ];
     fleet := Some [ {| vehicleCount := 10 |} ] |}.

(** ** Finite tables for the range proofs *)

(** The weighted sum of four factor scores, accumulated from left to right
    as [reduce] does, [first] being the first partial sum. *)
Definition allInRange (first : float -> float) (w2 w3 w4 : float)
  (l1 l2 l3 l4 : list float) : bool :=
  forallb (fun s1 =>
    let p1 := first s1 in
    forallb (fun s2 =>
      let p2 := (p1 + s2 * w2)%float in
      forallb (fun s3 =>
        let p3 := (p2 + s3 * w3)%float in
        forallb (fun s4 => inRange (p3 + s4 * w4)%float) l4) l3) l2) l1.

(** Every factor score is the score of one of finitely many inputs. *)
Definition employeeValues : list float :=
  map (fun c => Z2F (employeeScore c)) (seqZ 0 52).
Definition fleetValues : list float :=
  map (fun c => Z2F (fleetScore c)) (seqZ 0 22).
Definition permitValues : list float :=
  map permitScore (seqZ 0 51 ++ [100; 401]).
Definition areaValues : list float :=
  map (fun r => Z2F (areaScore r)) (seqZ 0 21 ++ [76]).

Definition ownershipValues : list float := map Z2F [100; 30; 10; 20; 50].
Definition ageValues : list float :=
  map (fun y => Z2F (ageScore y)) [0; 1; 2; 3; 4; 5; 10; 31; 51].
Definition nicheValues : list float := map Z2F [50; 80; 100].
Definition successionValues : list float := map Z2F [100; 90; 40; 20; 50; 85; 70].

(** The Online Weakness score as a function of what it depends on. *)
Definition onlineScoreOf (hasWebsite social : bool) (review : Z) : float :=
  Math_round
    (0 + Z2F (if hasWebsite then 50 else 100) * 0.30
     + Z2F (if social then 40 else 90) * 0.20
     + Z2F review * 0.30
     + Z2F (if hasWebsite then 50 else 85) * 0.20)%float.

Definition onlineValues : list float :=
  w ← [true; false]; s ← [true; false]; r ← [20; 40; 60; 75; 90];
  [onlineScoreOf w s r].

(** The Growth Signals score as a function of what it depends on. *)
Definition growthScoreOf (permitTrend reviewTrend : Z) : float :=
  Math_round
    (0 + Z2F permitTrend * 0.35 + Z2F reviewTrend * 0.25
     + Z2F hiringScore * 0.25 + Z2F fleetGrowthScore * 0.15)%float.

Definition growthValues : list float :=
  p ← [60; 100; 85; 70; 50; 30]; r ← [90; 75; 60; 40];
  [growthScoreOf p r].

(** The integers 0 to 100, as numbers. *)
Definition percentValues : list float := map Z2F (seqZ 0 101).

(** Membership in a list of numbers, decided by identity of the values. *)
Definition inb (x : float) (l : list float) : bool := existsb (Leibniz.eqb x) l.

(** The default configuration with other factor weight tables. *)
Definition scrambledConfig : ScoringConfig :=
  {| version := version DEFAULT_SCORING_CONFIG;
     weights := weights DEFAULT_SCORING_CONFIG;
     thresholds := thresholds DEFAULT_SCORING_CONFIG;
     cfg_factors := {|
       ft_revenueProxy :=
         [ {| fc_name := "employeeCount"; fc_weight := 1; fc_scorer := "employeeScorer" |} ];
       ft_onlineWeakness := [];
       ft_acquisitionFit :=
         [ {| fc_name := "businessAge"; fc_weight := 0.9; fc_scorer := "ageScorer" |};
           {| fc_name := "ownershipType"; fc_weight := 0.1; fc_scorer := "ownershipScorer" |} ];
       ft_growthSignals := [] |} |}.

(** ** Batch scoring, as a specification *)

(** The score of [id] when the store has a business under that id. *)
Definition scoreIfFound (h : Host) (config : ScoringConfig)
  (table : gmap string Business) (id : string) : option Score :=
  (fun b => calculateScore h id b config) <$> table !! id.

(** The line [console.error] prints for an id that could not be scored. *)
Definition failureLine (id : string) : string :=
  "Failed to score business " +:+ id +:+ ": " +:+ ("Business not found: " +:+ id).

(** The world after the ids have been gone through in order: a score row
    upserted for each id that is found, a line on the console for each that
    is not. *)
Fixpoint batchWorld (h : Host) (config : ScoringConfig) (ids : list string) (w : World)
  : World :=
  match ids with
  | [] => w
  | id :: rest =>
      batchWorld h config rest
        match businesses w !! id with
        | Some b =>
            set_scores (insert (id +:+ "_latest") (calculateScore h id b config)) w
        | None => log (failureLine id) w
        end
  end.

(** The store has a business under [id]. *)
Definition found (w : World) (id : string) : bool := bool_decide (is_Some (businesses w !! id)).

(** A world with two businesses, for the examples. *)
Definition exampleWorld : World :=
  {| businesses := <["biz_0" := blankBusiness]> (<["biz_7" := refrigerationBusiness]> ∅);
     scores := ∅; jobs := ∅; jobLinks := []; nextId := 8; console := [] |}.

(** ** The course of a poll, as a specification *)

(** [Date.now() - startTime] at the head of the iteration number [k], all
    earlier checks having seen a status that is not final. *)
Fixpoint elapsedSeq (env : Remote) (o : PollOptions) (k : nat) : Q :=
  match k with
  | O => 0%Q
  | S j => (elapsedSeq env o j + latency env j + timerDelay (delaySeq o j) + slack env j)%Q
  end.

(** What the poll has done when it reaches the iteration number [k]. *)
Fixpoint traceSeq (env : Remote) (o : PollOptions) (k : nat) : list PollEvent :=
  match k with
  | O => []
  | S j => (traceSeq env o j ++ [Checked j (statusAt env j); Slept (delaySeq o j)])%list
  end.

(** The iteration number [k] is the last: the time is up at its head, or
    its check sees a final status. *)
Definition stops (env : Remote) (o : PollOptions) (k : nat) : bool :=
  negb (beforeDeadline (elapsedSeq env o k) (maxWaitOf o)) || isTerminal (statusAt env k).

(** A research task that stays pending, answered at once. *)
Definition pendingForever : Remote :=
  {| statusAt := fun _ => {| r_id := "resp_1"; r_status := RS_pending;
                             r_output := None; r_error := None |};
     latency := fun _ => 0%Q;
     slack := fun _ => 0%Q |}.

(** A research task that completes before the fourth check. *)
Definition completesAtFourth : Remote :=
  {| statusAt := fun k =>
       if (k <? 3)%nat then
         {| r_id := "resp_1"; r_status := RS_in_progress; r_output := None;
            r_error := None |}
       else
         {| r_id := "resp_1"; r_status := RS_completed;
            r_output := Some "Found 12 businesses"; r_error := None |};
     latency := fun _ => 250%Q;
     slack := fun _ => 4%Q |}.

(** ** A concrete pipeline run, for the examples *)

Definition completedResearch : ResearchResult :=
  {| r_id := "resp_1"; r_status := RS_completed;
     r_output := Some "**Acme Air** - Location: Austin, Travis"; r_error := None |}.

Definition acmeExtracted : ExtractedBusinessData :=
  {| e_name := "Acme Air"; e_city := "Austin"; e_county := "Travis";
     e_website := None; e_niches := Some ["Commercial Refrigeration"];
     e_foundedYear := Some 2011; e_employeeEstimate := Some 25;
     e_confidence := 0.9 |}.

(** A research back end that finds one business. *)
Definition exampleResearch : Research :=
  {| startResult := {| r_id := "resp_1"; r_status := RS_pending; r_output := None;
                       r_error := None |};
     finalResult := completedResearch;
     extractBusinessData := fun _ => inr [acmeExtracted];
     validateBusinessData := fun _ => inr {| isValid := true; issues := Some [] |} |}.

Definition travisCounty : ResearchJobParameters :=
  {| region := Some {| rg_county := Some "Travis"; rg_city := None |} |}.

(** A store with one pending job and nothing else. *)
Definition emptyWorld : World :=
  {| businesses := ∅; scores := ∅;
     jobs := {[ "job_1" := {| job_status := JOB_RUNNING; job_progress := 0;
                              job_businessesFound := 0; job_businessesQualified := 0;
                              job_error := None; job_openaiResponseId := None |} ]};
     jobLinks := []; nextId := 0; console := [] |}.



(** From every world that satisfies [pre], [m] returns without throwing a
    value and a world that satisfy [post]. *)
Definition returns {A} (pre : World -> Prop) (m : M A) (post : A -> World -> Prop) : Prop :=
  forall w, pre w -> exists a w', m w = (inr a, w') /\ post a w'.

(** The store has a row for the job. *)
Definition jobPresent (jobId : string) (w : World) : Prop := is_Some (jobs w !! jobId).

(** What a run of the pipeline leaves to observe: the statistics count every
    stored id as scored; a successful run reports the stage SCORING and then
    the stage COMPLETE last, a failed run reports the stage ERROR last. *)
Definition pipelineOutcome (out : PipelineResult * list PipelineProgress) : Prop :=
  scored (stats (fst out)) = Z.of_nat (length (businessIds (fst out)))
  /\ stored (stats (fst out)) = Z.of_nat (length (businessIds (fst out)))
  /\ if success (fst out)
     then exists earlier, map stage (snd out) = (earlier ++ [SCORING; COMPLETE])%list
     else last (map stage (snd out)) = Some ERROR.

(** ** More of the code

    The functions around the scoring engine, the poll and the pipeline:
    [getResearchStatus] and [cancelResearch] of the deep-research client,
    [startResearchJob] and [cancelResearchJob] of the pipeline,
    [categorizePermitType] and [estimateRevenueFromPermits] of the permit
    adapter, [calculateReviewWeaknessScore] of the review adapter,
    [escapeCSV] of the export, [getScoreColor] and [truncate] of the
    utilities; with them the definitions the statements about them need. *)

(** *** Presentation helpers ([lib/utils.ts]) *)

Definition getScoreColor (score : float) : string :=
  if geb score 80 then "text-green-600"
  else if geb score 60 then "text-yellow-600"
  else if geb score 40 then "text-orange-600"
  else "text-red-600".

(** The recommendations in order, the best last. *)
Definition priority (r : Recommendation) : Z :=
  match r with
  | HIGH_PRIORITY => 3
  | MEDIUM_PRIORITY => 2
  | LOW_PRIORITY => 1
  | NOT_RECOMMENDED => 0
  end.

(** *** Inputs of the scoring engine *)

(** The business as the query returns it when every relation is loaded: a
    relation that is absent is the empty list. *)
Definition loadRelations (b : Business) : Business :=
  {| b_id := b_id b; name := name b; city := city b; county := county b;
     serviceRadius := serviceRadius b; website := website b;
     facebookUrl := facebookUrl b; linkedinUrl := linkedinUrl b;
     instagramUrl := instagramUrl b; niches := niches b;
     ownershipType := ownershipType b; ownerAge := ownerAge b;
     foundedYear := foundedYear b; successionStatus := successionStatus b;
     permits := Some (default [] (permits b));
     reviews := Some (default [] (reviews b));
     employees := Some (default [] (employees b));
     fleet := Some (default [] (fleet b)) |}.

(** The score of the Service Area factor as the source computes it on a
    radius that is any number, [business.serviceRadius || 0] having been
    taken: the model above has the radius in whole miles. *)
Definition areaScoreOfNumber (serviceRadius : float) : float :=
  if (0 <? serviceRadius)%float then
    if geb serviceRadius 20 && (serviceRadius <=? 75)%float then 90%float
    else if (75 <? serviceRadius)%float then 70%float
    else (serviceRadius * 3)%float
  else 50%float.

(** The check of [allInRange] with a lower bound [lo] in the place of 0. *)
Definition allBetween (lo : float) (first : float -> float) (w2 w3 w4 : float)
  (l1 l2 l3 l4 : list float) : bool :=
  forallb (fun s1 =>
    let p1 := first s1 in
    forallb (fun s2 =>
      let p2 := (p1 + s2 * w2)%float in
      forallb (fun s3 =>
        let p3 := (p2 + s3 * w3)%float in
        forallb (fun s4 =>
          let total := (p3 + s4 * w4)%float in
          (lo <=? total)%float && (total <=? 100)%float) l4) l3) l2) l1.


(** A number that is an integer between [lo] and [hi]. *)
Definition isIntegerIn (lo hi : Z) (x : float) : Prop :=
  exists n : Z, lo <= n <= hi /\ x = Z2F n.

(** *** The status of a research task ([getResearchStatus]) *)

(** What [openai.responses.retrieve] resolves to, as far as it is read. *)
Record ApiResponse := {
  api_id : string;
  api_status : string;
  api_output_text : option string;
  api_error_message : option string;
}.

(** What a call can throw: an [Error] with its message, or another value. *)
Inductive Thrown :=
| ThrownError (message : string)
| ThrownOther.

(** [getResearchStatus], given how the retrieval ends (the token usage and
    the line on the console left out, as in [ResearchResult]). *)
Definition getResearchStatus (responseId : string) (retrieved : Thrown + ApiResponse)
  : ResearchResult :=
  match retrieved with
  | inr response =>
      {| r_id := api_id response;
         r_status :=
           if String.eqb (api_status response) "completed" then RS_completed
           else if String.eqb (api_status response) "failed" then RS_failed
           else if String.eqb (api_status response) "in_progress" then RS_in_progress
           else RS_pending;
         r_output := api_output_text response;
         r_error := api_error_message response |}
  | inl error =>
      {| r_id := responseId;
         r_status := RS_failed;
         r_output := None;
         r_error := Some match error with
                         | ThrownError message => message
                         | ThrownOther => "Failed to retrieve status"
                         end |}
  end.

(** The world of a poll whose status checks go through [getResearchStatus]:
    [retrieve k] is how the retrieval number [k] ends. *)
Definition remoteOf (responseId : string) (retrieve : nat -> Thrown + ApiResponse)
  (lat sl : nat -> Q) : Remote :=
  {| statusAt := fun k => getResearchStatus responseId (retrieve k);
     latency := lat;
     slack := sl |}.

(** The retrieval ends in a way that ends the poll: it throws, or the
    status it reports is 'completed' or 'failed'. *)
Definition endsPoll (retrieved : Thrown + ApiResponse) : bool :=
  match retrieved with
  | inl _ => true
  | inr response =>
      String.eqb (api_status response) "completed"
      || String.eqb (api_status response) "failed"
  end.

(** The time the timers of the first [k] delays of the backoff wait at
    least. *)
Fixpoint delaySum (o : PollOptions) (k : nat) : Q :=
  match k with
  | O => 0%Q
  | S j => (delaySum o j + timerDelay (delaySeq o j))%Q
  end.

(** A task the API reports as cancelled, whenever it is asked. *)
Definition cancelledTask : nat -> Thrown + ApiResponse :=
  fun _ => inr {| api_id := "resp_1"; api_status := "cancelled";
                  api_output_text := None; api_error_message := None |}.

(** A task in progress whose third retrieval fails with a network error. *)
Definition flakyTask : nat -> Thrown + ApiResponse :=
  fun k =>
    if (k =? 2)%nat then inl (ThrownError "fetch failed")
    else inr {| api_id := "resp_1"; api_status := "in_progress";
                api_output_text := None; api_error_message := None |}.

(** *** The pipeline *)

(** The record has a name, a city and a county: the test of
    [validateBusinesses] that lets it through. *)
Definition hasRequiredFields (e : ExtractedBusinessData) : bool :=
  negb (String.eqb (e_name e) "" || String.eqb (e_city e) ""
        || String.eqb (e_county e) "").

(** The message of the error the pipeline throws when the discovery stage
    does not succeed, for each of the three ways it can end so. *)
Inductive DiscoveryFailure (ai : Research) (params : ResearchJobParameters)
  : string -> Prop :=
| NoCounty :
    truthy_str (region params ≫= rg_county) = false ->
    DiscoveryFailure ai params "County is required for region discovery"
| StartFailed :
    truthy_str (region params ≫= rg_county) = true ->
    r_status (startResult ai) = RS_failed ->
    DiscoveryFailure ai params
      (if truthy_str (r_error (startResult ai)) then default "" (r_error (startResult ai))
       else "Discovery failed")
| NotCompleted :
    truthy_str (region params ≫= rg_county) = true ->
    r_status (startResult ai) <> RS_failed ->
    r_status (finalResult ai) <> RS_completed ->
    DiscoveryFailure ai params
      (if truthy_str (r_error (finalResult ai)) then default "" (r_error (finalResult ai))
       else "Research did not complete").

(** Parameters without a region. *)
Definition noRegion : ResearchJobParameters := {| region := None |}.

(** The row of the job [id] after a run agrees with what the run returns. *)
Definition jobRowAgrees (id : string) (out : PipelineResult * list PipelineProgress)
  (after : World) : Prop :=
  exists job,
    jobs after !! id = Some job
    /\ jobId (fst out) = id
    /\ if success (fst out)
       then job_status job = JOB_COMPLETED
            /\ job_businessesFound job = discovered (stats (fst out))
            /\ job_businessesQualified job = stored (stats (fst out))
       else job_status job = JOB_FAILED
            /\ businessIds (fst out) = []
            /\ st_errors (stats (fst out)) = 1
            /\ exists msg, last (map errors (snd out)) = Some [msg]
                           /\ (String.eqb msg "" = false -> job_error job = Some msg).

(** A store whose job has been cancelled, with nothing else. *)
Definition cancelledWorld : World :=
  {| businesses := ∅; scores := ∅;
     jobs := {[ "job_1" := {| job_status := JOB_CANCELLED; job_progress := 0;
                              job_businessesFound := 0; job_businessesQualified := 0;
                              job_error := None; job_openaiResponseId := None |} ]};
     jobLinks := []; nextId := 0; console := [] |}.

(** A record extracted for a business the store of the examples does not
    have. *)
Definition establishedExtracted : ExtractedBusinessData :=
  {| e_name := "Lone Star Cooling"; e_city := "Houston"; e_county := "Harris";
     e_website := None; e_niches := Some ["refrigeration"];
     e_foundedYear := Some 2011; e_employeeEstimate := Some 25;
     e_confidence := 0.8 |}.

(** *** Cancelling a job ([cancelResearch], [cancelResearchJob]) *)

Definition thrownMessage (fallback : string) (error : Thrown) : string :=
  match error with
  | ThrownError message => message
  | ThrownOther => fallback
  end.

(** [cancelResearch], given what [openai.responses.cancel] throws, if it
    does: an error is printed and answered with [false]. *)
Definition cancelResearch (cancel : string -> option Thrown) (responseId : string)
  : M bool :=
  match cancel responseId with
  | None => ret true
  | Some error =>
      modify (log ("Cancel research error: " +:+ thrownMessage "" error)) ;;;
      ret false
  end.

Definition cancelResearchJob (cancel : string -> option Thrown) (jobId : string)
  : M unit :=
  job <- gets (fun w => jobs w !! jobId) ;;
  match job with
  | None => throw "Job not found"
  | Some job =>
      (if truthy_str (job_openaiResponseId job) then
         cancelResearch cancel (default "" (job_openaiResponseId job)) ;;; ret tt
       else ret tt) ;;;
      updateJobStatus jobId JOB_CANCELLED None None None
  end.

(** *** The permit adapter ([adapters/permits.ts]) *)

Definition categorizePermitType (type : string) : string :=
  let lower := toLowerCase type in
  if String_includes "commercial" lower || String_includes "business" lower then
    "commercial"
  else if String_includes "residential" lower || String_includes "home" lower
          || String_includes "dwelling" lower then
    "residential"
  else if String_includes "industrial" lower then "industrial"
  else "other".

Inductive Trend := growing | stable | declining.

Record PermitSummary := {
  totalPermits : Z;
  last12Months : Z;
  last3Years : Z;
  byType : gmap string Z;
  byYear : gmap string Z;
  averageValue : option float;
  trend : Trend;
}.

Record RevenueEstimate := {
  low : float;
  high : float;
  mid : float;
  confidence : float;
}.

(** Truthiness of an optional number: present, not 0 and not NaN. *)
Definition truthy_float (o : option float) : bool :=
  match o with
  | Some x => negb (x =? 0)%float && negb (is_nan x)
  | None => false
  end.

Definition estimateRevenueFromPermits (summary : PermitSummary) : RevenueEstimate :=
  let annualPermits :=
    if last12Months summary =? 0 then (Z2F (totalPermits summary) / 3)%float
    else Z2F (last12Months summary) in
  let residentialCount := or0 (byType summary !! "residential") in
  let commercialCount := or0 (byType summary !! "commercial") in
  let totalCategorized :=
    if residentialCount + commercialCount =? 0 then 1
    else residentialCount + commercialCount in
  let residentialRatio := (Z2F residentialCount / Z2F totalCategorized)%float in
  let commercialRatio := (Z2F commercialCount / Z2F totalCategorized)%float in
  let residentialAvg := 8000%float in
  let commercialAvg := 35000%float in
  let estimatedRevenue :=
    (annualPermits * residentialRatio * residentialAvg
     + annualPermits * commercialRatio * commercialAvg)%float in
  let low := Math_round (estimatedRevenue * 1.4) in
  let high := Math_round (estimatedRevenue * 2.5) in
  let mid := Math_round ((low + high) / 2) in
  let confidence := 0.5%float in
  let confidence :=
    if 50 <=? totalPermits summary then (confidence + 0.2)%float else confidence in
  let confidence :=
    if truthy_float (averageValue summary) then (confidence + 0.1)%float else confidence in
  let confidence :=
    if (2 <=? size (byYear summary))%nat then (confidence + 0.1)%float else confidence in
  {| low := low; high := high; mid := mid; confidence := Math_min confidence 0.9 |}.

(** A contractor with a long record: 120 permits over three years. *)
Definition busySummary : PermitSummary :=
  {| totalPermits := 120; last12Months := 45; last3Years := 120;
     byType := {[ "residential" := 100; "commercial" := 20 ]};
     byYear := {[ "2024" := 35; "2025" := 40; "2026" := 45 ]};
     averageValue := Some 9500%float;
     trend := growing |}.

(** *** The review adapter ([adapters/reviews.ts]) *)

Inductive ReviewSource := GOOGLE | YELP | BBB | FACEBOOK | ANGI | OTHER.

(** [ReviewData], restricted to the fields the weakness score reads. *)
Record ReviewData := {
  rd_source : ReviewSource;
  rd_reviewCount : Z;
}.

(** [AggregatedReviews], restricted likewise. *)
Record AggregatedReviews := {
  ar_overallRating : float;
  ar_totalReviews : Z;
  ar_sources : list ReviewData;
}.

Record WeaknessFactor := {
  wf_name : string;
  wf_score : Z;
  wf_explanation : string;
}.

Definition volumeScore (totalReviews : Z) : Z :=
  if 100 <=? totalReviews then 20
  else if 50 <=? totalReviews then 40
  else if 20 <=? totalReviews then 60
  else if 10 <=? totalReviews then 80
  else 100.

Definition platformsPresent (reviews : AggregatedReviews) : Z :=
  Z.of_nat (length (List.filter (fun s => 0 <? rd_reviewCount s) (ar_sources reviews))).

Definition platformScore (present : Z) : Z :=
  if 4 <=? present then 20
  else if 3 <=? present then 40
  else if 2 <=? present then 60
  else if 1 <=? present then 80
  else 100.

Definition googleReviews (reviews : AggregatedReviews) : option ReviewData :=
  List.find (fun s => match rd_source s with GOOGLE => true | _ => false end)
    (ar_sources reviews).

Definition googleScore (google : option ReviewData) : Z :=
  match google with
  | Some g =>
      if 50 <=? rd_reviewCount g then 20
      else if 25 <=? rd_reviewCount g then 40
      else if 10 <=? rd_reviewCount g then 60
      else 80
  | None => 100
  end.

Definition ratingScore (overallRating : float) : Z :=
  if geb overallRating 4.5 then 30
  else if geb overallRating 4.0 then 40
  else if geb overallRating 3.5 then 50
  else if geb overallRating 3.0 then 60
  else if gtb overallRating 0 then 40
  else 50.

(** [factors.reduce((sum, factor, i) => sum + factor.score * weights[i], 0)]:
    a weight that is not there is [undefined], and the product NaN. *)
Definition weightedScore (weights : list float) (factors : list WeaknessFactor) : float :=
  fold_left
    (fun sum fi => (sum + Z2F (wf_score (fst fi)) * default nan (weights !! snd fi))%float)
    (zip factors (seq 0 (length factors))) 0%float.

Definition calculateReviewWeaknessScore (h : Host) (reviews : AggregatedReviews)
  : float * list WeaknessFactor :=
  let google := googleReviews reviews in
  let factors := [
    {| wf_name := "Review Volume";
       wf_score := volumeScore (ar_totalReviews reviews);
       wf_explanation :=
         pretty (ar_totalReviews reviews) +:+ " total reviews across platforms" |};
    {| wf_name := "Platform Presence";
       wf_score := platformScore (platformsPresent reviews);
       wf_explanation :=
         "Present on " +:+ pretty (platformsPresent reviews) +:+ " review platforms" |};
    {| wf_name := "Google Presence";
       wf_score := googleScore google;
       wf_explanation :=
         match google with
         | Some g => pretty (rd_reviewCount g) +:+ " Google reviews"
         | None => "No Google presence found"
         end |};
    {| wf_name := "Rating Quality";
       wf_score := ratingScore (ar_overallRating reviews);
       wf_explanation :=
         if gtb (ar_overallRating reviews) 0
         then toFixed h (ar_overallRating reviews) 1 +:+ " average rating"
         else "No ratings available" |} ] in
  let weights := [0.3; 0.2; 0.35; 0.15]%float in
  (Math_round (weightedScore weights factors), factors).

(** The weakness score as a function of its four factor scores. *)
Definition weaknessScoreOf (volume platform google rating : Z) : float :=
  Math_round (0 + Z2F volume * 0.3 + Z2F platform * 0.2 + Z2F google * 0.35
              + Z2F rating * 0.15)%float.

(** *** The CSV export ([lib/export/csv.ts]) *)

(** The double quote, the comma and the line feed. *)
Definition dquote : ascii := "034"%char.
Definition comma : ascii := ","%char.
Definition linefeed : ascii := "010"%char.

(** [value.includes(c)] for a character [c]. *)
Fixpoint includesChar (c : ascii) (value : string) : bool :=
  match value with
  | EmptyString => false
  | String a rest => Ascii.eqb a c || includesChar c rest
  end.

(** The [replace] of [escapeCSV]: every double quote is written twice. *)
Fixpoint doubleQuotes (value : string) : string :=
  match value with
  | EmptyString => EmptyString
  | String a rest =>
      if Ascii.eqb a dquote then String dquote (String dquote (doubleQuotes rest))
      else String a (doubleQuotes rest)
  end.

Definition escapeCSV (value : string) : string :=
  if String.eqb value "" then ""
  else if includesChar comma value || includesChar linefeed value
          || includesChar dquote value then
    String dquote (doubleQuotes value +:+ String dquote EmptyString)
  else value.

(** *** [truncate] ([lib/utils.ts]) *)

(** The first [n] characters of [s]. *)
Fixpoint takeString (n : nat) (s : string) : string :=
  match n, s with
  | S n', String a rest => String a (takeString n' rest)
  | _, _ => EmptyString
  end.

(** [str.slice(0, length)]: a negative end counts from the end of the
    string. *)
Definition slice0 (str : string) (length : Z) : string :=
  if length <? 0 then takeString (Z.to_nat (Z.of_nat (String.length str) + length)) str
  else takeString (Z.to_nat length) str.

Definition truncate (str : string) (length : Z) : string :=
  if Z.of_nat (String.length str) <=? length then str
  else slice0 str length +:+ "...".

(** *** The Acquisition Fit score as a function of its factor scores *)

Definition acquisitionScoreOf (ownership age niche succession : Z) : float :=
  Math_round (0 + Z2F ownership * 0.30 + Z2F age * 0.25 + Z2F niche * 0.25
              + Z2F succession * 0.20)%float.

(** A family business founded three years before the clock of
    [exampleHost]. *)
Definition youngBusiness : Business := setFoundedYear (Some 2023) establishedBusiness.

(** *** Starting a job ([startResearchJob]) *)

Inductive ResearchJobType :=
  REGION_DISCOVERY | BUSINESS_ENRICHMENT | PERMIT_SCAN | REVIEW_UPDATE.

Definition jobType_str (t : ResearchJobType) : string :=
  match t with
  | REGION_DISCOVERY => "REGION_DISCOVERY"
  | BUSINESS_ENRICHMENT => "BUSINESS_ENRICHMENT"
  | PERMIT_SCAN => "PERMIT_SCAN"
  | REVIEW_UPDATE => "REVIEW_UPDATE"
  end.

(** The columns [type] and [parameters] of the job table, which no function
    modelled here writes, as functions of the id of the job. *)
Record JobColumns := {
  typeOf : string -> ResearchJobType;
  parametersOf : string -> ResearchJobParameters;
}.

Definition startResearchJob (ai : Research) (columns : JobColumns) (jobId : string)
  : M unit :=
  job <- gets (fun w => jobs w !! jobId) ;;
  match job with
  | None => throw "Job not found"
  | Some _ =>
      updateJobStatus jobId JOB_RUNNING None None None ;;;
      match typeOf columns jobId with
      | REGION_DISCOVERY =>
          runRegionDiscoveryPipeline ai jobId (parametersOf columns jobId) ;;; ret tt
      | other => throw ("Job type " +:+ jobType_str other +:+ " not yet implemented")
      end
  end.

(** *** The discovery stage and the poll *)

(** The options [runDiscoveryStage] polls with. *)
Definition discoveryPollOptions : PollOptions :=
  {| maxWaitMs := Some (30 * 60 * 1000)%float; initialDelayMs := None;
     maxDelayMs := None |}.

(** The research back end of a run whose research task was started with the
    result [start] and is then polled in [env]: its final result is what
    [waitForResearchCompletion] returns. *)
Definition researchPolled (start : ResearchResult) (env : Remote) (fuel : nat)
  (extract : string -> string + list ExtractedBusinessData)
  (validate : ExtractedBusinessData -> string + ValidationAnswer) : option Research :=
  (fun returned =>
     {| startResult := start; finalResult := fst returned;
        extractBusinessData := extract; validateBusinessData := validate |})
  <$> waitForResearchCompletion env (r_id start) discoveryPollOptions fuel.

(** * Properties *)

(** ** Binary64 facts behind [Math.round] *)

Section Binary64.

(** A positive number is below two to the number of its binary digits. *)
Lemma digits2_pos_bound (m : positive) : Z.pos m < 2 ^ Z.pos (digits2_pos m).
Proof.
  induction m as [m IH | m IH |]; cbn [digits2_pos].
  - rewrite Pos2Z.inj_succ, Z.pow_succ_r by lia. lia.
  - rewrite Pos2Z.inj_succ, Z.pow_succ_r by lia. lia.
  - reflexivity.
Qed.

(** The mantissa and the exponent of a binary64 value. *)
Lemma valid_finite_bounds (s : bool) (m : positive) (e : Z) :
  SpecFloat.valid_binary prec emax (S754_finite s m e) = true ->
  Z.pos m < 2 ^ 53 /\ -1074 <= e.
Proof.
  cbn [SpecFloat.valid_binary]. unfold bounded, canonical_mantissa, fexp, SpecFloat.emin.
  change prec with 53. change emax with 1024.
  intros H. apply andb_prop in H as [H _]. apply Z.eqb_eq in H.
  pose proof (digits2_pos_bound m) as Hd.
  assert (Z.pos (digits2_pos m) <= 53) as Hle by lia.
  split; [| lia].
  eapply Z.lt_le_trans; [exact Hd |].
  apply Z.pow_le_mono_r; lia.
Qed.

Lemma digits2_pos_lower (m : positive) : 2 ^ (Z.pos (digits2_pos m) - 1) <= Z.pos m.
Proof.
  induction m as [m IH | m IH |]; cbn [digits2_pos].
  - rewrite Pos2Z.inj_succ. replace (Z.succ (Z.pos (digits2_pos m)) - 1)
      with (Z.succ (Z.pos (digits2_pos m) - 1)) by lia.
    rewrite Z.pow_succ_r by lia. lia.
  - rewrite Pos2Z.inj_succ. replace (Z.succ (Z.pos (digits2_pos m)) - 1)
      with (Z.succ (Z.pos (digits2_pos m) - 1)) by lia.
    rewrite Z.pow_succ_r by lia. lia.
  - cbn. lia.
Qed.

(** The mantissa of a normal binary64 value has 53 digits. *)
Lemma valid_normal_mantissa (s : bool) (m : positive) (e : Z) :
  SpecFloat.valid_binary prec emax (S754_finite s m e) = true ->
  -1074 < e -> 2 ^ 52 <= Z.pos m.
Proof.
  cbn [SpecFloat.valid_binary]. unfold bounded, canonical_mantissa, fexp, SpecFloat.emin.
  change prec with 53. change emax with 1024.
  intros H He. apply andb_prop in H as [H _]. apply Z.eqb_eq in H.
  pose proof (digits2_pos_lower m) as Hd.
  assert (Z.pos (digits2_pos m) = 53) as E by lia.
  rewrite E in Hd. exact Hd.
Qed.

(** Rounding half up a value that is at most 100, as the quotient
    [Math_round] computes. *)
Lemma round_quotient_bound (m k : Z) :
  0 < m -> 46 <= k -> (k = 46 -> m <= 100 * 2 ^ 46) -> m < 2 ^ 53 ->
  0 <= (2 * m + 2 ^ k) / 2 ^ (k + 1) <= 100.
Proof.
  intros Hm Hk H46 H53.
  assert (0 < 2 ^ k) as Hp by (apply Z.pow_pos_nonneg; lia).
  rewrite Z.pow_add_r by lia. change (2 ^ 1) with 2.
  split.
  - apply Z.div_pos; lia.
  - apply Z.lt_succ_r. apply Z.div_lt_upper_bound; [lia |].
    destruct (Z.eq_dec k 46) as [-> | Hne].
    + specialize (H46 eq_refl). lia.
    + assert (2 ^ 47 <= 2 ^ k) by (apply Z.pow_le_mono_r; lia).
      change (2 ^ 53) with (64 * 2 ^ 47) in H53. lia.
Qed.

(** [Math.round] of a number between 0 and 100 is an integer between 0 and
    100. *)
Lemma Math_round_inRange (x : float) : inRange x = true -> isPercent (Math_round x).
Proof.
  unfold inRange. intros H.
  apply andb_prop in H as [H Hz]. apply andb_prop in H as [H0 H1].
  rewrite FloatAxioms.leb_spec in H0, H1.
  change (Prim2SF 0) with (S754_zero false) in H0.
  change (Prim2SF 100) with (S754_finite false 7036874417766400 (-46)) in H1.
  pose proof (Prim2SF_valid x) as Hv.
  pose proof (SF2Prim_Prim2SF x) as Hx.
  unfold Math_round.
  destruct (Prim2SF x) as [s | s | | s m e] eqn:E.
  - destruct s.
    + exfalso. apply negb_true_iff in Hz.
      assert (Leibniz.eqb x (-0)%float = true) as Hc
        by (apply Leibniz.eqb_spec; rewrite <- Hx; reflexivity).
      congruence.
    + exists 0. split; [lia |]. rewrite <- Hx. reflexivity.
  - destruct s; discriminate.
  - discriminate.
  - destruct s; [discriminate |].
    apply valid_finite_bounds in Hv as [Hm He].
    unfold SFleb, SFcompare in H1.
    rewrite Pos.compare_cont_spec, Pos2Z.inj_compare in H1.
    assert (e <= -46 /\ (e = -46 -> Z.pos m <= 7036874417766400)) as [Hle Heq].
    { destruct (Z.compare_spec e (-46)) as [-> | Hlt | Hgt]; [| lia | discriminate].
      split; [lia |]. intros _.
      destruct (Z.compare_spec (Z.pos m) 7036874417766400) as [Hm' | Hlt | Hgt];
        [lia | lia | discriminate]. }
    destruct (Z.leb_spec 0 e) as [Hge | _]; [lia |].
    rewrite andb_false_r.
    eexists. split; [| reflexivity].
    change (Z.pos m~0) with (2 * Z.pos m).
    apply round_quotient_bound; lia.
Qed.

End Binary64.

(** ** Comparison of numbers *)

Lemma SFcompare_refl (f : spec_float) :
  SFcompare f f = match f with S754_nan => None | _ => Some Eq end.
Proof.
  destruct f as [s | s | | s m e]; cbn [SFcompare]; try reflexivity.
  - destruct s; reflexivity.
  - rewrite Z.compare_refl, Pos.compare_cont_refl. destruct s; reflexivity.
Qed.

(** A number is NaN exactly when its specification is. *)
Lemma is_nan_spec (x : float) :
  is_nan x = match Prim2SF x with S754_nan => true | _ => false end.
Proof.
  unfold is_nan. rewrite FloatAxioms.eqb_spec. unfold SFeqb. rewrite SFcompare_refl.
  destruct (Prim2SF x); reflexivity.
Qed.

(** [x >= x] holds for every number but NaN. *)
Lemma geb_refl (x : float) : geb x x = negb (is_nan x).
Proof.
  unfold geb. rewrite FloatAxioms.leb_spec, is_nan_spec. unfold SFleb. rewrite SFcompare_refl.
  destruct (Prim2SF x); reflexivity.
Qed.

(** NaN is not [>=] anything. *)
Lemma geb_nan_l (x y : float) : is_nan x = true -> geb x y = false.
Proof.
  unfold geb. rewrite FloatAxioms.leb_spec, is_nan_spec. unfold SFleb.
  destruct (Prim2SF x); try discriminate. intros _.
  destruct (Prim2SF y); reflexivity.
Qed.

(** ** The recommendation *)

(** C2. The recommendation is chosen by successive inclusive comparison
    against the thresholds, most restrictive first: HIGH_PRIORITY exactly when
    the score is at least [highPriority]; MEDIUM_PRIORITY exactly when it is
    not, and the score is at least [mediumPriority]; LOW_PRIORITY exactly when
    neither holds and the score is at least [lowPriority]; NOT_RECOMMENDED
    otherwise. A score equal to [highPriority] is HIGH_PRIORITY (for every
    threshold that is a number), and so is 75 under the default thresholds
    75, 50, 25. *)
Theorem getRecommendation_thresholds (s : float) (config : ScoringConfig) :
  (getRecommendation s config = HIGH_PRIORITY
   <-> geb s (highPriority (thresholds config)) = true)
  /\ (getRecommendation s config = MEDIUM_PRIORITY
      <-> geb s (highPriority (thresholds config)) = false
          /\ geb s (mediumPriority (thresholds config)) = true)
  /\ (getRecommendation s config = LOW_PRIORITY
      <-> geb s (highPriority (thresholds config)) = false
          /\ geb s (mediumPriority (thresholds config)) = false
          /\ geb s (lowPriority (thresholds config)) = true)
  /\ (getRecommendation s config = NOT_RECOMMENDED
      <-> geb s (highPriority (thresholds config)) = false
          /\ geb s (mediumPriority (thresholds config)) = false
          /\ geb s (lowPriority (thresholds config)) = false)
  /\ getRecommendation (highPriority (thresholds config)) config
     = (if is_nan (highPriority (thresholds config)) then NOT_RECOMMENDED
        else HIGH_PRIORITY)
  /\ thresholds DEFAULT_SCORING_CONFIG
     = {| highPriority := 75; mediumPriority := 50; lowPriority := 25 |}
  /\ getRecommendation 75 DEFAULT_SCORING_CONFIG = HIGH_PRIORITY
  /\ getRecommendation 74 DEFAULT_SCORING_CONFIG = MEDIUM_PRIORITY.
Proof.
  unfold getRecommendation.
  repeat split; try reflexivity;
    try (destruct (geb s (highPriority (thresholds config))),
           (geb s (mediumPriority (thresholds config))),
           (geb s (lowPriority (thresholds config)));
         intuition congruence).
  rewrite geb_refl.
  destruct (is_nan (highPriority (thresholds config))) eqn:Hn; [| reflexivity].
  cbn [negb]. rewrite !(geb_nan_l _ _ Hn). reflexivity.
Qed.

(** ** Niche specialization *)

Lemma includes_In (l : list string) (x : string) : includes l x = true <-> In x l.
Proof.
  unfold includes. rewrite existsb_exists. split.
  - intros (y & Hy & He). apply String.eqb_eq in He. subst. exact Hy.
  - intros Hx. exists x. split; [exact Hx | apply String.eqb_refl].
Qed.

(** C4, as the specification states it, fails: the tag "Commercial
    Refrigeration" contains the premium niche name "refrigeration" once case is
    folded, and the niche factor of a business with that one tag scores 80,
    not 100. *)
Lemma niche_substring_counterexample :
  premiumBySubstring (niches refrigerationBusiness) = true
  /\ nicheScore (niches refrigerationBusiness) = 80
  /\ f_score (nicheFactor refrigerationBusiness) = 80%float
  /\ nth_error (factors (calculateAcquisitionFitScore exampleHost refrigerationBusiness
                           DEFAULT_SCORING_CONFIG)) 2
     = Some (nicheFactor refrigerationBusiness)
  /\ ~ (forall b : Business,
          premiumBySubstring (niches b) = true -> f_score (nicheFactor b) = 100%float).
Proof.
  repeat split; try reflexivity.
  intros H. specialize (H refrigerationBusiness eq_refl).
  vm_compute in H. discriminate H.
Qed.

(** C4, amended. The niche factor is the third factor of the Acquisition Fit
    component; it scores 100 exactly when some niche tag, case folded, is
    equal to one of refrigeration, clean_rooms, industrial, restaurants; 80
    exactly when the niche list is not empty and no tag is; 50 exactly when
    the list is empty. *)
Theorem nicheScore_exact_match (h : Host) (b : Business) (config : ScoringConfig) :
  nth_error (factors (calculateAcquisitionFitScore h b config)) 2 = Some (nicheFactor b)
  /\ f_score (nicheFactor b) = Z2F (nicheScore (niches b))
  /\ (nicheScore (niches b) = 100
      <-> exists n, In n (niches b)
                    /\ In (toLowerCase n)
                         ["refrigeration"; "clean_rooms"; "industrial"; "restaurants"])
  /\ (nicheScore (niches b) = 80
      <-> niches b <> []
          /\ forall n, In n (niches b)
                       -> ~ In (toLowerCase n)
                            ["refrigeration"; "clean_rooms"; "industrial"; "restaurants"])
  /\ (nicheScore (niches b) = 50 <-> niches b = []).
Proof.
  split; [reflexivity |]. split; [reflexivity |].
  unfold nicheScore. fold (premiumByEquality (niches b)).
  assert (premiumByEquality (niches b) = true
          <-> exists n, In n (niches b) /\ In (toLowerCase n) premiumNiches) as Hp.
  { unfold premiumByEquality. rewrite existsb_exists.
    split; intros (n & Hn & Hi); exists n; (split; [exact Hn |]);
      apply includes_In; exact Hi. }
  change ["refrigeration"; "clean_rooms"; "industrial"; "restaurants"] with premiumNiches.
  destruct (niches b) as [| n0 ns] eqn:Hns; cbn [length Nat.ltb Nat.leb].
  - repeat split; try discriminate; try reflexivity; try congruence.
    + intros (n & [] & _).
    + intros [Hne _]. congruence.
  - destruct (premiumByEquality (n0 :: ns)) eqn:He.
    + repeat split; try discriminate; try reflexivity.
      * intros _. apply Hp. reflexivity.
      * intros [_ Hall]. exfalso.
        destruct (proj1 Hp eq_refl) as (n & Hn & Hi). exact (Hall n Hn Hi).
    + repeat split; try discriminate; try reflexivity.
      * intros Hex. apply Hp in Hex. discriminate.
      * intros n Hn Hi. assert (false = true) as Hc by (apply Hp; eauto).
        discriminate Hc.
Qed.

(** ** Succession status and owner age *)

(** C5. The succession factor is the fourth factor of the Acquisition Fit
    component. Its score is the base the status gives (OWNER_RETIRING 100,
    NO_SUCCESSOR 90, SUCCESSION_PLANNED 40, RECENTLY_TRANSITIONED 20, anything
    else 50), and with an owner age the maximum of that base and the age
    floor (85 from 60 years on, 70 from 55 to 59, none below). Hence an
    owner age added to an otherwise identical business never lowers the
    factor score. *)
Theorem successionScore_max_floor (h : Host) (b : Business) (config : ScoringConfig)
  (a : Z) :
  nth_error (factors (calculateAcquisitionFitScore h b config)) 3
  = Some (successionFactor b)
  /\ f_score (successionFactor b)
     = Z2F (successionScore (successionStatus b) (ownerAge b))
  /\ (successionBase (Some OWNER_RETIRING) = 100
      /\ successionBase (Some NO_SUCCESSOR) = 90
      /\ successionBase (Some SUCCESSION_PLANNED) = 40
      /\ successionBase (Some RECENTLY_TRANSITIONED) = 20
      /\ successionBase (Some SUCCESSION_UNKNOWN) = 50
      /\ successionBase None = 50)
  /\ successionScore (successionStatus b) None = successionBase (successionStatus b)
  /\ successionScore (successionStatus b) (Some a)
     = Z.max (successionBase (successionStatus b))
         (if 60 <=? a then 85 else if 55 <=? a then 70 else 0)
  /\ successionScore (successionStatus b) None
     <= successionScore (successionStatus b) (Some a)
  /\ (f_score (successionFactor (setOwnerAge None b))
      <=? f_score (successionFactor (setOwnerAge (Some a) b)))%float = true.
Proof.
  split; [reflexivity |]. split; [reflexivity |].
  split; [repeat split |].
  unfold successionFactor, setOwnerAge, successionScore.
  cbn [f_score successionStatus ownerAge].
  destruct (successionStatus b) as [[] |]; cbn [successionBase];
    destruct (Z.eqb_spec a 0) as [-> | Hne]; cbn [Z.leb Z.compare];
    try (repeat split; first [reflexivity | lia]);
    destruct (Z.leb_spec 60 a), (Z.leb_spec 55 a); try lia;
    repeat split; first [reflexivity | lia].
Qed.

(** ** Business age *)

Lemma yearsInBusiness_current (h : Host) (b : Business) :
  yearsInBusiness h (setFoundedYear (Some (currentYear h)) b) = 0.
Proof.
  unfold yearsInBusiness, setFoundedYear. cbn [foundedYear].
  destruct (currentYear h =? 0); lia.
Qed.

(** C10. A business founded in the current calendar year has zero years in
    business, which the Business Age factor (the second factor of the
    Acquisition Fit component) treats as a missing age: the factor is the one
    of the otherwise identical business without a founding year, with score
    50, value 'Unknown' and explanation 'Age unknown', and the two businesses
    get the same Acquisition Fit component. *)
Theorem businessAge_current_year_is_unknown (h : Host) (b : Business)
  (config : ScoringConfig) :
  nth_error
    (factors (calculateAcquisitionFitScore h (setFoundedYear (Some (currentYear h)) b)
                config)) 1
  = Some (businessAgeFactor h (setFoundedYear (Some (currentYear h)) b))
  /\ businessAgeFactor h (setFoundedYear (Some (currentYear h)) b)
     = businessAgeFactor h (setFoundedYear None b)
  /\ businessAgeFactor h (setFoundedYear None b)
     = {| f_name := "Business Age"; f_value := VStr "Unknown"; f_score := 50;
          f_weight := 0.25; f_explanation := "Age unknown" |}
  /\ calculateAcquisitionFitScore h (setFoundedYear (Some (currentYear h)) b) config
     = calculateAcquisitionFitScore h (setFoundedYear None b) config.
Proof.
  assert (businessAgeFactor h (setFoundedYear (Some (currentYear h)) b)
          = businessAgeFactor h (setFoundedYear None b)) as Hage.
  { unfold businessAgeFactor. rewrite yearsInBusiness_current. reflexivity. }
  split; [reflexivity |]. split; [exact Hage |]. split; [reflexivity |].
  unfold calculateAcquisitionFitScore. rewrite Hage. reflexivity.
Qed.

(** ** The range of the scores

    Every factor score is the score of one of finitely many inputs, so the
    weighted sums a component can form are finitely many and are checked by
    evaluation; [Math_round_inRange] turns each of them into an integer. *)

(** What the check of a table establishes. *)
Lemma allInRange_spec (first : float -> float) (w2 w3 w4 : float)
  (l1 l2 l3 l4 : list float) :
  allInRange first w2 w3 w4 l1 l2 l3 l4 = true ->
  forall s1 s2 s3 s4, In s1 l1 -> In s2 l2 -> In s3 l3 -> In s4 l4 ->
    inRange (first s1 + s2 * w2 + s3 * w3 + s4 * w4)%float = true.
Proof.
  unfold allInRange. intros H s1 s2 s3 s4 H1 H2 H3 H4.
  rewrite forallb_forall in H. specialize (H s1 H1). cbv zeta in H.
  rewrite forallb_forall in H. specialize (H s2 H2). cbv zeta in H.
  rewrite forallb_forall in H. specialize (H s3 H3). cbv zeta in H.
  rewrite forallb_forall in H. exact (H s4 H4).
Qed.

(** Case analysis on the integer comparisons of the goal. *)
Ltac zcase :=
  repeat (match goal with
          | |- context [?a <=? ?b] => destruct (Z.leb_spec a b); try lia
          | |- context [?a <? ?b] => destruct (Z.ltb_spec a b); try lia
          | |- context [?a =? ?b] => destruct (Z.eqb_spec a b); try lia
          end; cbn [andb orb negb]); try reflexivity; try lia.

Lemma In_seqZ (x m n : Z) : m <= x < m + n -> In x (seqZ m n).
Proof. intros H. apply list_elem_of_In, elem_of_seqZ. exact H. Qed.

(** [x] has the image of a representative [x'] that is in the table. *)
Lemma In_map_rep {A B} (f : A -> B) (l : list A) (x x' : A) :
  f x = f x' -> In x' l -> In (f x) (map f l).
Proof. intros -> H. apply in_map. exact H. Qed.

Lemma employeeScore_values (c : Z) : In (Z2F (employeeScore c)) employeeValues.
Proof.
  assert (c <= 0 \/ 0 < c <= 50 \/ 50 < c <= 100 \/ 100 < c) as [H | [H | [H | H]]] by lia;
    [ apply (In_map_rep (fun c => Z2F (employeeScore c)) (seqZ 0 52) c 0)
    | apply (In_map_rep (fun c => Z2F (employeeScore c)) (seqZ 0 52) c c)
    | apply (In_map_rep (fun c => Z2F (employeeScore c)) (seqZ 0 52) c 51)
    | apply (In_map_rep (fun c => Z2F (employeeScore c)) (seqZ 0 52) c 0) ];
    first [ apply In_seqZ; lia | f_equal; unfold employeeScore; zcase ].
Qed.

Lemma fleetScore_values (c : Z) : In (Z2F (fleetScore c)) fleetValues.
Proof.
  assert (c <= 0 \/ 0 < c <= 20 \/ 20 < c <= 40 \/ 40 < c) as [H | [H | [H | H]]] by lia;
    [ apply (In_map_rep (fun c => Z2F (fleetScore c)) (seqZ 0 22) c 0)
    | apply (In_map_rep (fun c => Z2F (fleetScore c)) (seqZ 0 22) c c)
    | apply (In_map_rep (fun c => Z2F (fleetScore c)) (seqZ 0 22) c 21)
    | apply (In_map_rep (fun c => Z2F (fleetScore c)) (seqZ 0 22) c 0) ];
    first [ apply In_seqZ; lia | f_equal; unfold fleetScore; zcase ].
Qed.

Lemma permitScore_values (n : Z) : In (permitScore n) permitValues.
Proof.
  assert (n <= 0 \/ 0 < n < 50 \/ (50 <= n < 100 \/ 300 < n <= 400) \/ 100 <= n <= 300
          \/ 400 < n) as [H | [H | [H | [H | H]]]] by lia;
    [ apply (In_map_rep permitScore _ n 0)
    | apply (In_map_rep permitScore _ n n)
    | apply (In_map_rep permitScore _ n 50)
    | apply (In_map_rep permitScore _ n 100)
    | apply (In_map_rep permitScore _ n 401) ];
    first [ unfold permitScore; zcase; fail
          | apply in_or_app; left; apply In_seqZ; lia
          | apply in_or_app; right; cbn; tauto ].
Qed.

Lemma areaScore_values (r : Z) : In (Z2F (areaScore r)) areaValues.
Proof.
  assert (r <= 0 \/ 0 < r < 20 \/ 20 <= r <= 75 \/ 75 < r) as [H | [H | [H | H]]] by lia;
    [ apply (In_map_rep (fun r => Z2F (areaScore r)) _ r 0)
    | apply (In_map_rep (fun r => Z2F (areaScore r)) _ r r)
    | apply (In_map_rep (fun r => Z2F (areaScore r)) _ r 20)
    | apply (In_map_rep (fun r => Z2F (areaScore r)) _ r 76) ];
    first [ f_equal; unfold areaScore; zcase; fail
          | apply in_or_app; left; apply In_seqZ; lia
          | apply in_or_app; right; cbn; tauto ].
Qed.

Lemma inb_In (x : float) (l : list float) : inb x l = true -> In x l.
Proof.
  unfold inb. rewrite existsb_exists. intros (y & Hy & He).
  apply Leibniz.eqb_spec in He. subst. exact Hy.
Qed.

Lemma isPercent_In (x : float) : isPercent x <-> In x percentValues.
Proof.
  unfold isPercent, percentValues. rewrite in_map_iff. split.
  - intros (n & Hn & ->). exists n. split; [reflexivity | apply In_seqZ; lia].
  - intros (n & <- & Hn). exists n. split; [| reflexivity].
    apply list_elem_of_In, elem_of_seqZ in Hn. lia.
Qed.

(** The 52 * 22 * 53 * 22 weighted sums of the Revenue Proxy component. *)
Lemma revenue_table :
  allInRange (fun s => 0 + s * 0.30)%float 0.25 0.25 0.20
    employeeValues fleetValues permitValues areaValues = true.
Proof. vm_compute. reflexivity. Qed.

Lemma revenue_total_inRange (h : Host) (b : Business) (config : ScoringConfig) :
  inRange (totalScore (factors (calculateRevenueProxyScore h b config))) = true.
Proof.
  unfold calculateRevenueProxyScore, totalScore.
  cbn [factors fold_left f_score f_weight].
  apply (allInRange_spec _ _ _ _ _ _ _ _ revenue_table).
  - apply employeeScore_values.
  - apply fleetScore_values.
  - apply permitScore_values.
  - apply areaScore_values.
Qed.

Lemma revenue_isPercent (h : Host) (b : Business) (config : ScoringConfig) :
  isPercent (score (calculateRevenueProxyScore h b config)).
Proof. exact (Math_round_inRange _ (revenue_total_inRange h b config)). Qed.

Lemma ownershipScore_values (t : option OwnershipType) :
  In (Z2F (ownershipScore t)) ownershipValues.
Proof. destruct t as [[] |]; cbn; tauto. Qed.

Lemma ageScore_values (y : Z) : In (Z2F (ageScore y)) ageValues.
Proof.
  assert (y <= 0 \/ 0 < y < 5 \/ 5 <= y < 10 \/ 10 <= y <= 30 \/ 30 < y <= 50 \/ 50 < y)
    as [H | [H | [H | [H | [H | H]]]]] by lia;
    [ apply (In_map_rep (fun y => Z2F (ageScore y)) _ y 0)
    | apply (In_map_rep (fun y => Z2F (ageScore y)) _ y y)
    | apply (In_map_rep (fun y => Z2F (ageScore y)) _ y 5)
    | apply (In_map_rep (fun y => Z2F (ageScore y)) _ y 10)
    | apply (In_map_rep (fun y => Z2F (ageScore y)) _ y 31)
    | apply (In_map_rep (fun y => Z2F (ageScore y)) _ y 51) ];
    [ f_equal; unfold ageScore; zcase | left; reflexivity
    | f_equal; unfold ageScore; zcase
    | assert (y = 1 \/ y = 2 \/ y = 3 \/ y = 4) as [-> | [-> | [-> | ->]]] by lia;
      cbn [In]; tauto
    | f_equal; unfold ageScore; zcase | cbn [In]; tauto
    | f_equal; unfold ageScore; zcase | cbn [In]; tauto
    | f_equal; unfold ageScore; zcase | cbn [In]; tauto
    | f_equal; unfold ageScore; zcase | cbn [In]; tauto ].
Qed.

Lemma nicheScore_values (ns : list string) : In (Z2F (nicheScore ns)) nicheValues.
Proof.
  unfold nicheScore.
  destruct (0 <? length ns)%nat; [destruct (existsb _ ns) |]; cbn; tauto.
Qed.

Lemma successionScore_values (st : option SuccessionStatus) (age : option Z) :
  In (Z2F (successionScore st age)) successionValues.
Proof.
  unfold successionScore.
  destruct st as [[] |], age as [a |]; cbn [successionBase];
    try (cbn; tauto);
    destruct (a =? 0), (60 <=? a), (55 <=? a); cbn; tauto.
Qed.

(** The 5 * 9 * 3 * 7 weighted sums of the Acquisition Fit component. *)
Lemma acquisition_table :
  allInRange (fun s => 0 + s * 0.30)%float 0.25 0.25 0.20
    ownershipValues ageValues nicheValues successionValues = true.
Proof. vm_compute. reflexivity. Qed.

Lemma acquisition_total_inRange (h : Host) (b : Business) (config : ScoringConfig) :
  inRange (totalScore (factors (calculateAcquisitionFitScore h b config))) = true.
Proof.
  unfold calculateAcquisitionFitScore, totalScore, businessAgeFactor, nicheFactor,
    successionFactor.
  cbn [factors fold_left f_score f_weight].
  apply (allInRange_spec _ _ _ _ _ _ _ _ acquisition_table).
  - apply ownershipScore_values.
  - apply ageScore_values.
  - apply nicheScore_values.
  - apply successionScore_values.
Qed.

Lemma acquisition_isPercent (h : Host) (b : Business) (config : ScoringConfig) :
  isPercent (score (calculateAcquisitionFitScore h b config)).
Proof. exact (Math_round_inRange _ (acquisition_total_inRange h b config)). Qed.

Lemma reviewScore_values (t : Z) : In (reviewScore t) [20; 40; 60; 75; 90].
Proof. unfold reviewScore. zcase; cbn [In]; tauto. Qed.

Lemma online_score_eq (h : Host) (b : Business) (config : ScoringConfig) :
  score (calculateOnlineWeaknessScore h b config)
  = onlineScoreOf (truthy_str (website b)) (hasSocial b) (reviewScore (totalReviews b)).
Proof. reflexivity. Qed.

Lemma online_values (h : Host) (b : Business) (config : ScoringConfig) :
  In (score (calculateOnlineWeaknessScore h b config)) onlineValues.
Proof.
  rewrite online_score_eq.
  pose proof (reviewScore_values (totalReviews b)) as Hr.
  destruct (truthy_str (website b)), (hasSocial b);
    cbn [In] in Hr; destruct Hr as [<- | [<- | [<- | [<- | [<- | []]]]]];
    apply inb_In; vm_compute; reflexivity.
Qed.

Lemma permitTrendScore_values (t l : Z) :
  In (permitTrendScore t l) [60; 100; 85; 70; 50; 30].
Proof.
  unfold permitTrendScore. destruct (0 <? l); [| cbn [In]; tauto].
  cbv zeta. repeat (match goal with |- context [geb ?a ?b] => destruct (geb a b) end);
    cbn [In]; tauto.
Qed.

Lemma reviewTrendScore_values (avg : float) :
  In (reviewTrendScore avg) [90; 75; 60; 40].
Proof.
  unfold reviewTrendScore.
  destruct (geb avg 4.5), (geb avg 4.0), (geb avg 3.5), (gtb avg 0); cbn [In]; tauto.
Qed.

Lemma growth_score_eq (h : Host) (b : Business) (config : ScoringConfig) :
  score (calculateGrowthSignalsScore h b config)
  = growthScoreOf (permitTrendScore (thisYearPermits h b) (lastYearPermits h b))
      (reviewTrendScore (avgRating b)).
Proof. reflexivity. Qed.

Lemma growth_values (h : Host) (b : Business) (config : ScoringConfig) :
  In (score (calculateGrowthSignalsScore h b config)) growthValues.
Proof.
  rewrite growth_score_eq.
  pose proof (permitTrendScore_values (thisYearPermits h b) (lastYearPermits h b)) as Hp.
  pose proof (reviewTrendScore_values (avgRating b)) as Hr.
  cbn [In] in Hp, Hr.
  destruct Hp as [<- | [<- | [<- | [<- | [<- | [<- | []]]]]]];
    destruct Hr as [<- | [<- | [<- | [<- | []]]]];
    apply inb_In; vm_compute; reflexivity.
Qed.

(** The 20 Online Weakness and the 24 Growth Signals scores are integers
    between 0 and 100. *)
Lemma online_growth_percent :
  forallb (fun x => inb x percentValues) (onlineValues ++ growthValues) = true.
Proof. vm_compute. reflexivity. Qed.

Lemma online_isPercent (h : Host) (b : Business) (config : ScoringConfig) :
  isPercent (score (calculateOnlineWeaknessScore h b config)).
Proof.
  apply isPercent_In, inb_In.
  pose proof online_growth_percent as H. rewrite forallb_forall in H.
  apply H, in_or_app. left. apply online_values.
Qed.

Lemma growth_isPercent (h : Host) (b : Business) (config : ScoringConfig) :
  isPercent (score (calculateGrowthSignalsScore h b config)).
Proof.
  apply isPercent_In, inb_In.
  pose proof online_growth_percent as H. rewrite forallb_forall in H.
  apply H, in_or_app. right. apply growth_values.
Qed.

(** The weighted sums of the overall score under the default weights. *)
Lemma overall_table :
  allInRange (fun s => s * 0.30)%float 0.25 0.25 0.20
    percentValues onlineValues percentValues growthValues = true.
Proof. vm_compute. reflexivity. Qed.

Lemma overall_isPercent (h : Host) (businessId : string) (b : Business) :
  isPercent (overallScore (calculateScore h businessId b DEFAULT_SCORING_CONFIG)).
Proof.
  unfold calculateScore, weightedOverall. cbn [overallScore].
  apply Math_round_inRange.
  cbn [weights DEFAULT_SCORING_CONFIG w_revenueProxy w_onlineWeakness w_acquisitionFit
         w_growthSignals].
  apply (allInRange_spec _ _ _ _ _ _ _ _ overall_table).
  - apply isPercent_In, revenue_isPercent.
  - apply online_values.
  - apply isPercent_In, acquisition_isPercent.
  - apply growth_values.
Qed.

Lemma isPercent_not_nan (x : float) : isPercent x -> is_nan x = false.
Proof.
  intros H. apply isPercent_In in H.
  assert (forallb (fun x => negb (is_nan x)) percentValues = true) as Hall
    by (vm_compute; reflexivity).
  rewrite forallb_forall in Hall. apply negb_true_iff, Hall, H.
Qed.

(** ** Scoring against the store *)

(** A business that is found is scored, and its row is upserted under
    [<id>_latest]. *)
Lemma calculateBusinessScore_found (h : Host) (id : string) (config : ScoringConfig)
  (w : World) (b : Business) :
  businesses w !! id = Some b ->
  calculateBusinessScore h id config w
  = (inr (calculateScore h id b config),
     set_scores (insert (id +:+ "_latest") (calculateScore h id b config)) w).
Proof.
  intros Hb. unfold calculateBusinessScore, bind, gets. rewrite Hb. reflexivity.
Qed.

(** A business that is not found makes the function throw, the world
    untouched. *)
Lemma calculateBusinessScore_missing (h : Host) (id : string) (config : ScoringConfig)
  (w : World) :
  businesses w !! id = None ->
  calculateBusinessScore h id config w = (inl ("Business not found: " +:+ id), w).
Proof.
  intros Hb. unfold calculateBusinessScore, bind, gets. rewrite Hb. reflexivity.
Qed.

(** The overall score under the default configuration is an integer between
    0 and 100. *)
Lemma calculateScore_default_percent (h : Host) (businessId : string) (b : Business) :
  isPercent (overallScore (calculateScore h businessId b DEFAULT_SCORING_CONFIG)).
Proof. apply overall_isPercent. Qed.

(** C3. Under the default configuration the scoring engine returns, for
    every business the store holds, whatever its fields, four component
    scores and an overall score that are integers between 0 and 100, none of
    them NaN. *)
Theorem default_scores_in_range (h : Host) (businessId : string) (w : World)
  (b : Business) :
  businesses w !! businessId = Some b ->
  exists s w',
    calculateBusinessScore h businessId DEFAULT_SCORING_CONFIG w = (inr s, w')
    /\ isPercent (revenueProxyScore s)
    /\ isPercent (onlineWeaknessScore s)
    /\ isPercent (acquisitionFitScore s)
    /\ isPercent (growthSignalsScore s)
    /\ isPercent (overallScore s)
    /\ is_nan (revenueProxyScore s) = false
    /\ is_nan (onlineWeaknessScore s) = false
    /\ is_nan (acquisitionFitScore s) = false
    /\ is_nan (growthSignalsScore s) = false
    /\ is_nan (overallScore s) = false.
Proof.
  intros Hb. eexists _, _. split; [apply calculateBusinessScore_found, Hb |].
  pose proof (revenue_isPercent h b DEFAULT_SCORING_CONFIG) as Hr.
  pose proof (online_isPercent h b DEFAULT_SCORING_CONFIG) as Ho.
  pose proof (acquisition_isPercent h b DEFAULT_SCORING_CONFIG) as Ha.
  pose proof (growth_isPercent h b DEFAULT_SCORING_CONFIG) as Hg.
  pose proof (calculateScore_default_percent h businessId b) as Hall.
  repeat split; try assumption; apply isPercent_not_nan; assumption.
Qed.

(** The business with every optional field absent. *)
Lemma default_scores_in_range_witness :
  exists s w',
    calculateBusinessScore exampleHost "biz_0" DEFAULT_SCORING_CONFIG exampleWorld
    = (inr s, w')
    /\ isPercent (revenueProxyScore s)
    /\ isPercent (onlineWeaknessScore s)
    /\ isPercent (acquisitionFitScore s)
    /\ isPercent (growthSignalsScore s)
    /\ isPercent (overallScore s)
    /\ is_nan (revenueProxyScore s) = false
    /\ is_nan (onlineWeaknessScore s) = false
    /\ is_nan (acquisitionFitScore s) = false
    /\ is_nan (growthSignalsScore s) = false
    /\ is_nan (overallScore s) = false.
Proof.
  apply (default_scores_in_range exampleHost "biz_0" exampleWorld blankBusiness).
  reflexivity.
Defined.

(** The business with every optional field absent is scored 10, 92, 50 and
    60, and 51 overall. *)
Example blank_business_scores :
  let s := calculateScore exampleHost "biz_0" blankBusiness DEFAULT_SCORING_CONFIG in
  (revenueProxyScore s, onlineWeaknessScore s, acquisitionFitScore s,
   growthSignalsScore s, overallScore s, recommendation s)
  = (10, 92, 50, 60, 51, MEDIUM_PRIORITY)%float.
Proof. vm_compute. reflexivity. Qed.

(** The established family business is scored 98, 92, 100 and 68, and 91
    overall: a high priority. *)
Example established_business_scores :
  let s := calculateScore exampleHost "biz_9" establishedBusiness DEFAULT_SCORING_CONFIG in
  (revenueProxyScore s, onlineWeaknessScore s, acquisitionFitScore s,
   growthSignalsScore s, overallScore s, recommendation s)
  = (98, 92, 100, 68, 91, HIGH_PRIORITY)%float.
Proof. vm_compute. reflexivity. Qed.

(** ** The weighted-sum identity *)

(** C1. For every configuration and every business the store holds, the
    overall score the scoring engine returns is the rounded sum of the four
    component scores, each multiplied by its top-level weight of the
    configuration and added from left to right; each component score is the
    rounded weighted sum of the factors of its component and an integer
    between 0 and 100. *)
Theorem overallScore_weighted_sum (h : Host) (businessId : string)
  (config : ScoringConfig) (w : World) (b : Business) :
  businesses w !! businessId = Some b ->
  exists s w',
    calculateBusinessScore h businessId config w = (inr s, w')
    /\ overallScore s
       = Math_round
           (revenueProxyScore s * w_revenueProxy (weights config)
            + onlineWeaknessScore s * w_onlineWeakness (weights config)
            + acquisitionFitScore s * w_acquisitionFit (weights config)
            + growthSignalsScore s * w_growthSignals (weights config))%float
    /\ (revenueProxyScore s
        = Math_round (totalScore (factors (calculateRevenueProxyScore h b config)))
        /\ isPercent (revenueProxyScore s))
    /\ (onlineWeaknessScore s
        = Math_round (totalScore (factors (calculateOnlineWeaknessScore h b config)))
        /\ isPercent (onlineWeaknessScore s))
    /\ (acquisitionFitScore s
        = Math_round (totalScore (factors (calculateAcquisitionFitScore h b config)))
        /\ isPercent (acquisitionFitScore s))
    /\ (growthSignalsScore s
        = Math_round (totalScore (factors (calculateGrowthSignalsScore h b config)))
        /\ isPercent (growthSignalsScore s)).
Proof.
  intros Hb. eexists _, _. split; [apply calculateBusinessScore_found, Hb |].
  split; [reflexivity |].
  split; [split; [reflexivity | apply revenue_isPercent] |].
  split; [split; [reflexivity | apply online_isPercent] |].
  split; [split; [reflexivity | apply acquisition_isPercent] |].
  split; [reflexivity | apply growth_isPercent].
Qed.

(** The identity at the business with every optional field absent, under the
    default weights. *)
Lemma overallScore_weighted_sum_witness :
  exists s w',
    calculateBusinessScore exampleHost "biz_0" DEFAULT_SCORING_CONFIG exampleWorld
    = (inr s, w')
    /\ overallScore s
       = Math_round
           (revenueProxyScore s * 0.30 + onlineWeaknessScore s * 0.25
            + acquisitionFitScore s * 0.25 + growthSignalsScore s * 0.20)%float
    /\ (revenueProxyScore s
        = Math_round
            (totalScore
               (factors (calculateRevenueProxyScore exampleHost blankBusiness
                           DEFAULT_SCORING_CONFIG)))
        /\ isPercent (revenueProxyScore s))
    /\ (onlineWeaknessScore s
        = Math_round
            (totalScore
               (factors (calculateOnlineWeaknessScore exampleHost blankBusiness
                           DEFAULT_SCORING_CONFIG)))
        /\ isPercent (onlineWeaknessScore s))
    /\ (acquisitionFitScore s
        = Math_round
            (totalScore
               (factors (calculateAcquisitionFitScore exampleHost blankBusiness
                           DEFAULT_SCORING_CONFIG)))
        /\ isPercent (acquisitionFitScore s))
    /\ (growthSignalsScore s
        = Math_round
            (totalScore
               (factors (calculateGrowthSignalsScore exampleHost blankBusiness
                           DEFAULT_SCORING_CONFIG)))
        /\ isPercent (growthSignalsScore s)).
Proof.
  apply (overallScore_weighted_sum exampleHost "biz_0" DEFAULT_SCORING_CONFIG
           exampleWorld blankBusiness).
  reflexivity.
Defined.

(** ** The factor weight tables of the configuration *)

(** The score of a business under two configurations with the same weights
    and thresholds differs in the configuration version at most. *)
Lemma calculateScore_same_weights (h : Host) (businessId : string) (b : Business)
  (c1 c2 : ScoringConfig) :
  weights c1 = weights c2 ->
  thresholds c1 = thresholds c2 ->
  {| s_id := s_id (calculateScore h businessId b c1);
     s_businessId := s_businessId (calculateScore h businessId b c1);
     revenueProxyScore := revenueProxyScore (calculateScore h businessId b c1);
     onlineWeaknessScore := onlineWeaknessScore (calculateScore h businessId b c1);
     acquisitionFitScore := acquisitionFitScore (calculateScore h businessId b c1);
     growthSignalsScore := growthSignalsScore (calculateScore h businessId b c1);
     overallScore := overallScore (calculateScore h businessId b c1);
     recommendation := recommendation (calculateScore h businessId b c1);
     breakdown := breakdown (calculateScore h businessId b c1);
     configVersion := version c2 |}
  = calculateScore h businessId b c2.
Proof.
  intros Hw Ht. unfold calculateScore, weightedOverall, getRecommendation.
  cbn [s_id s_businessId revenueProxyScore onlineWeaknessScore acquisitionFitScore
         growthSignalsScore overallScore recommendation breakdown].
  rewrite Hw, Ht. reflexivity.
Qed.

(** C6. For two configurations with the same four weights and the same three
    thresholds the scoring engine returns, for every business the store holds,
    Scores with the same component scores, overall score, recommendation and
    breakdown, whatever the factor weight tables of the two configurations
    are: the factor weights of the breakdown are the constants of the
    component scorers. With the same version the two Score rows are equal. *)
Theorem factor_tables_never_read (h : Host) (businessId : string) (w : World)
  (b : Business) (c1 c2 : ScoringConfig) :
  businesses w !! businessId = Some b ->
  weights c1 = weights c2 ->
  thresholds c1 = thresholds c2 ->
  exists s1 w1 s2 w2,
    calculateBusinessScore h businessId c1 w = (inr s1, w1)
    /\ calculateBusinessScore h businessId c2 w = (inr s2, w2)
    /\ revenueProxyScore s1 = revenueProxyScore s2
    /\ onlineWeaknessScore s1 = onlineWeaknessScore s2
    /\ acquisitionFitScore s1 = acquisitionFitScore s2
    /\ growthSignalsScore s1 = growthSignalsScore s2
    /\ overallScore s1 = overallScore s2
    /\ recommendation s1 = recommendation s2
    /\ breakdown s1 = breakdown s2
    /\ map f_weight (factors (bd_revenueProxy (breakdown s1)))
       = [0.30; 0.25; 0.25; 0.20]%float
    /\ map f_weight (factors (bd_onlineWeakness (breakdown s1)))
       = [0.30; 0.20; 0.30; 0.20]%float
    /\ map f_weight (factors (bd_acquisitionFit (breakdown s1)))
       = [0.30; 0.25; 0.25; 0.20]%float
    /\ map f_weight (factors (bd_growthSignals (breakdown s1)))
       = [0.35; 0.25; 0.25; 0.15]%float
    /\ (version c1 = version c2 -> s1 = s2 /\ w1 = w2).
Proof.
  intros Hb Hw Ht.
  pose proof (calculateScore_same_weights h businessId b c1 c2 Hw Ht) as Heq.
  eexists _, _, _, _.
  split; [apply calculateBusinessScore_found, Hb |].
  split; [apply calculateBusinessScore_found, Hb |].
  do 11 (split; [first [reflexivity | rewrite <- Heq; reflexivity] |]).
  intros Hv.
  assert (calculateScore h businessId b c1 = calculateScore h businessId b c2) as E.
  { rewrite <- Heq, <- Hv. reflexivity. }
  rewrite E. split; reflexivity.
Qed.

(** The default configuration and one whose factor tables are different. *)
Lemma factor_tables_never_read_witness :
  cfg_factors DEFAULT_SCORING_CONFIG <> cfg_factors scrambledConfig
  /\ exists s1 w1 s2 w2,
       calculateBusinessScore exampleHost "biz_0" DEFAULT_SCORING_CONFIG exampleWorld
       = (inr s1, w1)
       /\ calculateBusinessScore exampleHost "biz_0" scrambledConfig exampleWorld
          = (inr s2, w2)
       /\ s1 = s2 /\ w1 = w2.
Proof.
  split; [discriminate |].
  destruct (factor_tables_never_read exampleHost "biz_0" exampleWorld blankBusiness
              DEFAULT_SCORING_CONFIG scrambledConfig eq_refl eq_refl eq_refl)
    as (s1 & w1 & s2 & w2 & H1 & H2 & H).
  exists s1, w1, s2, w2. split; [exact H1 |]. split; [exact H2 |].
  apply H. reflexivity.
Defined.

Lemma batchWorld_businesses (h : Host) (config : ScoringConfig) (ids : list string)
  (w : World) :
  businesses (batchWorld h config ids w) = businesses w.
Proof.
  revert w. induction ids as [| id rest IH]; intros w; [reflexivity |].
  cbn [batchWorld]. rewrite IH. destruct (businesses w !! id); reflexivity.
Qed.

Lemma batchWorld_console (h : Host) (config : ScoringConfig) (ids : list string)
  (w : World) :
  console (batchWorld h config ids w)
  = (console w ++ map failureLine (List.filter (fun id => negb (found w id)) ids))%list.
Proof.
  revert w. induction ids as [| id rest IH]; intros w.
  - cbn. rewrite app_nil_r. reflexivity.
  - cbn [batchWorld List.filter]. rewrite IH. unfold found at 2.
    destruct (businesses w !! id) as [b |] eqn:Hb.
    + rewrite bool_decide_eq_true_2 by eauto. reflexivity.
    + rewrite bool_decide_eq_false_2 by (intros [? ?]; discriminate).
      cbn [negb log console map]. rewrite <- app_assoc. reflexivity.
Qed.

Lemma omap_scoreIfFound_cons (h : Host) (config : ScoringConfig)
  (table : gmap string Business) (id : string) (rest : list string) :
  omap (scoreIfFound h config table) (id :: rest)
  = match table !! id with
    | Some b => calculateScore h id b config :: omap (scoreIfFound h config table) rest
    | None => omap (scoreIfFound h config table) rest
    end.
Proof. cbn. unfold scoreIfFound at 1. destruct (table !! id); reflexivity. Qed.

(** The loop, from any point on. *)
Lemma batchLoop_spec (h : Host) (config : ScoringConfig) (ids : list string)
  (acc : list Score) (w : World) :
  batchLoop h config ids acc w
  = (inr (acc ++ omap (scoreIfFound h config (businesses w)) ids)%list,
     batchWorld h config ids w).
Proof.
  revert acc w. induction ids as [| id rest IH]; intros acc w.
  - cbn. rewrite app_nil_r. reflexivity.
  - cbn [batchLoop batchWorld]. rewrite omap_scoreIfFound_cons.
    unfold bind at 1, try_catch.
    destruct (businesses w !! id) as [b |] eqn:Hb.
    + unfold bind at 1. rewrite (calculateBusinessScore_found _ _ _ _ _ Hb).
      cbn [ret]. rewrite IH. cbn [set_scores businesses].
      rewrite <- app_assoc. reflexivity.
    + unfold bind at 1. rewrite (calculateBusinessScore_missing _ _ _ _ Hb).
      unfold bind at 1, modify, ret. rewrite IH. reflexivity.
Qed.

Lemma omap_scoreIfFound_ids (h : Host) (config : ScoringConfig) (w : World)
  (ids : list string) :
  map s_businessId (omap (scoreIfFound h config (businesses w)) ids)
  = List.filter (found w) ids.
Proof.
  induction ids as [| id rest IH]; [reflexivity |].
  rewrite omap_scoreIfFound_cons. cbn [List.filter]. unfold found at 1.
  destruct (businesses w !! id) as [b |] eqn:Hb.
  - rewrite bool_decide_eq_true_2 by eauto. cbn [map]. f_equal. exact IH.
  - rewrite bool_decide_eq_false_2 by (intros [? ?]; discriminate). exact IH.
Qed.

(** C8. Batch scoring goes through the identifiers in order and never
    throws. It returns the scores of the identifiers the store has a business
    for, one per such identifier and in input order; an identifier that fails
    is skipped with a line on the console, and the identifiers after it are
    still scored. *)
Theorem batchScoreBusinesses_isolates_failures (h : Host) (config : ScoringConfig)
  (ids : list string) (w : World) :
  batchScoreBusinesses h ids config w
  = (inr (omap (scoreIfFound h config (businesses w)) ids), batchWorld h config ids w)
  /\ map s_businessId (omap (scoreIfFound h config (businesses w)) ids)
     = List.filter (found w) ids
  /\ Forall2 (fun id row => exists b, businesses w !! id = Some b
                                      /\ row = calculateScore h id b config
                                      /\ calculateBusinessScore h id config w
                                         = (inr row,
                                            set_scores (insert (id +:+ "_latest") row) w))
       (List.filter (found w) ids)
       (omap (scoreIfFound h config (businesses w)) ids)
  /\ console (batchWorld h config ids w)
     = (console w ++ map failureLine (List.filter (fun id => negb (found w id)) ids))%list
  /\ businesses (batchWorld h config ids w) = businesses w
  /\ fst (batchScoreBusinesses exampleHost ["biz_0"; "gone"; "biz_7"]
            DEFAULT_SCORING_CONFIG exampleWorld)
     = inr [calculateScore exampleHost "biz_0" blankBusiness DEFAULT_SCORING_CONFIG;
            calculateScore exampleHost "biz_7" refrigerationBusiness DEFAULT_SCORING_CONFIG].
Proof.
  split; [apply (batchLoop_spec h config ids [] w) |].
  split; [apply omap_scoreIfFound_ids |].
  split.
  { induction ids as [| id rest IH]; [constructor |].
    rewrite omap_scoreIfFound_cons. cbn [List.filter]. unfold found at 1.
    destruct (businesses w !! id) as [b |] eqn:Hb.
    - rewrite bool_decide_eq_true_2 by eauto. constructor; [| exact IH].
      exists b. split; [exact Hb |]. split; [reflexivity |].
      apply calculateBusinessScore_found, Hb.
    - rewrite bool_decide_eq_false_2 by (intros [? ?]; discriminate). exact IH. }
  split; [apply batchWorld_console |].
  split; [apply batchWorld_businesses |].
  vm_compute. reflexivity.
Qed.

(** ** Polling with exponential backoff *)

(** *** Time and numbers *)

(** A number between 1 and the largest timer delay is, as a rational, at
    least 1. *)
Lemma F2Q_ge_1 (d : float) :
  geb d 1 = true -> (d <=? TIMEOUT_MAX)%float = true -> (1 <= F2Q d)%Q.
Proof.
  unfold geb. rewrite !FloatAxioms.leb_spec.
  change (Prim2SF 1) with (S754_finite false 4503599627370496 (-52)).
  pose proof (Prim2SF_valid d) as Hv. unfold F2Q.
  destruct (Prim2SF d) as [s | s | | s m e]; try discriminate.
  { destruct s; discriminate. }
  destruct s; [discriminate |].
  unfold SFleb at 1. unfold SFcompare at 1. intros H _.
  assert (-52 <= e /\ 2 ^ 52 <= Z.pos m) as [He Hm].
  { destruct (Z.compare_spec (-52) e) as [<- | Hlt | Hgt]; [| | discriminate].
    - split; [lia |]. rewrite Pos.compare_cont_spec in H. cbn [Pos.switch_Eq] in H.
      rewrite Pos2Z.inj_compare in H.
      destruct (Z.compare_spec 4503599627370496 (Z.pos m)) as [Hm | Hm | Hm];
        [| | discriminate]; change (2 ^ 52) with 4503599627370496; lia.
    - split; [lia |]. apply (valid_normal_mantissa _ _ _ Hv). lia. }
  change (2 ^ 52) with 4503599627370496 in Hm.
  destruct e as [| p | p]; cbn [Qpow2]; unfold Qle, Qmult, inject_Z; cbn [Qnum Qden].
  - change (Z.pos (1 * 1)) with 1. lia.
  - change (Z.pos (1 * 1)) with 1.
    assert (0 < 2 ^ Z.pos p) by (apply Z.pow_pos_nonneg; lia). nia.
  - rewrite Pos.mul_1_l, Pos2Z.inj_pow.
    assert (2 ^ Z.pos p <= 2 ^ 52) by (apply Z.pow_le_mono_r; lia).
    change (2 ^ 52) with 4503599627370496 in *. lia.
Qed.

(** A timer waits one millisecond at least. *)
Lemma timerDelay_ge_1 (delay : float) : (1 <= timerDelay delay)%Q.
Proof.
  unfold timerDelay. destruct (geb delay 1) eqn:H1; cbn [andb]; [| lra].
  destruct (delay <=? TIMEOUT_MAX)%float eqn:H2; [apply F2Q_ge_1; assumption | lra].
Qed.

(** Once the maximum wait has elapsed the time is up, unless the maximum
    wait is infinite. *)
Lemma beforeDeadline_false (elapsed : Q) (maxWait : float) :
  (maxWait =? infinity)%float = false -> (F2Q maxWait <= elapsed)%Q ->
  beforeDeadline elapsed maxWait = false.
Proof.
  rewrite FloatAxioms.eqb_spec. unfold beforeDeadline, F2Q.
  change (Prim2SF infinity) with (S754_infinity false).
  destruct (Prim2SF maxWait) as [s | s | | s m e]; intros Hinf Hle.
  - apply negb_false_iff, Qle_bool_iff, Hle.
  - destruct s; [reflexivity | discriminate].
  - reflexivity.
  - apply negb_false_iff, Qle_bool_iff, Hle.
Qed.

(** The time that is not up was not up earlier. *)
Lemma beforeDeadline_earlier (earlier later : Q) (maxWait : float) :
  (earlier <= later)%Q -> beforeDeadline later maxWait = true ->
  beforeDeadline earlier maxWait = true.
Proof.
  unfold beforeDeadline. intros Hle.
  destruct (Prim2SF maxWait) as [s | s | | s m e]; try (intros H; exact H);
    intros H; apply negb_true_iff, not_true_iff_false; apply negb_true_iff in H;
    intros Hc; apply Qle_bool_iff in Hc;
    assert (Qle_bool (F2Q maxWait) later = true) as Hc' by (apply Qle_bool_iff; lra);
    unfold F2Q in *; congruence.
Qed.

(** [Math.min(a, b)] is at most [b], when it is a number. *)
Lemma Math_min_le_r (a b : float) :
  is_nan (Math_min a b) = false -> (Math_min a b <=? b)%float = true.
Proof.
  unfold Math_min.
  destruct (is_nan a || is_nan b) eqn:Hn; [intros H; discriminate H |].
  apply orb_false_elim in Hn as [Ha Hb]. intros _.
  rewrite is_nan_spec in Ha, Hb.
  destruct (a <? b)%float eqn:Hab.
  { rewrite FloatAxioms.ltb_spec in Hab. rewrite FloatAxioms.leb_spec.
    unfold SFltb in Hab. unfold SFleb.
    destruct (SFcompare (Prim2SF a) (Prim2SF b)) as [[] |]; congruence. }
  assert ((b <=? b)%float = true) as Hbb.
  { change ((b <=? b)%float) with (geb b b). rewrite geb_refl, is_nan_spec.
    destruct (Prim2SF b); try reflexivity. discriminate. }
  destruct (b <? a)%float eqn:Hba; [exact Hbb |].
  assert ((a <=? b)%float = true) as Hle.
  { rewrite FloatAxioms.ltb_spec in Hab, Hba. rewrite FloatAxioms.leb_spec.
    unfold SFltb in Hab, Hba. unfold SFleb. revert Hab Hba.
    destruct (Prim2SF a) as [sa | sa | | sa ma ea], (Prim2SF b) as [sb | sb | | sb mb eb];
      try discriminate; cbn [SFcompare];
      repeat match goal with s : bool |- _ => destruct s end;
      try discriminate; try reflexivity;
      rewrite !Pos.compare_cont_spec, !Pos2Z.inj_compare; cbn [Pos.switch_Eq];
      destruct (Z.compare_spec ea eb); destruct (Z.compare_spec eb ea);
      try discriminate; try reflexivity; try lia;
      destruct (Z.compare_spec (Z.pos ma) (Z.pos mb));
      destruct (Z.compare_spec (Z.pos mb) (Z.pos ma));
      cbn [CompOpp]; try discriminate; try reflexivity; try lia. }
  destruct (get_sign a); assumption.
Qed.

(** The statuses that end the poll. *)
Lemma isTerminal_iff (r : ResearchResult) :
  isTerminal r = true <-> r_status r = RS_completed \/ r_status r = RS_failed.
Proof.
  unfold isTerminal. destruct (r_status r); split; intros H;
    try reflexivity; try discriminate; try tauto; destruct H; discriminate.
Qed.

Lemma isTerminal_false_iff (r : ResearchResult) :
  isTerminal r = false <-> r_status r <> RS_completed /\ r_status r <> RS_failed.
Proof.
  unfold isTerminal. destruct (r_status r); split; intros H;
    try reflexivity; try discriminate; try (split; discriminate); destruct H; congruence.
Qed.

Section Polling.

Variables (env : Remote) (o : PollOptions) (responseId : string).

Lemma sleeps_traceSeq (k : nat) :
  sleeps (traceSeq env o k) = map (delaySeq o) (seq 0 k).
Proof.
  induction k as [| k IH]; [reflexivity |].
  cbn [traceSeq]. unfold sleeps in *. rewrite omap_app, IH, seq_S, map_app.
  reflexivity.
Qed.

Lemma checks_traceSeq (k : nat) : checks (traceSeq env o k) = k.
Proof.
  induction k as [| k IH]; [reflexivity |].
  cbn [traceSeq]. unfold checks in *. rewrite List.filter_app, length_app, IH.
  cbn. lia.
Qed.

(** [n] iterations that do not stop use up [n] units of fuel. *)
Lemma pollLoop_run (n k fuel : nat) :
  (forall j, (k <= j < k + n)%nat -> stops env o j = false) ->
  pollLoop env o responseId (n + fuel) k (elapsedSeq env o k) (delaySeq o k)
    (traceSeq env o k)
  = pollLoop env o responseId fuel (k + n) (elapsedSeq env o (k + n))
      (delaySeq o (k + n)) (traceSeq env o (k + n)).
Proof.
  revert k. induction n as [| n IH]; intros k Hrun.
  - rewrite Nat.add_0_r. reflexivity.
  - cbn [Nat.add pollLoop].
    pose proof (Hrun k ltac:(lia)) as Hk. unfold stops in Hk.
    apply orb_false_elim in Hk as [Ht Hs]. rewrite Ht, Hs.
    rewrite <- app_assoc. cbn [app].
    change (pollLoop env o responseId (n + fuel) (S k) (elapsedSeq env o (S k))
              (delaySeq o (S k)) (traceSeq env o (S k))
            = pollLoop env o responseId fuel (k + S n) (elapsedSeq env o (k + S n))
                (delaySeq o (k + S n)) (traceSeq env o (k + S n))).
    rewrite IH by (intros j Hj; apply Hrun; lia).
    replace (S k + n)%nat with (k + S n)%nat by lia. reflexivity.
Qed.

(** The iteration that stops returns. *)
Lemma pollLoop_stop (k fuel : nat) :
  stops env o k = true ->
  pollLoop env o responseId (S fuel) k (elapsedSeq env o k) (delaySeq o k)
    (traceSeq env o k)
  = Some (if beforeDeadline (elapsedSeq env o k) (maxWaitOf o)
          then (statusAt env k,
                (traceSeq env o k ++ [Checked k (statusAt env k)])%list)
          else (timedOut responseId, traceSeq env o k)).
Proof.
  unfold stops. intros Hs. cbn [pollLoop].
  destruct (beforeDeadline (elapsedSeq env o k) (maxWaitOf o)); [| reflexivity].
  cbn [negb orb] in *. rewrite Hs. reflexivity.
Qed.

(** The first index at which a test that holds somewhere holds. *)
Lemma first_true (P : nat -> bool) (K : nat) :
  P K = true -> exists k, (k <= K)%nat /\ P k = true /\ forall j, (j < k)%nat -> P j = false.
Proof.
  induction K as [K IH] using lt_wf_ind. intros HK.
  destruct (forallb (fun j => negb (P j)) (seq 0 K)) eqn:Hall.
  - exists K. split; [lia |]. split; [exact HK |]. intros j Hj.
    rewrite forallb_forall in Hall. apply negb_true_iff, Hall, in_seq. lia.
  - apply not_true_iff_false in Hall. rewrite forallb_forall in Hall.
    assert (exists j, (j < K)%nat /\ P j = true) as (j & Hj & HP).
    { destruct (existsb P (seq 0 K)) eqn:Hex.
      - apply existsb_exists in Hex as (j & Hj & HP). apply in_seq in Hj.
        exists j. split; [lia | exact HP].
      - exfalso. apply Hall. intros j Hj. apply negb_true_iff.
        destruct (P j) eqn:HP; [| reflexivity].
        assert (existsb P (seq 0 K) = true) as Hc
          by (apply existsb_exists; exists j; split; assumption).
        congruence. }
    destruct (IH j Hj HP) as (k & Hk & HPk & Hlt).
    exists k. split; [lia |]. split; assumption.
Qed.

(** The poll returns at the first iteration that stops, if one stops: with
    the timed-out result when the time is up at its head, with the status it
    has just seen otherwise. More fuel changes nothing. *)
Lemma poll_result_by (K : nat) :
  stops env o K = true ->
  exists k res tr,
    (k <= K)%nat
    /\ (forall fuel, (k < fuel)%nat ->
          waitForResearchCompletion env responseId o fuel = Some (res, tr))
    /\ (forall j, (j < k)%nat ->
          beforeDeadline (elapsedSeq env o j) (maxWaitOf o) = true
          /\ isTerminal (statusAt env j) = false)
    /\ sleeps tr = map (delaySeq o) (seq 0 k)
    /\ ((beforeDeadline (elapsedSeq env o k) (maxWaitOf o) = false
         /\ res = timedOut responseId /\ checks tr = k)
        \/ (beforeDeadline (elapsedSeq env o k) (maxWaitOf o) = true
            /\ isTerminal (statusAt env k) = true
            /\ res = statusAt env k /\ checks tr = S k)).
Proof.
  intros HK.
  destruct (first_true (stops env o) K HK) as (k & Hle & Hk & Hbefore).
  exists k.
  exists (fst (if beforeDeadline (elapsedSeq env o k) (maxWaitOf o)
               then (statusAt env k,
                     (traceSeq env o k ++ [Checked k (statusAt env k)])%list)
               else (timedOut responseId, traceSeq env o k))).
  exists (snd (if beforeDeadline (elapsedSeq env o k) (maxWaitOf o)
               then (statusAt env k,
                     (traceSeq env o k ++ [Checked k (statusAt env k)])%list)
               else (timedOut responseId, traceSeq env o k))).
  split; [exact Hle |].
  split.
  { intros fuel Hfuel. unfold waitForResearchCompletion.
    replace fuel with (k + S (fuel - S k))%nat by lia.
    match goal with
    | |- _ = ?rhs =>
        change (pollLoop env o responseId (k + S (fuel - S k)) 0 (elapsedSeq env o 0)
                  (delaySeq o 0) (traceSeq env o 0) = rhs)
    end.
    rewrite pollLoop_run by (intros j Hj; apply Hbefore; lia).
    cbn [Nat.add]. rewrite pollLoop_stop by exact Hk.
    rewrite <- surjective_pairing. reflexivity. }
  split.
  { intros j Hj. specialize (Hbefore j Hj). unfold stops in Hbefore.
    apply orb_false_elim in Hbefore as [Ht Hs]. apply negb_false_iff in Ht. tauto. }
  unfold stops in Hk.
  destruct (beforeDeadline (elapsedSeq env o k) (maxWaitOf o)) eqn:Ht; cbn [fst snd].
  - cbn [negb orb] in Hk. split.
    + unfold sleeps. rewrite omap_app. cbn. rewrite app_nil_r. apply sleeps_traceSeq.
    + right. split; [reflexivity |]. split; [exact Hk |]. split; [reflexivity |].
      unfold checks. rewrite List.filter_app, length_app.
      fold (checks (traceSeq env o k)). rewrite checks_traceSeq. cbn. lia.
  - split; [apply sleeps_traceSeq |]. left.
    split; [reflexivity |]. split; [reflexivity | apply checks_traceSeq].
Qed.

Hypothesis latency_nonneg : forall k, (0 <= latency env k)%Q.
Hypothesis slack_nonneg : forall k, (0 <= slack env k)%Q.

(** Every iteration takes a millisecond at least. *)
Lemma elapsedSeq_lower (k : nat) : (inject_Z (Z.of_nat k) * 1 <= elapsedSeq env o k)%Q.
Proof.
  induction k as [| k IH]; cbn [elapsedSeq].
  - change (inject_Z (Z.of_nat 0)) with 0%Q. lra.
  - rewrite Nat2Z.inj_succ. unfold Z.succ. rewrite inject_Z_plus.
    change (inject_Z 1) with 1%Q.
    pose proof (timerDelay_ge_1 (delaySeq o k)). pose proof (latency_nonneg k).
    pose proof (slack_nonneg k). lra.
Qed.

Lemma elapsedSeq_mono (j k : nat) :
  (j <= k)%nat -> (elapsedSeq env o j <= elapsedSeq env o k)%Q.
Proof.
  intros Hjk. induction Hjk as [| k Hjk IH]; [lra |].
  cbn [elapsedSeq].
  pose proof (timerDelay_ge_1 (delaySeq o k)). pose proof (latency_nonneg k).
  pose proof (slack_nonneg k). lra.
Qed.

(** Every time is reached by enough steps of a positive length. *)
Lemma steps_reach (a d : Q) :
  (0 < d)%Q -> exists K : nat, (a <= inject_Z (Z.of_nat K) * d)%Q.
Proof.
  destruct a as [na da], d as [nd dd]. unfold Qlt. cbn [Qnum Qden]. intros Hd.
  exists (Z.to_nat (Z.max 0 na * Z.pos dd)).
  unfold Qle. cbn [Qnum Qden Qmult inject_Z].
  rewrite Z2Nat.id by nia.
  rewrite Pos2Z.inj_mul.
  assert (0 < Z.pos da) by lia. assert (0 < Z.pos dd) by lia.
  set (M := Z.max 0 na).
  assert (0 <= M /\ na <= M) as [HM0 HM] by (unfold M; lia).
  assert (na * Z.pos dd <= M * Z.pos dd) by nia.
  assert (0 <= M * Z.pos dd) by nia.
  assert (M * Z.pos dd <= M * Z.pos dd * nd) by nia.
  assert (M * Z.pos dd * nd <= M * Z.pos dd * nd * Z.pos da) by nia.
  lia.
Qed.

Hypothesis maxWait_finite : (maxWaitOf o =? infinity)%float = false.

(** Some iteration stops. *)
Lemma stops_eventually : exists K, stops env o K = true.
Proof.
  destruct (steps_reach (F2Q (maxWaitOf o)) 1) as [K HK]; [reflexivity |].
  exists K. unfold stops. apply orb_true_intro. left.
  apply negb_true_iff, beforeDeadline_false; [exact maxWait_finite |].
  pose proof (elapsedSeq_lower K). lra.
Qed.

(** The poll returns. *)
Lemma poll_result :
  exists k res tr,
    (forall fuel, (k < fuel)%nat ->
       waitForResearchCompletion env responseId o fuel = Some (res, tr))
    /\ (forall j, (j < k)%nat ->
          beforeDeadline (elapsedSeq env o j) (maxWaitOf o) = true
          /\ isTerminal (statusAt env j) = false)
    /\ sleeps tr = map (delaySeq o) (seq 0 k)
    /\ ((beforeDeadline (elapsedSeq env o k) (maxWaitOf o) = false
         /\ res = timedOut responseId /\ checks tr = k)
        \/ (beforeDeadline (elapsedSeq env o k) (maxWaitOf o) = true
            /\ isTerminal (statusAt env k) = true
            /\ res = statusAt env k /\ checks tr = S k)).
Proof.
  destruct stops_eventually as [K HK].
  destruct (poll_result_by K HK) as (k & res & tr & _ & H).
  exists k, res, tr. exact H.
Qed.

End Polling.

(** C9. The poll backs off exponentially: the first delay is the initial
    delay (5000 ms by default), each later delay is the one before multiplied
    by 1.5 and capped at the maximum delay (60000 ms by default), in the
    arithmetic of JavaScript numbers. When the maximum wait (30 minutes by
    default) is not infinite, and no status call or timer takes a negative
    time, the poll returns: a status 'completed' or 'failed' is returned, as
    it was seen, by the first check that sees it; when the time is up at the
    head of an iteration before any check has seen one, the result has status
    'failed', the error 'Research timed out' and no output. The delays slept
    are those of the backoff sequence. *)
Theorem waitForResearchCompletion_backoff (env : Remote) (responseId : string)
  (o : PollOptions) :
  (maxWaitOf o =? infinity)%float = false ->
  (forall k, (0 <= latency env k)%Q) ->
  (forall k, (0 <= slack env k)%Q) ->
  (delaySeq o 0 = initialDelayOf o
   /\ (forall k, delaySeq o (S k) = Math_min (delaySeq o k * 1.5) (maxDelayOf o))
   /\ (forall k, is_nan (delaySeq o (S k)) = false ->
         (delaySeq o (S k) <=? maxDelayOf o)%float = true))
  /\ (initialDelayOf defaultPollOptions = 5000%float
      /\ maxDelayOf defaultPollOptions = 60000%float
      /\ maxWaitOf defaultPollOptions = 1800000%float
      /\ map (delaySeq defaultPollOptions) (seq 0 9)
         = [5000; 7500; 11250; 16875; 25312.5; 37968.75; 56953.125; 60000; 60000]%float)
  /\ (r_status (timedOut responseId) = RS_failed
      /\ r_output (timedOut responseId) = None
      /\ r_error (timedOut responseId) = Some "Research timed out")
  /\ exists k res tr,
       (forall fuel, (k < fuel)%nat ->
          waitForResearchCompletion env responseId o fuel = Some (res, tr))
       /\ (forall j, (j < k)%nat ->
             beforeDeadline (elapsedSeq env o j) (maxWaitOf o) = true
             /\ r_status (statusAt env j) <> RS_completed
             /\ r_status (statusAt env j) <> RS_failed)
       /\ sleeps tr = map (delaySeq o) (seq 0 k)
       /\ ((beforeDeadline (elapsedSeq env o k) (maxWaitOf o) = false
            /\ res = timedOut responseId /\ checks tr = k)
           \/ (beforeDeadline (elapsedSeq env o k) (maxWaitOf o) = true
               /\ (r_status (statusAt env k) = RS_completed
                   \/ r_status (statusAt env k) = RS_failed)
               /\ res = statusAt env k /\ checks tr = S k)).
Proof.
  intros Hm Hl Hs.
  split.
  { split; [reflexivity |]. split; [reflexivity |].
    intros k. cbn [delaySeq]. unfold nextDelay. apply Math_min_le_r. }
  split.
  { split; [reflexivity |]. split; [reflexivity |]. split; [reflexivity |].
    vm_compute. reflexivity. }
  split; [repeat split |].
  destruct (poll_result env o responseId Hl Hs Hm)
    as (k & res & tr & Hrun & Hbefore & Hsleeps & Hend).
  exists k, res, tr.
  split; [exact Hrun |].
  split.
  { intros j Hj. destruct (Hbefore j Hj) as [Ht Hn].
    split; [exact Ht | apply isTerminal_false_iff, Hn]. }
  split; [exact Hsleeps |].
  destruct Hend as [Hup | (Ht & Hterm & Hres & Hchecks)]; [left; exact Hup | right].
  split; [exact Ht |]. split; [apply isTerminal_iff, Hterm |]. split; assumption.
Qed.

(** A task seen in progress three times and completed at the fourth check,
    polled with the default options: the fourth check returns it, after
    delays of 5000, 7500 and 11250 ms. *)
Lemma waitForResearchCompletion_backoff_witness :
  exists res tr,
    waitForResearchCompletion completesAtFourth "resp_1" defaultPollOptions 10
    = Some (res, tr)
    /\ r_status res = RS_completed
    /\ r_output res = Some "Found 12 businesses"
    /\ checks tr = 4%nat
    /\ sleeps tr = [5000; 7500; 11250]%float.
Proof.
  destruct (waitForResearchCompletion_backoff completesAtFourth "resp_1"
              defaultPollOptions) as (_ & _ & _ & k & res & tr & Hrun & Hbefore & Hsl & Hend).
  - reflexivity.
  - intros k. cbn. discriminate.
  - intros k. cbn. discriminate.
  - assert (k < 4)%nat as Hk.
    { destruct (Nat.lt_ge_cases k 4) as [H | H]; [exact H |].
      destruct (Hbefore 3%nat H) as (_ & Hc & _). exfalso. apply Hc. reflexivity. }
    exists res, tr.
    destruct k as [| [| [| [| k]]]]; [| | | | exfalso; lia];
      (destruct Hend as [(Ht & _) | (_ & Hst & Hres & Hch)];
       [vm_compute in Ht; discriminate Ht |]);
      try (exfalso; destruct Hst as [Hst | Hst]; vm_compute in Hst; discriminate Hst).
    split; [apply Hrun; lia |]. subst res.
    split; [reflexivity |]. split; [reflexivity |]. split; [exact Hch |].
    rewrite Hsl. vm_compute. reflexivity.
Defined.

(** A task that never finishes is given up after 35 checks, half an hour
    having elapsed. *)
Example poll_times_out :
  option_map (fun p => (fst p, checks (snd p)))
    (waitForResearchCompletion pendingForever "resp_1" defaultPollOptions 36)
  = Some (timedOut "resp_1", 35%nat).
Proof. vm_compute. reflexivity. Qed.

(** A task that has completed by the fourth check is returned with its
    output, after delays of 5000, 7500 and 11250 ms. *)
Example poll_returns_completed :
  option_map (fun p => (r_status (fst p), r_output (fst p), sleeps (snd p)))
    (waitForResearchCompletion completesAtFourth "resp_1" defaultPollOptions 10)
  = Some (RS_completed, Some "Found 12 businesses", [5000; 7500; 11250]%float).
Proof. vm_compute. reflexivity. Qed.

(** A delay above the largest timer delay is waited for one millisecond:
    with a maximum wait of 60 ms and delays of 3000000000 ms, a task that
    stays pending is checked 60 times. *)
Example poll_clamped_timer :
  option_map (fun p => (fst p, checks (snd p)))
    (waitForResearchCompletion pendingForever "resp_1"
       {| maxWaitMs := Some 60%float; initialDelayMs := Some 3000000000%float;
          maxDelayMs := Some 3000000000%float |} 100)
  = Some (timedOut "resp_1", 60%nat).
Proof. vm_compute. reflexivity. Qed.

(** ** The pipeline and the score table *)

Section KeepsScores.

Context {A B : Type}.







End KeepsScores.











(** ** The run on a store that has the job *)

Section Returns.

Context {A B : Type}.

Lemma returns_ret (a : A) (pre : World -> Prop) (post : A -> World -> Prop) :
  (forall w, pre w -> post a w) -> returns pre (ret a) post.
Proof. intros H w Hw. exists a, w. split; [reflexivity | apply H, Hw]. Qed.

Lemma returns_bind (m : M A) (k : A -> M B) (pre : World -> Prop)
  (mid : A -> World -> Prop) (post : B -> World -> Prop) :
  returns pre m mid -> (forall a, returns (mid a) (k a) post) -> returns pre (bind m k) post.
Proof.
  intros Hm Hk w Hw. destruct (Hm w Hw) as (a & w1 & E1 & H1).
  destruct (Hk a w1 H1) as (b & w2 & E2 & H2).
  exists b, w2. unfold bind. rewrite E1, E2. split; [reflexivity | exact H2].
Qed.

(** A statement of a [try] block that does not throw. *)
Lemma returns_attempt_bind (m : M A) (k : string + A -> M B) (pre : World -> Prop)
  (mid : A -> World -> Prop) (post : B -> World -> Prop) :
  returns pre m mid -> (forall a, returns (mid a) (k (inr a)) post) ->
  returns pre (bind (attempt m) k) post.
Proof.
  intros Hm Hk w Hw. destruct (Hm w Hw) as (a & w1 & E1 & H1).
  destruct (Hk a w1 H1) as (b & w2 & E2 & H2).
  exists b, w2. unfold bind, attempt. rewrite E1, E2. split; [reflexivity | exact H2].
Qed.

Lemma returns_weaken (m : M A) (pre : World -> Prop) (P Q : A -> World -> Prop) :
  returns pre m P -> (forall a w, P a w -> Q a w) -> returns pre m Q.
Proof.
  intros Hm HPQ w Hw. destruct (Hm w Hw) as (a & w1 & E1 & H1).
  exists a, w1. split; [exact E1 | apply HPQ, H1].
Qed.

Lemma returns_try_catch (m : M A) (handler : string -> M A) (pre : World -> Prop)
  (post : A -> World -> Prop) :
  returns pre m post -> returns pre (try_catch m handler) post.
Proof.
  intros Hm w Hw. destruct (Hm w Hw) as (a & w1 & E1 & H1).
  exists a, w1. unfold try_catch. rewrite E1. split; [reflexivity | exact H1].
Qed.

Lemma returns_gets (f : World -> A) (pre : World -> Prop) :
  returns pre (gets f) (fun _ w => pre w).
Proof. intros w Hw. exists (f w), w. split; [reflexivity | exact Hw]. Qed.

Lemma returns_assume (P : Prop) (pre : World -> Prop) (m : M A)
  (post : A -> World -> Prop) :
  (P -> returns pre m post) -> returns (fun w => pre w /\ P) m post.
Proof. intros H w [Hw HP]. apply (H HP w Hw). Qed.

End Returns.

Lemma returns_modify (f : World -> World) (pre post : World -> Prop) :
  (forall w, pre w -> post (f w)) -> returns pre (modify f) (fun _ w => post w).
Proof. intros H w Hw. exists tt, (f w). split; [reflexivity | apply H, Hw]. Qed.

(** [prisma.researchJob.update] on a row that is there, and on one that is
    not. *)
Lemma updateJob_present (jobId : string) (f : ResearchJob -> ResearchJob) (w : World)
  (job : ResearchJob) :
  jobs w !! jobId = Some job ->
  updateJob jobId f w = (inr tt, set_jobs (alter f jobId) w).
Proof. intros Hjob. unfold updateJob, bind, gets. rewrite Hjob. reflexivity. Qed.

Lemma updateJob_absent (jobId : string) (f : ResearchJob -> ResearchJob) (w : World) :
  jobs w !! jobId = None -> updateJob jobId f w = (inl recordNotFound, w).
Proof. intros Hjob. unfold updateJob, bind, gets. rewrite Hjob. reflexivity. Qed.

Lemma updateProgress_present (jobId : string) (rp : Reporter) (u : ProgressUpdate)
  (w : World) (job : ResearchJob) :
  jobs w !! jobId = Some job ->
  updateProgress jobId rp u w
  = (inr {| current := assign (current rp) u;
            reported := (reported rp ++ [assign (current rp) u])%list |},
     set_jobs (alter (fun j =>
       {| job_status := job_status j; job_progress := progress (assign (current rp) u);
          job_businessesFound := job_businessesFound j;
          job_businessesQualified := job_businessesQualified j; job_error := job_error j;
          job_openaiResponseId := job_openaiResponseId j |}) jobId) w).
Proof.
  intros Hjob. unfold updateProgress, updateJobProgress, bind, try_catch.
  rewrite (updateJob_present _ _ _ _ Hjob). reflexivity.
Qed.

(** The [catch] block, on a store that has the job: what it returns and the
    row it leaves. *)
Lemma pipelineFailed_spec (jobId : string) (rp : Reporter) (succeeded : bool)
  (st : PipelineStats) (ids : list string) (msg : string) (w : World) (job : ResearchJob) :
  jobs w !! jobId = Some job ->
  exists after job',
    pipelineFailed jobId rp succeeded st ids msg w
    = (inr ({| success := succeeded; jobId := jobId; businessIds := ids;
               stats := {| discovered := discovered st; validated := validated st;
                           stored := stored st; scored := scored st;
                           st_errors :=
                             Z.of_nat (length (errors (current rp) ++ [msg])) |} |},
            (reported rp
             ++ [ {| stage := ERROR; progress := progress (current rp);
                     message := "Pipeline failed: " +:+ msg;
                     businessesFound := businessesFound (current rp);
                     businessesProcessed := businessesProcessed (current rp);
                     errors := (errors (current rp) ++ [msg])%list |} ])%list),
       after)
    /\ jobs after !! jobId = Some job'
    /\ job_status job' = JOB_FAILED
    /\ (String.eqb msg "" = false -> job_error job' = Some msg)
    /\ job_openaiResponseId job' = job_openaiResponseId job
    /\ businesses after = businesses w
    /\ jobLinks after = jobLinks w.
Proof.
  intros Hjob. unfold pipelineFailed. unfold bind at 1.
  rewrite (updateProgress_present _ _ _ _ _ Hjob).
  unfold updateJobStatus, bind.
  erewrite updateJob_present
    by (cbn [jobs set_jobs]; rewrite lookup_alter_eq, Hjob; reflexivity).
  eexists _, _. split; [reflexivity |].
  cbn [jobs set_jobs businesses jobLinks]. rewrite !lookup_alter_eq, Hjob.
  cbn [fmap option_fmap option_map].
  split; [reflexivity |]. split; [reflexivity |].
  split; [| repeat split; reflexivity].
  intros Hm. cbn [job_error truthy_str]. rewrite Hm. reflexivity.
Qed.

Section JobRow.

Variable jobId : string.

Lemma jobPresent_set_jobs (f : ResearchJob -> ResearchJob) (w : World) :
  jobPresent jobId w -> jobPresent jobId (set_jobs (alter f jobId) w).
Proof.
  unfold jobPresent. cbn [set_jobs jobs]. rewrite lookup_alter_eq.
  intros [j ->]. eexists. reflexivity.
Qed.

Lemma present_updateJob (f : ResearchJob -> ResearchJob) :
  returns (jobPresent jobId) (updateJob jobId f) (fun _ => jobPresent jobId).
Proof.
  intros w Hw. pose proof Hw as [job Hjob].
  exists tt, (set_jobs (alter f jobId) w).
  split; [apply (updateJob_present _ _ _ _ Hjob) | apply jobPresent_set_jobs, Hw].
Qed.

Lemma present_updateProgress (rp : Reporter) (u : ProgressUpdate) :
  returns (jobPresent jobId) (updateProgress jobId rp u)
    (fun rp' w => jobPresent jobId w
                  /\ rp' = {| current := assign (current rp) u;
                              reported := (reported rp ++ [assign (current rp) u])%list |}).
Proof.
  intros w Hw. pose proof Hw as [job Hjob].
  eexists _, _. split; [apply (updateProgress_present _ _ _ _ _ Hjob) |].
  split; [apply jobPresent_set_jobs, Hw | reflexivity].
Qed.

(** A step that leaves the job table alone. *)
Lemma present_modify (f : World -> World) :
  (forall w, jobs (f w) = jobs w) ->
  returns (jobPresent jobId) (modify f) (fun _ => jobPresent jobId).
Proof.
  intros Hf. apply returns_modify. intros w. unfold jobPresent. rewrite Hf. trivial.
Qed.

Lemma present_ret {A} (a : A) :
  returns (jobPresent jobId) (ret a) (fun _ => jobPresent jobId).
Proof. apply returns_ret. trivial. Qed.

Lemma present_runDiscoveryStage (ai : Research) (params : ResearchJobParameters) :
  returns (jobPresent jobId) (runDiscoveryStage ai jobId params)
    (fun _ => jobPresent jobId).
Proof.
  unfold runDiscoveryStage.
  destruct (negb _); [apply present_ret |].
  destruct (r_status (startResult ai));
    try apply present_ret;
    (eapply returns_bind; [apply present_updateJob |]; intros ?;
     destruct (r_status (finalResult ai)); apply present_ret).
Qed.

Lemma present_checkValidation (ai : Research) (e : ExtractedBusinessData) :
  returns (jobPresent jobId) (checkValidation ai e) (fun _ => jobPresent jobId).
Proof.
  unfold checkValidation.
  destruct (geb _ _); [| apply present_ret].
  destruct (validateBusinessData ai e) as [error | validation]; [apply present_ret |].
  destruct (isValid validation); [apply present_ret |].
  destruct (issues validation) as [found |]; [| apply present_ret].
  eapply returns_bind; [| intros ?; apply present_ret].
  destruct (0 <? length found)%nat; [apply present_modify; reflexivity | apply present_ret].
Qed.

(** Validation leaves the list of errors of the progress object alone. *)
Lemma present_validateLoop (ai : Research) (n i : nat)
  (todo acc : list ExtractedBusinessData) (rp : Reporter) :
  returns (jobPresent jobId) (validateLoop ai jobId n i todo acc rp)
    (fun out w => jobPresent jobId w
                  /\ errors (current (snd out)) = errors (current rp)).
Proof.
  revert i acc rp. induction todo as [| e rest IH]; intros i acc rp; cbn [validateLoop].
  - apply returns_ret. intros w Hw. split; [exact Hw | reflexivity].
  - destruct (_ || _ || _); [apply IH |].
    eapply returns_bind; [apply present_checkValidation |].
    intros [error |]; [apply returns_ret; intros w Hw; split; [exact Hw | reflexivity] |].
    eapply returns_bind; [apply present_updateProgress |].
    intros rp'. apply returns_assume. intros ->.
    eapply returns_weaken; [apply IH |].
    intros out w [Hw Herrs]. split; [exact Hw | exact Herrs].
Qed.

Lemma present_storeOne (e : ExtractedBusinessData) :
  returns (jobPresent jobId) (storeOne jobId e) (fun _ => jobPresent jobId).
Proof.
  unfold storeOne.
  eapply returns_bind; [apply returns_gets |]. intros existing.
  eapply returns_bind.
  { destruct existing as [[key row] |].
    - eapply returns_bind; [apply present_modify; reflexivity |]. intros ?.
      apply present_ret.
    - eapply returns_bind; [apply returns_gets |]. intros n.
      eapply returns_bind; [apply present_modify; reflexivity |]. intros ?.
      eapply returns_bind; [apply present_modify; reflexivity |]. intros ?.
      apply present_ret. }
  intros storedId.
  eapply returns_bind; [apply present_modify; reflexivity |]. intros ?.
  eapply returns_bind.
  { destruct (truthy_num _); [apply present_modify; reflexivity | apply present_ret]. }
  intros ?. apply present_ret.
Qed.

Lemma present_storeLoop (todo : list ExtractedBusinessData) (storedIds : list string) :
  returns (jobPresent jobId) (storeLoop jobId todo storedIds) (fun _ => jobPresent jobId).
Proof.
  revert storedIds. induction todo as [| e rest IH]; intros storedIds; cbn [storeLoop].
  - apply present_ret.
  - eapply returns_bind; [| intros ids; apply IH].
    apply returns_try_catch.
    eapply returns_bind; [apply present_storeOne |]. intros sid.
    apply present_ret.
Qed.

(** The [catch] block, entered before any business is stored. *)
Lemma agrees_pipelineFailed (rp : Reporter) (st : PipelineStats) (msg : string) :
  errors (current rp) = [] -> stored st = 0 -> scored st = 0 ->
  returns (jobPresent jobId) (pipelineFailed jobId rp false st [] msg)
    (fun out w => jobRowAgrees jobId out w /\ pipelineOutcome out).
Proof.
  intros Herrs Hstored Hscored w [job Hjob].
  destruct (pipelineFailed_spec jobId rp false st [] msg w job Hjob)
    as (after & job' & Hrun & Hjob' & Hst & Herr & _).
  eexists _, after. split; [exact Hrun |]. split.
  - exists job'. cbn [fst snd success businessIds stats st_errors].
    split; [exact Hjob' |]. split; [reflexivity |].
    split; [exact Hst |]. split; [reflexivity |].
    rewrite Herrs. split; [reflexivity |].
    exists msg. rewrite map_app. cbn [map errors]. rewrite last_snoc.
    split; [reflexivity | exact Herr].
  - unfold pipelineOutcome. cbn [fst snd success businessIds stats stored scored length].
    split; [exact Hscored |]. split; [exact Hstored |].
    rewrite map_app. cbn [map stage]. apply last_snoc.
Qed.

Lemma completed_updateJobStatus (found qualified : Z) :
  returns (jobPresent jobId)
    (updateJobStatus jobId JOB_COMPLETED (Some found) (Some qualified) None)
    (fun _ w => exists job, jobs w !! jobId = Some job
                            /\ job_status job = JOB_COMPLETED
                            /\ job_businessesFound job = found
                            /\ job_businessesQualified job = qualified).
Proof.
  intros w [job Hjob]. eexists tt, _.
  split; [apply (updateJob_present _ _ _ _ Hjob) |].
  cbn [set_jobs jobs]. rewrite lookup_alter_eq, Hjob.
  eexists. split; [reflexivity |]. repeat split; reflexivity.
Qed.

(** The run on a store that has the job: it returns, the row agrees with
    the result, and the statistics and the stages are those of a run that
    has scored. *)
Lemma agrees_runRegionDiscoveryPipeline (ai : Research) (params : ResearchJobParameters) :
  returns (jobPresent jobId) (runRegionDiscoveryPipeline ai jobId params)
    (fun out w => jobRowAgrees jobId out w /\ pipelineOutcome out).
Proof.
  unfold runRegionDiscoveryPipeline.
  eapply returns_bind; [apply present_updateProgress |]. intros rp1.
  apply returns_assume. intros ->.
  eapply returns_attempt_bind; [apply present_runDiscoveryStage |].
  intros [[ok output] error].
  destruct ok; cbn [negb]; [| apply agrees_pipelineFailed; reflexivity].
  eapply returns_bind; [apply present_updateProgress |]. intros rp2.
  apply returns_assume. intros ->.
  eapply returns_bind; [apply present_updateProgress |]. intros rp3.
  apply returns_assume. intros ->.
  destruct (extractBusinessData ai _) as [msg | extracted];
    [apply agrees_pipelineFailed; reflexivity |].
  eapply returns_bind; [apply present_updateProgress |]. intros rp4.
  apply returns_assume. intros ->.
  eapply returns_bind; [apply present_updateProgress |]. intros rp5.
  apply returns_assume. intros ->.
  eapply returns_bind; [apply present_validateLoop |].
  intros [[errorMessage | validatedBusinesses] rp6]; cbn [snd].
  { apply returns_assume. intros Herrs. apply agrees_pipelineFailed; [exact Herrs | |];
      reflexivity. }
  apply returns_assume. intros _.
  eapply returns_bind; [apply present_updateProgress |]. intros rp7.
  apply returns_assume. intros ->.
  eapply returns_bind; [apply present_storeLoop |]. intros storedBusinessIds.
  eapply returns_bind; [apply present_updateProgress |]. intros rp8.
  apply returns_assume. intros ->.
  eapply returns_bind; [apply present_updateProgress |]. intros rp9.
  apply returns_assume. intros ->.
  eapply returns_bind; [apply present_updateProgress |]. intros rp10.
  apply returns_assume. intros ->.
  eapply returns_attempt_bind; [apply completed_updateJobStatus |]. intros ?.
  apply returns_ret. intros w (job & Hjob & Hst & Hfound & Hq).
  split.
  - exists job. cbn [fst snd success stats discovered stored].
    split; [exact Hjob |]. split; [reflexivity |].
    split; [exact Hst |]. split; [exact Hfound | exact Hq].
  - unfold pipelineOutcome. cbn [fst snd success stats businessIds scored stored].
    split; [reflexivity |]. split; [reflexivity |].
    eexists. cbn [reported]. rewrite !map_app. cbn [map assign stage u_stage default].
    rewrite <- app_assoc. reflexivity.
Qed.

End JobRow.




(** On a store that does not have the row of the job the run throws: the
    update of the row in the discovery stage fails, and the [catch] block
    fails on the same row. *)
Example pipeline_throws_without_row :
  fst (runRegionDiscoveryPipeline exampleResearch "job_2" travisCounty emptyWorld)
  = inl recordNotFound.
Proof. vm_compute. reflexivity. Qed.

(** * Further properties of the code *)

(** ** The order of numbers *)

Lemma SFleb_trans (a b c : spec_float) :
  SFleb a b = true -> SFleb b c = true -> SFleb a c = true.
Proof.
  unfold SFleb.
  destruct a as [sa | sa | | sa ma ea], b as [sb | sb | | sb mb eb],
    c as [sc | sc | | sc mc ec]; cbn [SFcompare];
    try discriminate; try reflexivity;
    repeat match goal with s : bool |- _ => destruct s end;
    try discriminate; try reflexivity.
  all: rewrite ?Pos.compare_cont_spec, ?Pos2Z.inj_compare; cbn [Pos.switch_Eq].
  all: destruct (Z.compare_spec ea eb); destruct (Z.compare_spec eb ec);
       destruct (Z.compare_spec ea ec); try discriminate; try reflexivity; try lia.
  all: subst.
  all: destruct (Z.compare_spec (Z.pos ma) (Z.pos mb));
       destruct (Z.compare_spec (Z.pos mb) (Z.pos mc));
       destruct (Z.compare_spec (Z.pos ma) (Z.pos mc));
       cbn [CompOpp]; try discriminate; try reflexivity; try lia.
Qed.

(** [>=] on numbers is transitive. *)
Lemma geb_trans (a b c : float) : geb a b = true -> geb b c = true -> geb a c = true.
Proof.
  unfold geb. rewrite !FloatAxioms.leb_spec. intros H1 H2.
  exact (SFleb_trans _ _ _ H2 H1).
Qed.

(** X1. A higher score never gets a lower recommendation, whatever the
    thresholds of the configuration are (ordered or not). *)
Theorem getRecommendation_monotone (s1 s2 : float) (config : ScoringConfig) :
  geb s2 s1 = true ->
  priority (getRecommendation s1 config) <= priority (getRecommendation s2 config).
Proof.
  intros H. unfold getRecommendation.
  destruct (geb s1 (highPriority (thresholds config))) eqn:H1.
  { rewrite (geb_trans _ _ _ H H1). reflexivity. }
  destruct (geb s1 (mediumPriority (thresholds config))) eqn:H2.
  { rewrite (geb_trans _ _ _ H H2).
    destruct (geb s2 (highPriority (thresholds config))); cbn; lia. }
  destruct (geb s1 (lowPriority (thresholds config))) eqn:H3.
  { rewrite (geb_trans _ _ _ H H3).
    destruct (geb s2 (highPriority (thresholds config))),
      (geb s2 (mediumPriority (thresholds config))); cbn; lia. }
  destruct (geb s2 (highPriority (thresholds config))),
    (geb s2 (mediumPriority (thresholds config))),
    (geb s2 (lowPriority (thresholds config))); cbn; lia.
Qed.

(** A score of 80 against one of 60, under the default thresholds. *)
Lemma getRecommendation_monotone_witness :
  priority (getRecommendation 60 DEFAULT_SCORING_CONFIG)
  <= priority (getRecommendation 80 DEFAULT_SCORING_CONFIG).
Proof. apply (getRecommendation_monotone 60 80 DEFAULT_SCORING_CONFIG). reflexivity. Defined.

(** X2. Under the default thresholds the colour of a score is never better
    than its recommendation: a green score is HIGH_PRIORITY, a yellow one at
    least MEDIUM_PRIORITY, an orange one at least LOW_PRIORITY, and a score
    that is NOT_RECOMMENDED is red. The converse fails: 75 is HIGH_PRIORITY
    and yellow. *)
Theorem getScoreColor_not_better_than_recommendation (s : float) :
  (getScoreColor s = "text-green-600" ->
   getRecommendation s DEFAULT_SCORING_CONFIG = HIGH_PRIORITY)
  /\ (getScoreColor s = "text-yellow-600" ->
      2 <= priority (getRecommendation s DEFAULT_SCORING_CONFIG))
  /\ (getScoreColor s = "text-orange-600" ->
      1 <= priority (getRecommendation s DEFAULT_SCORING_CONFIG))
  /\ (getRecommendation s DEFAULT_SCORING_CONFIG = NOT_RECOMMENDED ->
      getScoreColor s = "text-red-600")
  /\ getScoreColor 75 = "text-yellow-600"
  /\ getRecommendation 75 DEFAULT_SCORING_CONFIG = HIGH_PRIORITY.
Proof.
  assert (geb 80 75 = true /\ geb 60 50 = true /\ geb 40 25 = true) as (G1 & G2 & G3)
    by (repeat split; reflexivity).
  unfold getScoreColor, getRecommendation.
  cbn [thresholds DEFAULT_SCORING_CONFIG highPriority mediumPriority lowPriority].
  destruct (geb s 80) eqn:H80.
  { rewrite (geb_trans _ _ _ H80 G1).
    repeat split; try discriminate; reflexivity. }
  destruct (geb s 60) eqn:H60.
  { rewrite (geb_trans _ _ _ H60 G2).
    repeat split; try discriminate; try reflexivity;
      destruct (geb s 75); cbn; intros; try discriminate; lia. }
  destruct (geb s 40) eqn:H40.
  { rewrite (geb_trans _ _ _ H40 G3).
    repeat split; try discriminate; try reflexivity;
      destruct (geb s 75), (geb s 50); cbn; intros; try discriminate; lia. }
  repeat split; try discriminate; reflexivity.
Qed.

(** ** More binary64 facts behind [Math.round] *)

(** The quotient [Math_round] computes grows with the value. *)
Lemma round_quotient_mono (tm m tk k : Z) :
  0 < tm -> 0 <= k <= tk -> (k = tk -> tm <= m) ->
  (k < tk -> tm < 2 ^ 53 /\ 2 ^ 52 <= m) ->
  (2 * tm + 2 ^ tk) / 2 ^ (tk + 1) <= (2 * m + 2 ^ k) / 2 ^ (k + 1).
Proof.
  intros Htm Hk Heq Hlt.
  assert (0 < 2 ^ k) as Hp by (apply Z.pow_pos_nonneg; lia).
  destruct (Z.eq_dec k tk) as [<- | Hne].
  - apply Z.div_le_mono; [apply Z.pow_pos_nonneg; lia |]. specialize (Heq eq_refl). lia.
  - destruct Hlt as [H53 H52]; [lia |].
    set (d := tk - k). assert (1 <= d) as Hd by (unfold d; lia).
    replace tk with (d + k) by (unfold d; lia).
    assert (2 <= 2 ^ d) as H2d.
    { change 2 with (2 ^ 1) at 1. apply Z.pow_le_mono_r; lia. }
    rewrite <- (Z.div_mul_cancel_l (2 * m + 2 ^ k) (2 ^ (k + 1)) (2 ^ d))
      by (apply Z.pow_nonzero; lia).
    replace (d + k + 1) with (d + (k + 1)) by lia.
    rewrite (Z.pow_add_r 2 d (k + 1)) by lia.
    apply Z.div_le_mono.
    + apply Z.mul_pos_pos; apply Z.pow_pos_nonneg; lia.
    + rewrite (Z.pow_add_r 2 d k) by lia.
      change (2 ^ 53) with (2 * 2 ^ 52) in H53.
      assert (2 * m <= 2 ^ d * m) by (apply Z.mul_le_mono_nonneg_r; lia).
      lia.
Qed.

(** [Math.round] of a number between a positive bound [t] and 100 is an
    integer between the rounded bound and 100. *)
Lemma Math_round_between (t x : float) (tm : positive) (te n : Z) :
  Prim2SF t = S754_finite false tm te -> te < 0 ->
  n <= (2 * Z.pos tm + 2 ^ (- te)) / 2 ^ (- te + 1) ->
  (t <=? x)%float = true -> (x <=? 100)%float = true ->
  exists k, n <= k <= 100 /\ Math_round x = Z2F k.
Proof.
  intros Ht Hte Hn H0 H1.
  rewrite FloatAxioms.leb_spec in H0, H1. rewrite Ht in H0.
  change (Prim2SF 100) with (S754_finite false 7036874417766400 (-46)) in H1.
  pose proof (Prim2SF_valid x) as Hv.
  pose proof (Prim2SF_valid t) as Hvt. rewrite Ht in Hvt.
  unfold Math_round.
  destruct (Prim2SF x) as [s | s | | s m e] eqn:E.
  - destruct s; discriminate.
  - destruct s; discriminate.
  - discriminate.
  - destruct s; [discriminate |].
    pose proof (valid_normal_mantissa _ _ _ Hv) as Hnorm.
    apply valid_finite_bounds in Hv as [Hm He].
    apply valid_finite_bounds in Hvt as [Htm Hte'].
    unfold SFleb, SFcompare in H0, H1.
    rewrite Pos.compare_cont_spec, Pos2Z.inj_compare in H0, H1.
    assert (e <= -46 /\ (e = -46 -> Z.pos m <= 7036874417766400)) as [Hle Heq].
    { destruct (Z.compare_spec e (-46)) as [-> | Hlt | Hgt]; [| lia | discriminate].
      split; [lia |]. intros _.
      destruct (Z.compare_spec (Z.pos m) 7036874417766400) as [Hm' | Hlt | Hgt];
        [lia | lia | discriminate]. }
    assert (te <= e /\ (e = te -> Z.pos tm <= Z.pos m)) as [Hge Hsame].
    { destruct (Z.compare_spec te e) as [-> | Hlt | Hgt]; [| lia | discriminate].
      split; [lia |]. intros _.
      destruct (Z.compare_spec (Z.pos tm) (Z.pos m)) as [Hm' | Hlt | Hgt];
        [lia | lia | discriminate]. }
    destruct (Z.leb_spec 0 e) as [Hpos | _]; [lia |].
    rewrite andb_false_r.
    eexists. split; [| reflexivity].
    change (Z.pos m~0) with (2 * Z.pos m).
    split.
    + etransitivity; [exact Hn |].
      apply round_quotient_mono; try lia.
    + apply round_quotient_bound; lia.
Qed.

(** ** Relations that were not loaded *)

(** X3. A relation of the business that is absent is scored as one that is
    empty: the score of a business does not change when its absent permits,
    reviews, employee estimates and fleet estimates are replaced by empty
    lists. *)
Theorem calculateScore_absent_relations (h : Host) (businessId : string) (b : Business)
  (config : ScoringConfig) :
  calculateScore h businessId (loadRelations b) config
  = calculateScore h businessId b config.
Proof.
  destruct b as [i n c co sr w f l ig ni ot oa fy ss ps rs es fs].
  destruct ps, rs, es, fs; reflexivity.
Qed.

(** ** Online weakness and web presence *)

Lemma reviewScore_antitone (t1 t2 : Z) : t1 <= t2 -> reviewScore t2 <= reviewScore t1.
Proof. intros H. unfold reviewScore. zcase. Qed.

Lemma onlineScoreOf_antitone (w1 s1 w2 s2 : bool) (r1 r2 : Z) :
  In r1 [20; 40; 60; 75; 90] -> In r2 [20; 40; 60; 75; 90] -> r2 <= r1 ->
  implb w1 w2 = true -> implb s1 s2 = true ->
  geb (onlineScoreOf w1 s1 r1) (onlineScoreOf w2 s2 r2) = true.
Proof.
  cbn [In]. intros H1 H2 Hr Hw Hs.
  destruct H1 as [<- | [<- | [<- | [<- | [<- | []]]]]];
    destruct H2 as [<- | [<- | [<- | [<- | [<- | []]]]]];
    try lia; clear Hr;
    destruct w1, w2; try discriminate Hw; destruct s1, s2; try discriminate Hs;
    vm_compute; reflexivity.
Qed.

(** X4. More web presence never raises the Online Weakness score: a
    business that has a website whenever another has one, a social profile
    whenever the other has one, and at least as many reviews, scores at most
    what the other scores. *)
Theorem onlineWeakness_antitone (h : Host) (b1 b2 : Business) (config : ScoringConfig) :
  implb (truthy_str (website b1)) (truthy_str (website b2)) = true ->
  implb (hasSocial b1) (hasSocial b2) = true ->
  totalReviews b1 <= totalReviews b2 ->
  geb (score (calculateOnlineWeaknessScore h b1 config))
      (score (calculateOnlineWeaknessScore h b2 config)) = true.
Proof.
  intros Hw Hs Hr. rewrite !online_score_eq.
  apply onlineScoreOf_antitone.
  - apply reviewScore_values.
  - apply reviewScore_values.
  - apply reviewScore_antitone, Hr.
  - exact Hw.
  - exact Hs.
Qed.

(** The business without any data against the established one, which has
    five reviews. *)
Lemma onlineWeakness_antitone_witness :
  geb (score (calculateOnlineWeaknessScore exampleHost blankBusiness DEFAULT_SCORING_CONFIG))
      (score (calculateOnlineWeaknessScore exampleHost establishedBusiness
                DEFAULT_SCORING_CONFIG)) = true.
Proof.
  apply (onlineWeakness_antitone exampleHost blankBusiness establishedBusiness
           DEFAULT_SCORING_CONFIG).
  - reflexivity.
  - reflexivity.
  - vm_compute. discriminate.
Defined.

(** ** The floors of the scores *)

(** What the check of a table with a lower bound establishes. *)
Lemma allBetween_spec (lo : float) (first : float -> float) (w2 w3 w4 : float)
  (l1 l2 l3 l4 : list float) :
  allBetween lo first w2 w3 w4 l1 l2 l3 l4 = true ->
  forall s1 s2 s3 s4, In s1 l1 -> In s2 l2 -> In s3 l3 -> In s4 l4 ->
    (lo <=? first s1 + s2 * w2 + s3 * w3 + s4 * w4)%float = true
    /\ (first s1 + s2 * w2 + s3 * w3 + s4 * w4 <=? 100)%float = true.
Proof.
  unfold allBetween. intros H s1 s2 s3 s4 H1 H2 H3 H4.
  rewrite forallb_forall in H. specialize (H s1 H1). cbv zeta in H.
  rewrite forallb_forall in H. specialize (H s2 H2). cbv zeta in H.
  rewrite forallb_forall in H. specialize (H s3 H3). cbv zeta in H.
  rewrite forallb_forall in H. specialize (H s4 H4). cbv zeta in H.
  apply andb_prop in H. exact H.
Qed.




(** No weighted sum of the Acquisition Fit component is below 21.5. *)
Lemma acquisition_floor_table :
  allBetween 21.5 (fun s => 0 + s * 0.30)%float 0.25 0.25 0.20
    ownershipValues ageValues nicheValues successionValues = true.
Proof. vm_compute. reflexivity. Qed.

Lemma acquisition_floor (h : Host) (b : Business) (config : ScoringConfig) :
  isIntegerIn 22 100 (score (calculateAcquisitionFitScore h b config)).
Proof.
  unfold calculateAcquisitionFitScore, totalScore, businessAgeFactor, nicheFactor,
    successionFactor.
  cbn [score factors fold_left f_score f_weight].
  destruct (allBetween_spec _ _ _ _ _ _ _ _ _ acquisition_floor_table
              (Z2F (ownershipScore (ownershipType b)))
              (Z2F (ageScore (yearsInBusiness h b)))
              (Z2F (nicheScore (niches b)))
              (Z2F (successionScore (successionStatus b) (ownerAge b))))
    as [Hlo Hhi].
  - apply ownershipScore_values.
  - apply ageScore_values.
  - apply nicheScore_values.
  - apply successionScore_values.
  - apply (Math_round_between 21.5 _ 6051711999279104 (-48) 22); try assumption;
      [reflexivity | lia | vm_compute; discriminate].
Qed.

(** The Online Weakness scores lie between 39 and 92, the Growth Signals
    scores between 45 and 82. *)
Lemma online_growth_floor_table :
  forallb (fun x => inb x (map Z2F (seqZ 39 54))) onlineValues
  && forallb (fun x => inb x (map Z2F (seqZ 45 38))) growthValues = true.
Proof. vm_compute. reflexivity. Qed.

Lemma online_floor (h : Host) (b : Business) (config : ScoringConfig) :
  isIntegerIn 39 92 (score (calculateOnlineWeaknessScore h b config)).
Proof.
  pose proof online_growth_floor_table as H. apply andb_prop in H as [H _].
  rewrite forallb_forall in H. specialize (H _ (online_values h b config)).
  apply inb_In, in_map_iff in H as (n & <- & Hn).
  apply list_elem_of_In, elem_of_seqZ in Hn. exists n. split; [lia | reflexivity].
Qed.

Lemma growth_floor (h : Host) (b : Business) (config : ScoringConfig) :
  isIntegerIn 45 82 (score (calculateGrowthSignalsScore h b config)).
Proof.
  pose proof online_growth_floor_table as H. apply andb_prop in H as [_ H].
  rewrite forallb_forall in H. specialize (H _ (growth_values h b config)).
  apply inb_In, in_map_iff in H as (n & <- & Hn).
  apply list_elem_of_In, elem_of_seqZ in Hn. exists n. split; [lia | reflexivity].
Qed.

(** X5. Whatever the business and the configuration, the Online Weakness
    score is an integer from 39 to 92, the Acquisition Fit score one from 22
    to 100 and the Growth Signals score one from 45 to 82: none of the three
    reaches 0, and Online Weakness and Growth Signals never reach 100.
    Online Weakness and Growth Signals read the numbers of the business
    through comparisons with thresholds only; the founding year, which
    Acquisition Fit reads, is a calendar year. *)
Theorem component_score_floors (h : Host) (businessId : string) (b : Business)
  (config : ScoringConfig) :
  isIntegerIn 39 92 (onlineWeaknessScore (calculateScore h businessId b config))
  /\ isIntegerIn 22 100 (acquisitionFitScore (calculateScore h businessId b config))
  /\ isIntegerIn 45 82 (growthSignalsScore (calculateScore h businessId b config)).
Proof.
  unfold calculateScore.
  cbn [onlineWeaknessScore acquisitionFitScore growthSignalsScore].
  split; [apply online_floor |].
  split; [apply acquisition_floor | apply growth_floor].
Qed.




(** On a whole number of miles the Service Area factor of the model is the
    one the source computes on numbers (here for the radii up to 1000 miles).
    For a radius of half a mile the source computes the factor 1.5; with the
    other factors of the Revenue Proxy component at 0 the weighted sum is 0.3
    and the score 0, and with the other components at their floors the
    overall score is 24, which is NOT_RECOMMENDED. *)
Example whole_and_fractional_radius :
  forallb (fun r => Leibniz.eqb (areaScoreOfNumber (Z2F r)) (Z2F (areaScore r)))
    (seqZ 0 1001) = true
  /\ areaScoreOfNumber 0.5 = 1.5%float
  /\ Math_round (0 + 0 * 0.30 + 0 * 0.25 + 0 * 0.25 + areaScoreOfNumber 0.5 * 0.20)%float
     = 0%float
  /\ weightedOverall DEFAULT_SCORING_CONFIG 0 39 22 45 = 24%float
  /\ getRecommendation (weightedOverall DEFAULT_SCORING_CONFIG 0 39 22 45)
       DEFAULT_SCORING_CONFIG
     = NOT_RECOMMENDED.
Proof. repeat split; vm_compute; reflexivity. Qed.

(** ** The score table *)

Lemma append_length (a s : string) :
  String.length (a +:+ s) = (String.length a + String.length s)%nat.
Proof. induction a as [| c a IH]; [reflexivity | simpl; f_equal; exact IH]. Qed.

(** Two identifiers with the same key in the score table are the same. *)
Lemma latest_key_inj (id1 id2 : string) :
  id1 +:+ "_latest" = id2 +:+ "_latest" -> id1 = id2.
Proof.
  revert id2. induction id1 as [| c1 r1 IH]; intros [| c2 r2] H.
  - reflexivity.
  - apply (f_equal String.length) in H. rewrite !append_length in H. cbn in H. lia.
  - apply (f_equal String.length) in H. rewrite !append_length in H. cbn in H. lia.
  - cbn in H. injection H as -> H. f_equal. apply IH, H.
Qed.

(** X7. Scoring a business writes one row, under [<id>_latest], and keeps no
    history: the row in the table afterwards is the score returned, every
    other row and every business is as before, and a business scored first
    under one configuration and then under another is left exactly as if
    only the second scoring had been done. *)
Theorem calculateBusinessScore_keeps_latest_only (h : Host) (id : string)
  (c1 c2 : ScoringConfig) (w : World) (b : Business) :
  businesses w !! id = Some b ->
  fst (calculateBusinessScore h id c2 w) = inr (calculateScore h id b c2)
  /\ scores (snd (calculateBusinessScore h id c2 w)) !! (id +:+ "_latest")
     = Some (calculateScore h id b c2)
  /\ (forall k, k <> id +:+ "_latest" ->
        scores (snd (calculateBusinessScore h id c2 w)) !! k = scores w !! k)
  /\ businesses (snd (calculateBusinessScore h id c2 w)) = businesses w
  /\ calculateBusinessScore h id c2 (snd (calculateBusinessScore h id c1 w))
     = calculateBusinessScore h id c2 w.
Proof.
  intros Hb.
  rewrite !(calculateBusinessScore_found _ _ _ _ _ Hb). cbn [fst snd].
  split; [reflexivity |].
  split; [cbn [set_scores scores]; apply lookup_insert_eq |].
  split; [intros k Hk; cbn [set_scores scores]; apply lookup_insert_ne; congruence |].
  split; [reflexivity |].
  rewrite (calculateBusinessScore_found _ _ _ _ b) by exact Hb.
  f_equal. unfold set_scores. cbn [businesses scores jobs jobLinks nextId console].
  rewrite insert_insert_eq. reflexivity.
Qed.

(** The blank business of the example world, scored under two
    configurations. *)
Lemma calculateBusinessScore_keeps_latest_only_witness :
  calculateBusinessScore exampleHost "biz_0" DEFAULT_SCORING_CONFIG
    (snd (calculateBusinessScore exampleHost "biz_0" scrambledConfig exampleWorld))
  = calculateBusinessScore exampleHost "biz_0" DEFAULT_SCORING_CONFIG exampleWorld.
Proof.
  apply (calculateBusinessScore_keeps_latest_only exampleHost "biz_0" scrambledConfig
           DEFAULT_SCORING_CONFIG exampleWorld blankBusiness).
  reflexivity.
Defined.

Lemma batchWorld_scores_other (h : Host) (config : ScoringConfig) (ids : list string)
  (w : World) (k : string) :
  (forall id, In id ids -> is_Some (businesses w !! id) -> k <> id +:+ "_latest") ->
  scores (batchWorld h config ids w) !! k = scores w !! k.
Proof.
  revert w. induction ids as [| id rest IH]; intros w Hk; [reflexivity |].
  cbn [batchWorld]. destruct (businesses w !! id) as [b |] eqn:Hb.
  - rewrite IH.
    + cbn [set_scores scores]. apply lookup_insert_ne.
      intros E. apply (Hk id); [left; reflexivity | rewrite Hb; eauto | congruence].
    + intros id' Hin Hs. apply Hk; [right; exact Hin | exact Hs].
  - rewrite IH; [reflexivity |].
    intros id' Hin Hs. apply Hk; [right; exact Hin | exact Hs].
Qed.

Lemma batchWorld_scores_scored (h : Host) (config : ScoringConfig) (ids : list string)
  (w : World) (id : string) (b : Business) :
  In id ids -> businesses w !! id = Some b ->
  scores (batchWorld h config ids w) !! (id +:+ "_latest")
  = Some (calculateScore h id b config).
Proof.
  revert w. induction ids as [| id0 rest IH]; intros w Hin Hb; [destruct Hin |].
  cbn [batchWorld].
  destruct (in_dec string_dec id rest) as [Hrest | Hrest].
  - apply IH; [exact Hrest |].
    destruct (businesses w !! id0); exact Hb.
  - destruct Hin as [-> | Hin]; [| contradiction].
    rewrite Hb. rewrite batchWorld_scores_other.
    + cbn [set_scores scores]. apply lookup_insert_eq.
    + intros id' Hin' _ E. apply latest_key_inj in E. subst. contradiction.
Qed.

(** X8. After a batch the score table holds, for every identifier of the
    batch that has a business, the score of that business under
    [<id>_latest]; every row under another key is as before, and so is every
    business. *)
Theorem batchScoreBusinesses_table (h : Host) (config : ScoringConfig)
  (ids : list string) (w : World) :
  (forall id b, In id ids -> businesses w !! id = Some b ->
     scores (snd (batchScoreBusinesses h ids config w)) !! (id +:+ "_latest")
     = Some (calculateScore h id b config))
  /\ (forall k,
        (forall id, In id ids -> is_Some (businesses w !! id) -> k <> id +:+ "_latest") ->
        scores (snd (batchScoreBusinesses h ids config w)) !! k = scores w !! k)
  /\ businesses (snd (batchScoreBusinesses h ids config w)) = businesses w.
Proof.
  unfold batchScoreBusinesses. rewrite batchLoop_spec. cbn [snd].
  split; [intros id b; apply batchWorld_scores_scored |].
  split; [intros k; apply batchWorld_scores_other | apply batchWorld_businesses].
Qed.

(** ** More on polling *)

Section PollBounds.

Variables (env : Remote) (o : PollOptions) (responseId : string).

Hypothesis latency_nonneg : forall k, (0 <= latency env k)%Q.
Hypothesis slack_nonneg : forall k, (0 <= slack env k)%Q.

(** The time elapsed is at least the time the timers waited. *)
Lemma elapsedSeq_delaySum (k : nat) : (delaySum o k <= elapsedSeq env o k)%Q.
Proof.
  induction k as [| k IH]; cbn [elapsedSeq delaySum]; [lra |].
  pose proof (latency_nonneg k). pose proof (slack_nonneg k). lra.
Qed.

(** The poll has returned by the iteration [K] when the time is up there. *)
Lemma poll_checks_by (K : nat) :
  beforeDeadline (elapsedSeq env o K) (maxWaitOf o) = false ->
  exists res tr,
    (forall fuel, (K < fuel)%nat ->
       waitForResearchCompletion env responseId o fuel = Some (res, tr))
    /\ (checks tr <= K)%nat.
Proof.
  intros HK.
  assert (stops env o K = true) as Hstop.
  { unfold stops. rewrite HK. reflexivity. }
  destruct (poll_result_by env o responseId K Hstop)
    as (k & res & tr & Hle & Hrun & _ & _ & Hend).
  exists res, tr. split.
  - intros fuel Hfuel. apply Hrun. lia.
  - destruct Hend as [(_ & _ & ->) | (Ht & _ & _ & ->)]; [exact Hle |].
    assert (k <> K) by (intros ->; congruence). lia.
Qed.

End PollBounds.

(** X9. When no status call takes a negative time and no timer fires before
    its delay has passed, and the maximum wait is not infinite, the poll
    makes at most [K] status checks if the first [K] timers of the backoff
    wait the maximum wait between them, however long the checks take and
    whatever they see. A timer waits its delay when that is a number from 1
    to 2147483647 ms and one millisecond otherwise. With the default options
    that is at most 35 checks, and 34 timers do not wait long enough. *)
Theorem waitForResearchCompletion_check_bound (env : Remote) (responseId : string)
  (o : PollOptions) (K : nat) :
  (forall k, (0 <= latency env k)%Q) ->
  (forall k, (0 <= slack env k)%Q) ->
  (maxWaitOf o =? infinity)%float = false ->
  (F2Q (maxWaitOf o) <= delaySum o K)%Q ->
  (exists res tr,
     (forall fuel, (K < fuel)%nat ->
        waitForResearchCompletion env responseId o fuel = Some (res, tr))
     /\ (checks tr <= K)%nat)
  /\ (F2Q (maxWaitOf defaultPollOptions) <= delaySum defaultPollOptions 35)%Q
  /\ (delaySum defaultPollOptions 34 < F2Q (maxWaitOf defaultPollOptions))%Q.
Proof.
  intros Hl Hs Hfin HK. split.
  - apply poll_checks_by. apply beforeDeadline_false; [exact Hfin |].
    pose proof (elapsedSeq_delaySum env o Hl Hs K). lra.
  - split; [vm_compute; discriminate | vm_compute; reflexivity].
Qed.

(** The task of the examples that completes by the fourth check, polled with
    the default options. *)
Lemma waitForResearchCompletion_check_bound_witness :
  exists res tr,
    (forall fuel, (35 < fuel)%nat ->
       waitForResearchCompletion completesAtFourth "resp_1" defaultPollOptions fuel
       = Some (res, tr))
    /\ (checks tr <= 35)%nat.
Proof.
  apply (waitForResearchCompletion_check_bound completesAtFourth "resp_1"
           defaultPollOptions 35).
  - intros k. cbn. discriminate.
  - intros k. cbn. discriminate.
  - reflexivity.
  - vm_compute. discriminate.
Defined.

(** With a maximum wait of 60 ms and delays of 3000000000 ms every timer
    waits one millisecond: 60 timers wait the maximum wait, 59 do not. *)
Example clamped_delaySum :
  let o := {| maxWaitMs := Some 60%float; initialDelayMs := Some 3000000000%float;
              maxDelayMs := Some 3000000000%float |} in
  (F2Q (maxWaitOf o) <= delaySum o 60)%Q /\ (delaySum o 59 < F2Q (maxWaitOf o))%Q.
Proof. split; [vm_compute; discriminate | vm_compute; reflexivity]. Qed.

(** ** The poll over [getResearchStatus] *)

(** A result of [getResearchStatus] ends the poll exactly when the retrieval
    threw or reported 'completed' or 'failed'. *)
Lemma isTerminal_getResearchStatus (responseId : string)
  (retrieved : Thrown + ApiResponse) :
  isTerminal (getResearchStatus responseId retrieved) = endsPoll retrieved.
Proof.
  destruct retrieved as [e | response]; [reflexivity |].
  unfold isTerminal, getResearchStatus, endsPoll. cbn [r_status].
  destruct (String.eqb (api_status response) "completed"); [reflexivity |].
  destruct (String.eqb (api_status response) "failed"); [reflexivity |].
  destruct (String.eqb (api_status response) "in_progress"); reflexivity.
Qed.

(** X10. A task that the API never reports as 'completed' or 'failed' is
    polled until the maximum wait has elapsed and is then returned as failed
    with the error 'Research timed out': the statuses 'cancelled',
    'incomplete' and 'queued' are not final for the poll. (No status call and
    no timer takes a negative time, and the maximum wait is not infinite.) *)
Theorem poll_times_out_on_unrecognised_status (responseId : string)
  (retrieve : nat -> Thrown + ApiResponse) (lat sl : nat -> Q) (o : PollOptions) :
  (maxWaitOf o =? infinity)%float = false ->
  (forall k, (0 <= lat k)%Q) -> (forall k, (0 <= sl k)%Q) ->
  (forall k, endsPoll (retrieve k) = false) ->
  (exists k tr,
     (forall fuel, (k < fuel)%nat ->
        waitForResearchCompletion (remoteOf responseId retrieve lat sl) responseId o fuel
        = Some (timedOut responseId, tr))
     /\ checks tr = k
     /\ beforeDeadline (elapsedSeq (remoteOf responseId retrieve lat sl) o k)
          (maxWaitOf o) = false
     /\ (forall j, (j < k)%nat ->
           beforeDeadline (elapsedSeq (remoteOf responseId retrieve lat sl) o j)
             (maxWaitOf o) = true))
  /\ (forall response,
        In (api_status response) ["cancelled"; "incomplete"; "queued"; "in_progress"] ->
        endsPoll (inr response) = false).
Proof.
  intros Hfin Hl Hs Hnever. split.
  - destruct (poll_result (remoteOf responseId retrieve lat sl) o responseId Hl Hs Hfin)
      as (k & res & tr & Hret & Hbefore & _ & [(Hup & -> & Hc) | (_ & Hterm & _)]).
    + exists k, tr. split; [exact Hret |]. split; [exact Hc |]. split; [exact Hup |].
      intros j Hj. apply (Hbefore j Hj).
    + cbn [remoteOf statusAt] in Hterm.
      rewrite isTerminal_getResearchStatus, Hnever in Hterm. discriminate.
  - intros response Hin. unfold endsPoll. cbn [In] in Hin.
    destruct Hin as [<- | [<- | [<- | [<- | []]]]]; reflexivity.
Qed.

(** A cancelled task, answered at once, polled with the default options. *)
Lemma poll_times_out_on_unrecognised_status_witness :
  exists k tr,
    (forall fuel, (k < fuel)%nat ->
       waitForResearchCompletion
         (remoteOf "resp_1" cancelledTask (fun _ => 0%Q) (fun _ => 0%Q)) "resp_1"
         defaultPollOptions fuel
       = Some (timedOut "resp_1", tr))
    /\ checks tr = k
    /\ beforeDeadline
         (elapsedSeq (remoteOf "resp_1" cancelledTask (fun _ => 0%Q) (fun _ => 0%Q))
            defaultPollOptions k) (maxWaitOf defaultPollOptions) = false
    /\ (forall j, (j < k)%nat ->
          beforeDeadline
            (elapsedSeq (remoteOf "resp_1" cancelledTask (fun _ => 0%Q) (fun _ => 0%Q))
               defaultPollOptions j) (maxWaitOf defaultPollOptions) = true).
Proof.
  apply (poll_times_out_on_unrecognised_status "resp_1" cancelledTask
           (fun _ => 0%Q) (fun _ => 0%Q) defaultPollOptions).
  - reflexivity.
  - intros k. discriminate.
  - intros k. discriminate.
  - intros k. reflexivity.
Defined.

(** X11. A retrieval that throws ends the poll at once: when the check
    number [k] throws while the time is not up, no earlier check having ended
    the poll, the poll returns after [k + 1] checks a failed result that
    carries the message of the error, and the task is not asked about
    again. (No status call and no timer takes a negative time.) *)
Theorem poll_aborts_on_thrown_retrieval (responseId : string)
  (retrieve : nat -> Thrown + ApiResponse) (lat sl : nat -> Q) (o : PollOptions)
  (k : nat) (message : string) :
  (forall k, (0 <= lat k)%Q) -> (forall k, (0 <= sl k)%Q) ->
  (forall j, (j < k)%nat -> endsPoll (retrieve j) = false) ->
  retrieve k = inl (ThrownError message) ->
  beforeDeadline (elapsedSeq (remoteOf responseId retrieve lat sl) o k) (maxWaitOf o)
  = true ->
  exists tr,
    (forall fuel, (k < fuel)%nat ->
       waitForResearchCompletion (remoteOf responseId retrieve lat sl) responseId o fuel
       = Some ({| r_id := responseId; r_status := RS_failed; r_output := None;
                  r_error := Some message |}, tr))
    /\ checks tr = S k
    /\ sleeps tr = map (delaySeq o) (seq 0 k).
Proof.
  intros Hl Hs Hbefore Hk Htime.
  set (env := remoteOf responseId retrieve lat sl) in *.
  assert (forall j, (j <= k)%nat -> beforeDeadline (elapsedSeq env o j) (maxWaitOf o) = true)
    as Hnot.
  { intros j Hj. apply (beforeDeadline_earlier _ (elapsedSeq env o k)); [| exact Htime].
    apply elapsedSeq_mono; assumption. }
  exists (traceSeq env o k ++ [Checked k (statusAt env k)])%list.
  split.
  { intros fuel Hfuel. unfold waitForResearchCompletion.
    replace fuel with (k + S (fuel - S k))%nat by lia.
    match goal with
    | |- _ = ?rhs =>
        change (pollLoop env o responseId (k + S (fuel - S k)) 0 (elapsedSeq env o 0)
                  (delaySeq o 0) (traceSeq env o 0) = rhs)
    end.
    rewrite pollLoop_run.
    - cbn [Nat.add]. rewrite pollLoop_stop.
      + rewrite Hnot by lia. subst env. cbn [remoteOf statusAt]. rewrite Hk. reflexivity.
      + unfold stops. apply orb_true_intro. right. subst env. cbn [remoteOf statusAt].
        rewrite isTerminal_getResearchStatus, Hk. reflexivity.
    - intros j Hj. unfold stops. rewrite Hnot by lia. subst env. cbn [remoteOf statusAt].
      rewrite isTerminal_getResearchStatus. cbn [negb orb]. apply Hbefore. lia. }
  split.
  - unfold checks. rewrite List.filter_app, length_app.
    fold (checks (traceSeq env o k)). rewrite checks_traceSeq. cbn. lia.
  - unfold sleeps. rewrite omap_app. cbn. rewrite app_nil_r. apply sleeps_traceSeq.
Qed.

(** A task in progress whose third retrieval fails, polled with the default
    options. *)
Lemma poll_aborts_on_thrown_retrieval_witness :
  exists tr,
    (forall fuel, (2 < fuel)%nat ->
       waitForResearchCompletion
         (remoteOf "resp_1" flakyTask (fun _ => 250%Q) (fun _ => 0%Q)) "resp_1"
         defaultPollOptions fuel
       = Some ({| r_id := "resp_1"; r_status := RS_failed; r_output := None;
                  r_error := Some "fetch failed" |}, tr))
    /\ checks tr = 3%nat
    /\ sleeps tr = map (delaySeq defaultPollOptions) (seq 0 2).
Proof.
  apply (poll_aborts_on_thrown_retrieval "resp_1" flakyTask (fun _ => 250%Q)
           (fun _ => 0%Q) defaultPollOptions 2 "fetch failed").
  - intros k. discriminate.
  - intros k. discriminate.
  - intros j Hj. destruct j as [| [| j]]; [reflexivity | reflexivity | lia].
  - reflexivity.
  - vm_compute. reflexivity.
Defined.
(** ** The stages of the pipeline *)

(** [updateProgress] never throws, whether the job has a row or not, and
    writes no business and no score. *)
Lemma updateProgress_returns (jobId : string) (rp : Reporter) (u : ProgressUpdate)
  (w : World) :
  exists w',
    updateProgress jobId rp u w
    = (inr {| current := assign (current rp) u;
              reported := (reported rp ++ [assign (current rp) u])%list |}, w')
    /\ businesses w' = businesses w /\ scores w' = scores w.
Proof.
  destruct (jobs w !! jobId) as [job |] eqn:Hjob.
  - eexists. split; [apply (updateProgress_present _ _ _ _ _ Hjob) |].
    split; reflexivity.
  - exists w. unfold updateProgress, updateJobProgress, bind, try_catch.
    rewrite (updateJob_absent _ _ _ Hjob). repeat split; reflexivity.
Qed.

(** The AI validation of a record that does not throw. *)
Lemma checkValidation_passes (ai : Research) (e : ExtractedBusinessData) (w : World) :
  (geb (e_confidence e) 0.7 = true ->
   exists v, validateBusinessData ai e = inr v
             /\ (isValid v = true \/ is_Some (issues v))) ->
  exists w',
    checkValidation ai e w = (inr None, w')
    /\ businesses w' = businesses w /\ scores w' = scores w.
Proof.
  intros Hpass. unfold checkValidation.
  destruct (geb (e_confidence e) 0.7); [| exists w; repeat split; reflexivity].
  destruct (Hpass eq_refl) as (v & -> & Hv).
  destruct (isValid v); [exists w; repeat split; reflexivity |].
  destruct Hv as [Hv | [found Hfound]]; [discriminate Hv |]. rewrite Hfound.
  unfold bind. destruct (0 <? length found)%nat; eexists; repeat split; reflexivity.
Qed.

(** The AI validation of a record that throws: the call rejects, or the
    answer is not valid and has no issues. *)
Lemma checkValidation_throws (ai : Research) (e : ExtractedBusinessData) (w : World)
  (msg : string) :
  geb (e_confidence e) 0.7 = true ->
  validateBusinessData ai e = inl msg
  \/ (exists v, validateBusinessData ai e = inr v /\ isValid v = false
                /\ issues v = None /\ msg = issuesUndefined) ->
  checkValidation ai e w = (inr (Some msg), w).
Proof.
  intros Hconf Hthrows. unfold checkValidation. rewrite Hconf.
  destruct Hthrows as [-> | (v & -> & -> & -> & ->)]; reflexivity.
Qed.

(** The loop over records whose validation does not throw. *)
Lemma validateLoop_passes (ai : Research) (jobId : string) (n i : nat)
  (passing todo acc : list ExtractedBusinessData) (rp : Reporter) (w : World) :
  (forall e, In e passing -> hasRequiredFields e = true ->
     geb (e_confidence e) 0.7 = true ->
     exists v, validateBusinessData ai e = inr v
               /\ (isValid v = true \/ is_Some (issues v))) ->
  exists rp' w',
    validateLoop ai jobId n i (passing ++ todo) acc rp w
    = validateLoop ai jobId n (i + length passing) todo
        (acc ++ List.filter hasRequiredFields passing) rp' w'
    /\ businesses w' = businesses w /\ scores w' = scores w.
Proof.
  revert i acc rp w. induction passing as [| e rest IH]; intros i acc rp w Hpass.
  - exists rp, w. cbn [app length List.filter]. rewrite Nat.add_0_r, app_nil_r.
    repeat split; reflexivity.
  - cbn [app validateLoop List.filter length]. unfold hasRequiredFields at 1.
    destruct (_ || _ || _) eqn:Hfields; cbn [negb].
    + destruct (IH (S i) acc rp w) as (rp' & w' & Hrun & Hb & Hs);
        [intros e' Hin; apply Hpass; right; exact Hin |].
      exists rp', w'. rewrite Hrun. replace (i + S (length rest))%nat
        with (S i + length rest)%nat by lia.
      repeat split; assumption.
    + destruct (checkValidation_passes ai e w) as (w1 & Hcheck & Hb1 & Hs1).
      { apply Hpass; [left; reflexivity |]. unfold hasRequiredFields.
        rewrite Hfields. reflexivity. }
      unfold bind at 1. rewrite Hcheck.
      match goal with
      | |- context [updateProgress jobId rp ?u] =>
          destruct (updateProgress_returns jobId rp u w1) as (w2 & Hup & Hb2 & Hs2)
      end.
      unfold bind at 1. rewrite Hup.
      match goal with
      | |- context [validateLoop ai jobId n (S i) (rest ++ todo) ?acc1 ?rp1 w2] =>
          destruct (IH (S i) acc1 rp1 w2) as (rp' & w' & Hrun & Hb & Hs);
            [intros e' Hin; apply Hpass; right; exact Hin |]
      end.
      exists rp', w'. rewrite Hrun, <- app_assoc. cbn [app].
      replace (i + S (length rest))%nat with (S i + length rest)%nat by lia.
      split; [reflexivity |]. split; congruence.
Qed.

(** X12. As long as no AI validation throws, validation lets through exactly
    the extracted records that have a name, a city and a county, in their
    order: a record with a confidence below 0.7 is not sent to the validator,
    and a record the validator finds not valid is kept, its issues only
    printed. The validation of a record that has the three fields and a
    confidence of 0.7 at least throws when the call rejects, or when the
    answer is not valid and carries no issues; the first record for which it
    does ends validation with that error. Validation writes no business and
    no score. *)
Theorem validateBusinesses_keeps_complete_records (ai : Research) (jobId : string)
  (extracted : list ExtractedBusinessData) (rp : Reporter) (w : World) :
  (forall e, In e extracted -> hasRequiredFields e = true ->
     geb (e_confidence e) 0.7 = true ->
     exists v, validateBusinessData ai e = inr v
               /\ (isValid v = true \/ is_Some (issues v))) ->
  (exists rp' w',
     validateBusinesses ai jobId extracted rp w
     = (inr (inr (List.filter hasRequiredFields extracted), rp'), w')
     /\ businesses w' = businesses w /\ scores w' = scores w)
  /\ (forall e rest msg,
        hasRequiredFields e = true ->
        geb (e_confidence e) 0.7 = true ->
        validateBusinessData ai e = inl msg
        \/ (exists v, validateBusinessData ai e = inr v /\ isValid v = false
                      /\ issues v = None /\ msg = issuesUndefined) ->
        exists rp' w',
          validateBusinesses ai jobId (extracted ++ e :: rest) rp w
          = (inr (inl msg, rp'), w')
          /\ businesses w' = businesses w /\ scores w' = scores w).
Proof.
  intros Hpass. split.
  - destruct (validateLoop_passes ai jobId (length extracted) 0 extracted [] [] rp w Hpass)
      as (rp' & w' & Hrun & Hb & Hs).
    exists rp', w'. unfold validateBusinesses.
    rewrite <- (app_nil_r extracted) at 2. rewrite Hrun. cbn [validateLoop app].
    repeat split; assumption.
  - intros e rest msg Hfields Hconf Hthrows.
    destruct (validateLoop_passes ai jobId (length (extracted ++ e :: rest)) 0 extracted
                (e :: rest) [] rp w Hpass) as (rp' & w' & Hrun & Hb & Hs).
    exists rp', w'. unfold validateBusinesses. rewrite Hrun. cbn [validateLoop].
    unfold hasRequiredFields in Hfields. apply negb_true_iff in Hfields. rewrite Hfields.
    unfold bind. rewrite (checkValidation_throws ai e w' msg Hconf Hthrows).
    repeat split; assumption.
Qed.

(** The record of the examples, which the validator of the examples finds
    valid, and whatever records follow it. *)
Lemma validateBusinesses_keeps_complete_records_witness :
  (exists rp' w',
     validateBusinesses exampleResearch "job_1" [acmeExtracted]
       {| current := initialProgress; reported := [] |} emptyWorld
     = (inr (inr [acmeExtracted], rp'), w')
     /\ businesses w' = businesses emptyWorld /\ scores w' = scores emptyWorld)
  /\ (forall e rest msg,
        hasRequiredFields e = true ->
        geb (e_confidence e) 0.7 = true ->
        validateBusinessData exampleResearch e = inl msg
        \/ (exists v, validateBusinessData exampleResearch e = inr v /\ isValid v = false
                      /\ issues v = None /\ msg = issuesUndefined) ->
        exists rp' w',
          validateBusinesses exampleResearch "job_1" ([acmeExtracted] ++ e :: rest)
            {| current := initialProgress; reported := [] |} emptyWorld
          = (inr (inl msg, rp'), w')
          /\ businesses w' = businesses emptyWorld /\ scores w' = scores emptyWorld).
Proof.
  apply (validateBusinesses_keeps_complete_records exampleResearch "job_1" [acmeExtracted]
           {| current := initialProgress; reported := [] |} emptyWorld).
  intros e Hin _ _. eexists. split; [reflexivity |]. left. reflexivity.
Defined.

(** A validator that answers with an object that has no field [issues], as
    it is free to: the run fails with the [TypeError] of the test, after the
    extraction, and stores nothing. *)
Example pipeline_fails_on_answer_without_issues :
  let ai := {| startResult := startResult exampleResearch;
               finalResult := finalResult exampleResearch;
               extractBusinessData := extractBusinessData exampleResearch;
               validateBusinessData :=
                 fun _ => inr {| isValid := false; issues := None |} |} in
  exists result reported after,
    runRegionDiscoveryPipeline ai "job_1" travisCounty emptyWorld
    = (inr (result, reported), after)
    /\ success result = false
    /\ businessIds result = []
    /\ discovered (stats result) = 1
    /\ map stage reported
       = [DISCOVERY; DISCOVERY; EXTRACTION; EXTRACTION; VALIDATION; ERROR]
    /\ last (map errors reported) = Some [issuesUndefined]
    /\ job_status <$> jobs after !! "job_1" = Some JOB_FAILED
    /\ businesses after = ∅.
Proof.
  eexists _, _, _. split; [vm_compute; reflexivity |].
  repeat split; vm_compute; reflexivity.
Qed.
Lemma DiscoveryFailure_message (ai : Research) (params : ResearchJobParameters)
  (msg : string) :
  DiscoveryFailure ai params msg -> String.eqb msg "" = false.
Proof.
  intros [Hc | Hc Hs | Hc Hs Hf]; [reflexivity | |].
  - destruct (r_error (startResult ai)) as [s |]; [| reflexivity].
    cbn. destruct (String.eqb s "") eqn:E; [reflexivity | exact E].
  - destruct (r_error (finalResult ai)) as [s |]; [| reflexivity].
    cbn. destruct (String.eqb s "") eqn:E; [reflexivity | exact E].
Qed.

(** The run, when the discovery stage does not succeed. *)
Lemma runRegionDiscoveryPipeline_discovery_fails (ai : Research) (jobId : string)
  (params : ResearchJobParameters) (w : World) (job : ResearchJob) (msg : string) :
  jobs w !! jobId = Some job ->
  DiscoveryFailure ai params msg ->
  exists reported after job',
    runRegionDiscoveryPipeline ai jobId params w
    = (inr ({| success := false; jobId := jobId; businessIds := [];
               stats := {| discovered := 0; validated := 0; stored := 0; scored := 0;
                           st_errors := 1 |} |}, reported), after)
    /\ map stage reported = [DISCOVERY; ERROR]
    /\ map errors reported = [[]; [msg]]
    /\ jobs after !! jobId = Some job'
    /\ job_status job' = JOB_FAILED
    /\ job_error job' = Some msg
    /\ (truthy_str (region params ≫= rg_county) = false ->
        job_openaiResponseId job' = job_openaiResponseId job)
    /\ (truthy_str (region params ≫= rg_county) = true ->
        r_status (startResult ai) <> RS_failed ->
        job_openaiResponseId job' = Some (r_id (startResult ai)))
    /\ businesses after = businesses w
    /\ jobLinks after = jobLinks w.
Proof.
  intros Hjob Hfail.
  pose proof (DiscoveryFailure_message ai params msg Hfail) as Hmsg.
  unfold runRegionDiscoveryPipeline.
  unfold bind at 1. rewrite (updateProgress_present _ _ _ _ _ Hjob).
  match goal with
  | |- context [bind (attempt _) _ ?w1] =>
      set (w1' := w1);
      assert (exists job1, jobs w1' !! jobId = Some job1
                           /\ job_openaiResponseId job1 = job_openaiResponseId job
                           /\ businesses w1' = businesses w
                           /\ jobLinks w1' = jobLinks w)
        as (job1 & Hjob1 & Hid1 & Hb1 & Hl1)
  end.
  { subst w1'. cbn [jobs set_jobs businesses jobLinks]. rewrite lookup_alter_eq, Hjob.
    eexists. split; [reflexivity |]. repeat split; reflexivity. }
  clearbody w1'.
  unfold bind at 1, attempt, runDiscoveryStage.
  destruct Hfail as [Hc | Hc Hs | Hc Hs Hf]; rewrite Hc; cbn [negb ret].
  - match goal with
    | |- context [pipelineFailed ?j ?rp ?b ?st ?ids ?m] =>
        destruct (pipelineFailed_spec j rp b st ids m w1' job1 Hjob1)
          as (after & job' & Hrun & Hjob' & Hst & Herr & Hid & Hb & Hl)
    end.
    rewrite Hrun. eexists _, after, job'. split; [reflexivity |].
    split; [reflexivity |]. split; [reflexivity |]. split; [exact Hjob' |].
    split; [exact Hst |]. split; [apply Herr; reflexivity |].
    split; [intros _; congruence |]. split; [intros Hn; discriminate Hn |].
    split; congruence.
  - rewrite Hs. cbn [negb ret].
    match goal with
    | |- context [pipelineFailed ?j ?rp ?b ?st ?ids ?m] =>
        destruct (pipelineFailed_spec j rp b st ids m w1' job1 Hjob1)
          as (after & job' & Hrun & Hjob' & Hst & Herr & Hid & Hb & Hl)
    end.
    rewrite Hrun. eexists _, after, job'. split; [reflexivity |].
    split; [reflexivity |]. split; [reflexivity |]. split; [exact Hjob' |].
    split; [exact Hst |]. split; [apply Herr; exact Hmsg |].
    split; [intros Hn; congruence |]. split; [intros _ Hn; congruence |].
    split; congruence.
  - set (m := if truthy_str (r_error (finalResult ai))
              then default "" (r_error (finalResult ai))
              else "Research did not complete") in *.
    assert (truthy_str (Some m) = true) as Ht by (cbn; rewrite Hmsg; reflexivity).
    destruct (r_status (startResult ai)) eqn:Es; try congruence;
      destruct (r_status (finalResult ai)) eqn:Ef; try congruence;
      unfold bind at 1; rewrite (updateJob_present _ _ _ _ Hjob1); unfold ret;
      rewrite Ht; cbn [negb default];
      match goal with
      | |- context [pipelineFailed ?j ?rp ?b ?st ?ids ?m ?w0] =>
          assert (exists job2, jobs w0 !! jobId = Some job2
                               /\ job_openaiResponseId job2 = Some (r_id (startResult ai)))
            as (job2 & Hjob2 & Hid2)
            by (cbn [jobs set_jobs]; rewrite lookup_alter_eq, Hjob1; eexists;
                split; reflexivity);
          destruct (pipelineFailed_spec j rp b st ids m w0 job2 Hjob2)
            as (after & job' & Hrun & Hjob' & Hst & Herr & Hid & Hb & Hl)
      end;
      rewrite Hrun; eexists _, after, job'; (split; [reflexivity |]);
      (split; [reflexivity |]); (split; [reflexivity |]); (split; [exact Hjob' |]);
      (split; [exact Hst |]); (split; [apply Herr; exact Hmsg |]);
      (split; [intros Hn; congruence |]);
      (split; [intros _ _; congruence |]);
      cbn [set_jobs businesses jobLinks] in Hb, Hl; split; congruence.
Qed.

(** X13. A run whose discovery stage does not succeed (no county in the
    parameters, a research task that could not be started, or one that did
    not complete) fails without throwing: the result has no success, no
    business and one error, the stages reported are DISCOVERY and ERROR, the
    job row is FAILED with the message of the error, and no business is
    stored. Without a county no research task is started; the id of a task
    that was started is recorded in the row. *)
Theorem pipeline_discovery_failure (ai : Research) (jobId : string)
  (params : ResearchJobParameters) (w : World) (job : ResearchJob) (msg : string) :
  jobs w !! jobId = Some job ->
  DiscoveryFailure ai params msg ->
  exists reported after job',
    runRegionDiscoveryPipeline ai jobId params w
    = (inr ({| success := false; jobId := jobId; businessIds := [];
               stats := {| discovered := 0; validated := 0; stored := 0; scored := 0;
                           st_errors := 1 |} |}, reported), after)
    /\ map stage reported = [DISCOVERY; ERROR]
    /\ map errors reported = [[]; [msg]]
    /\ jobs after !! jobId = Some job'
    /\ job_status job' = JOB_FAILED
    /\ job_error job' = Some msg
    /\ (truthy_str (region params ≫= rg_county) = false ->
        job_openaiResponseId job' = job_openaiResponseId job)
    /\ (truthy_str (region params ≫= rg_county) = true ->
        r_status (startResult ai) <> RS_failed ->
        job_openaiResponseId job' = Some (r_id (startResult ai)))
    /\ businesses after = businesses w
    /\ jobLinks after = jobLinks w.
Proof.
  intros Hjob Hfail.
  destruct (runRegionDiscoveryPipeline_discovery_fails ai jobId params w job msg Hjob Hfail)
    as (reported & after & job' & H).
  exists reported, after, job'. exact H.
Qed.

(** A run without a region, on the store with one job. *)
Lemma pipeline_discovery_failure_witness :
  exists reported after job',
    runRegionDiscoveryPipeline exampleResearch "job_1" noRegion emptyWorld
    = (inr ({| success := false; jobId := "job_1"; businessIds := [];
               stats := {| discovered := 0; validated := 0; stored := 0; scored := 0;
                           st_errors := 1 |} |}, reported), after)
    /\ map stage reported = [DISCOVERY; ERROR]
    /\ map errors reported = [[]; ["County is required for region discovery"]]
    /\ jobs after !! "job_1" = Some job'
    /\ job_status job' = JOB_FAILED
    /\ job_error job' = Some "County is required for region discovery"
    /\ (truthy_str (region noRegion ≫= rg_county) = false ->
        job_openaiResponseId job' = None)
    /\ (truthy_str (region noRegion ≫= rg_county) = true ->
        r_status (startResult exampleResearch) <> RS_failed ->
        job_openaiResponseId job' = Some (r_id (startResult exampleResearch)))
    /\ businesses after = businesses emptyWorld
    /\ jobLinks after = jobLinks emptyWorld.
Proof.
  apply (pipeline_discovery_failure exampleResearch "job_1" noRegion emptyWorld
           {| job_status := JOB_RUNNING; job_progress := 0;
              job_businessesFound := 0; job_businessesQualified := 0;
              job_error := None; job_openaiResponseId := None |}
           "County is required for region discovery").
  - reflexivity.
  - apply NoCounty. reflexivity.
Defined.

(** ** The row of the job *)

(** X14. When the store has the row of the job, a run of the pipeline
    leaves it in agreement with what it returns, whatever the row was before
    (a job that was cancelled meanwhile included): after a successful run
    the row is COMPLETED and carries the numbers of businesses discovered and
    stored; after a failed run the row is FAILED and carries the message of
    the error, the result has no business and counts one error. *)
Theorem pipeline_job_row_agrees (ai : Research) (jobId : string)
  (params : ResearchJobParameters) (w : World) :
  jobPresent jobId w ->
  exists result reported after,
    runRegionDiscoveryPipeline ai jobId params w = (inr (result, reported), after)
    /\ jobRowAgrees jobId (result, reported) after.
Proof.
  intros Hw.
  destruct (agrees_runRegionDiscoveryPipeline jobId ai params w Hw)
    as ([result reported] & after & Hrun & Hagree & _).
  exists result, reported, after. split; assumption.
Qed.

(** The run of the examples, on a store whose job has been cancelled. *)
Lemma pipeline_job_row_agrees_witness :
  exists result reported after,
    runRegionDiscoveryPipeline exampleResearch "job_1" travisCounty cancelledWorld
    = (inr (result, reported), after)
    /\ jobRowAgrees "job_1" (result, reported) after.
Proof.
  apply (pipeline_job_row_agrees exampleResearch "job_1" travisCounty cancelledWorld).
  eexists. reflexivity.
Defined.

(** ** Storing a business twice *)

Lemma find_unique {A} (p : A -> bool) (l : list A) (x : A) :
  In x l -> p x = true -> (forall y, In y l -> p y = true -> y = x) ->
  List.find p l = Some x.
Proof.
  intros Hin Hp Huniq. destruct (List.find p l) as [y |] eqn:E.
  - apply find_some in E as [Hy Hpy]. f_equal. apply Huniq; assumption.
  - pose proof (find_none _ _ E x Hin). congruence.
Qed.

(** [findFirst] finds the only row that has the name, the city and the
    county of the record. *)
Lemma findFirst_unique (e : ExtractedBusinessData) (w : World) (id : string)
  (row : Business) :
  businesses w !! id = Some row ->
  name row = e_name e -> city row = e_city e -> county row = e_county e ->
  (forall k v, businesses w !! k = Some v -> k <> id ->
     String.eqb (name v) (e_name e) && String.eqb (city v) (e_city e)
     && String.eqb (county v) (e_county e) = false) ->
  findFirst e w = Some (id, row).
Proof.
  intros Hrow Hn Hc Hco Hothers. unfold findFirst. apply find_unique.
  - apply list_elem_of_In, elem_of_map_to_list. exact Hrow.
  - cbn [snd]. rewrite Hn, Hc, Hco, !String.eqb_refl. reflexivity.
  - intros [k v] Hin Hp. apply list_elem_of_In, elem_of_map_to_list in Hin.
    destruct (string_dec k id) as [-> | Hne].
    + rewrite Hrow in Hin. congruence.
    + cbn [snd] in Hp. rewrite (Hothers k v Hin Hne) in Hp. discriminate.
Qed.

Lemma findFirst_None (e : ExtractedBusinessData) (w : World) (k : string) (v : Business) :
  findFirst e w = None -> businesses w !! k = Some v ->
  String.eqb (name v) (e_name e) && String.eqb (city v) (e_city e)
  && String.eqb (county v) (e_county e) = false.
Proof.
  unfold findFirst. intros Hnone Hkv.
  apply (find_none _ _ Hnone (k, v)).
  apply list_elem_of_In, elem_of_map_to_list. exact Hkv.
Qed.

(** Different numbers give different keys. *)
Lemma businessKey_inj (a b : nat) : businessKey a = businessKey b -> a = b.
Proof.
  unfold businessKey. cbn [String.app]. intros H.
  injection H as H. exact (pretty_nat_inj a b H).
Qed.

(** [firstFree] stops at a key that is free, or has found [fuel] keys in a
    row taken. *)
Lemma firstFree_spec (table : gmap string Business) (n fuel : nat) :
  (forall j, (n <= j < firstFree table n fuel)%nat -> is_Some (table !! businessKey j))
  /\ (table !! businessKey (firstFree table n fuel) = None
      \/ firstFree table n fuel = (n + fuel)%nat).
Proof.
  revert n. induction fuel as [| fuel IH]; intros n; cbn [firstFree].
  - split; [intros j Hj; lia | right; lia].
  - destruct (bool_decide (is_Some (table !! businessKey n))) eqn:Htaken.
    + apply bool_decide_eq_true in Htaken. destruct (IH (S n)) as [Hbelow Hend]. split.
      * intros j Hj. destruct (Nat.eq_dec j n) as [-> | Hne]; [exact Htaken |].
        apply Hbelow. lia.
      * destruct Hend as [Hfree | ->]; [left; exact Hfree | right; lia].
    + apply bool_decide_eq_false in Htaken. split; [intros j Hj; lia |].
      left. destruct (table !! businessKey n) eqn:E; [| reflexivity].
      exfalso. apply Htaken. eauto.
Qed.

(** A table cannot hold more keys than it has rows. *)
Lemma taken_keys_bound (table : gmap string Business) (n count : nat) :
  (forall j, (n <= j < n + count)%nat -> is_Some (table !! businessKey j)) ->
  (count <= size table)%nat.
Proof.
  intros Htaken.
  set (keys := map businessKey (seq n count)).
  assert (NoDup keys) as Hnodup.
  { apply NoDup_fmap_2; [intros a b; apply businessKey_inj | apply NoDup_seq]. }
  assert (list_to_set keys ⊆ dom table) as Hsub.
  { intros k Hk. apply elem_of_list_to_set in Hk.
    apply list_elem_of_fmap in Hk as (j & -> & Hj). apply elem_of_seq in Hj.
    apply elem_of_dom, Htaken. lia. }
  apply subseteq_size in Hsub.
  rewrite size_list_to_set, size_dom in Hsub by exact Hnodup.
  unfold keys in Hsub. rewrite length_map, length_seq in Hsub. exact Hsub.
Qed.

(** The key a new business is created under is free. *)
Lemma newBusinessNumber_free (w : World) :
  businesses w !! businessKey (newBusinessNumber w) = None.
Proof.
  unfold newBusinessNumber.
  destruct (firstFree_spec (businesses w) (nextId w) (size (businesses w)))
    as [Hbelow [Hfree | Hend]]; [exact Hfree |].
  destruct (businesses w !! businessKey _) eqn:E; [| reflexivity]. exfalso.
  assert (S (size (businesses w)) <= size (businesses w))%nat; [| lia].
  apply (taken_keys_bound (businesses w) (nextId w)).
  intros j Hj.
  destruct (Nat.eq_dec j (nextId w + size (businesses w))%nat) as [-> | Hne].
  - rewrite <- Hend, E. eauto.
  - apply Hbelow. rewrite Hend. lia.
Qed.

(** X15. A record that is stored twice in one run is stored once: when the
    store has no business with the name, the city and the county of the
    record, the first pass creates the business under a key that no business
    of the store has, and the second finds it, so both passes give the same
    identifier and one row is added; every other row is as before. The
    employee estimate of the record is recorded by each pass, so the row
    carries it twice. *)
Theorem storeBusinesses_same_record_twice (jobId : string) (e : ExtractedBusinessData)
  (w : World) :
  findFirst e w = None ->
  exists id after row,
    storeBusinesses jobId [e; e] w = (inr [id; id], after)
    /\ businesses w !! id = None
    /\ businesses after = <[id := row]> (businesses w)
    /\ size (businesses after) = S (size (businesses w))
    /\ name row = e_name e /\ city row = e_city e /\ county row = e_county e
    /\ employees row
       = Some (if truthy_num (e_employeeEstimate e)
               then [ {| estimatedCount := or0 (e_employeeEstimate e) |};
                      {| estimatedCount := or0 (e_employeeEstimate e) |} ]
               else []).
Proof.
  intros Hnone.
  pose proof (newBusinessNumber_free w) as Hfree.
  set (id := businessKey (newBusinessNumber w)) in *.
  exists id.
  unfold storeBusinesses. cbn [storeLoop].
  unfold bind at 1, try_catch at 1, bind at 1, storeOne at 1, bind at 1, gets at 1.
  rewrite Hnone.
  unfold bind at 1, bind at 1, gets at 1, bind at 1, modify at 1, bind at 1, modify at 1,
    ret at 1, bind at 1, modify at 1.
  fold id.
  set (row1 := if truthy_num (e_employeeEstimate e)
               then addEmployeeEstimate (or0 (e_employeeEstimate e)) (createBusiness id e)
               else createBusiness id e).
  match goal with
  | |- context [bind (if truthy_num _ then _ else _) _ ?w0] =>
      set (w1 := w0);
      assert (exists w2, (bind (if truthy_num (e_employeeEstimate e)
                                then modify (set_businesses
                                       (alter (addEmployeeEstimate
                                                 (or0 (e_employeeEstimate e))) id))
                                else ret tt) (fun _ => ret id)) w1 = (inr id, w2)
                         /\ businesses w2 = <[id := row1]> (businesses w))
        as (w2 & -> & Hb2)
  end.
  { subst w1 row1. destruct (truthy_num (e_employeeEstimate e)).
    - eexists. split; [reflexivity |].
      cbn [set_businesses add_link set_nextId businesses].
      rewrite alter_insert_eq. reflexivity.
    - eexists. split; [reflexivity |]. reflexivity. }
  cbn [ret app].
  assert (name row1 = e_name e /\ city row1 = e_city e /\ county row1 = e_county e
          /\ employees row1
             = Some (if truthy_num (e_employeeEstimate e)
                     then [ {| estimatedCount := or0 (e_employeeEstimate e) |} ]
                     else [])) as (Hn1 & Hc1 & Hco1 & He1).
  { subst row1. destruct (truthy_num (e_employeeEstimate e)); repeat split; reflexivity. }
  assert (findFirst e w2 = Some (id, row1)) as Hfound.
  { apply findFirst_unique; try assumption.
    - rewrite Hb2. apply lookup_insert_eq.
    - intros k v Hkv Hne. rewrite Hb2, lookup_insert_ne in Hkv by congruence.
      apply (findFirst_None e w k v Hnone Hkv). }
  unfold bind at 1, try_catch at 1, bind at 1, storeOne at 1, bind at 1, gets at 1.
  rewrite Hfound.
  unfold bind at 1, bind at 1, modify at 1, ret at 1, bind at 1, modify at 1.
  destruct (truthy_num (e_employeeEstimate e)) eqn:Ht.
  - eexists _, _. split; [reflexivity |].
    cbn [set_businesses add_link businesses]. rewrite Hb2.
    split; [exact Hfree |].
    split; [rewrite alter_insert_eq, insert_insert_eq; reflexivity |].
    split; [rewrite alter_insert_eq, insert_insert_eq;
            apply map_size_insert_None, Hfree |].
    cbn [addEmployeeEstimate updateExisting name city county employees].
    rewrite He1. cbn [default app].
    repeat split; assumption.
  - eexists _, _. split; [reflexivity |].
    cbn [set_businesses add_link businesses]. rewrite Hb2.
    split; [exact Hfree |].
    split; [rewrite insert_insert_eq; reflexivity |].
    split; [rewrite insert_insert_eq; apply map_size_insert_None, Hfree |].
    cbn [updateExisting name city county employees].
    repeat split; assumption.
Qed.

(** The record of the examples, stored twice in the store of the examples,
    where the counter of the store stands at 8 and no key is taken from
    there on. *)
Lemma storeBusinesses_same_record_twice_witness :
  exists id after row,
    storeBusinesses "job_1" [establishedExtracted; establishedExtracted] exampleWorld
    = (inr [id; id], after)
    /\ businesses exampleWorld !! id = None
    /\ businesses after = <[id := row]> (businesses exampleWorld)
    /\ size (businesses after) = S (size (businesses exampleWorld))
    /\ name row = "Lone Star Cooling" /\ city row = "Houston" /\ county row = "Harris"
    /\ employees row = Some [ {| estimatedCount := 25 |}; {| estimatedCount := 25 |} ].
Proof.
  apply (storeBusinesses_same_record_twice "job_1" establishedExtracted exampleWorld).
  vm_compute. reflexivity.
Defined.

(** A store whose counter stands at a key that is taken: the business is
    created under the next key that is free, and the row that has the key of
    the counter is as it was. *)
Example storeBusinesses_skips_taken_key :
  let w := {| businesses := <["biz_0" := blankBusiness]> ∅; scores := ∅; jobs := ∅;
              jobLinks := []; nextId := 0; console := [] |} in
  exists after,
    storeBusinesses "job_1" [establishedExtracted] w = (inr ["biz_1"], after)
    /\ businesses after !! "biz_0" = Some blankBusiness
    /\ name <$> businesses after !! "biz_1" = Some "Lone Star Cooling".
Proof.
  eexists. split; [vm_compute; reflexivity |].
  split; vm_compute; reflexivity.
Qed.
(** ** Cancelling a job *)

(** X16. Cancelling a job that the store does not have throws 'Job not
    found' and changes nothing. Cancelling a job that it has marks the row
    CANCELLED whether or not the research task could be cancelled (a failure
    of that call is printed and swallowed); the other fields of the row, the
    other jobs, the businesses and the scores are as before. *)
Theorem cancelResearchJob_marks_cancelled (cancel : string -> option Thrown)
  (jobId : string) (w : World) :
  match jobs w !! jobId with
  | None => cancelResearchJob cancel jobId w = (inl "Job not found", w)
  | Some job =>
      exists after,
        cancelResearchJob cancel jobId w = (inr tt, after)
        /\ jobs after !! jobId
           = Some {| job_status := JOB_CANCELLED; job_progress := job_progress job;
                     job_businessesFound := job_businessesFound job;
                     job_businessesQualified := job_businessesQualified job;
                     job_error := job_error job;
                     job_openaiResponseId := job_openaiResponseId job |}
        /\ (forall k, k <> jobId -> jobs after !! k = jobs w !! k)
        /\ businesses after = businesses w
        /\ scores after = scores w
  end.
Proof.
  destruct (jobs w !! jobId) as [job |] eqn:Hjob;
    unfold cancelResearchJob, bind at 1, gets; rewrite Hjob; [| reflexivity].
  assert (forall w1 : World,
             jobs w1 = jobs w -> businesses w1 = businesses w -> scores w1 = scores w ->
             exists after,
               updateJobStatus jobId JOB_CANCELLED None None None w1 = (inr tt, after)
               /\ jobs after !! jobId
                  = Some {| job_status := JOB_CANCELLED; job_progress := job_progress job;
                            job_businessesFound := job_businessesFound job;
                            job_businessesQualified := job_businessesQualified job;
                            job_error := job_error job;
                            job_openaiResponseId := job_openaiResponseId job |}
               /\ (forall k, k <> jobId -> jobs after !! k = jobs w !! k)
               /\ businesses after = businesses w
               /\ scores after = scores w) as Hlast.
  { intros w1 Hj Hb Hs. eexists.
    split; [apply (updateJob_present _ _ _ job); rewrite Hj; exact Hjob |].
    cbn [set_jobs jobs businesses scores]. rewrite Hj.
    split; [rewrite lookup_alter_eq, Hjob; reflexivity |].
    split; [intros k Hk; apply lookup_alter_ne; congruence |]. split; assumption. }
  unfold bind at 1.
  destruct (truthy_str (job_openaiResponseId job)); [| apply Hlast; reflexivity].
  unfold bind at 1, cancelResearch.
  destruct (cancel _) as [error |]; [| apply Hlast; reflexivity].
  unfold bind at 1, modify, ret. apply Hlast; reflexivity.
Qed.

(** ** The permit adapter *)

(** X17. A permit type falls into one of four categories, and a category
    is its own category: categorising what has been categorised (as the
    summary does with stored permits) changes nothing. A type that names both
    commercial and residential work is commercial. *)
Theorem categorizePermitType_idempotent (type : string) :
  In (categorizePermitType type) ["commercial"; "residential"; "industrial"; "other"]
  /\ categorizePermitType (categorizePermitType type) = categorizePermitType type
  /\ (String_includes "commercial" (toLowerCase type) = true ->
      categorizePermitType type = "commercial").
Proof.
  unfold categorizePermitType at 1 3 4 5. cbv zeta.
  destruct (String_includes "commercial" (toLowerCase type)); cbn [orb].
  { split; [cbn; tauto |]. split; reflexivity. }
  destruct (String_includes "business" (toLowerCase type)); cbn [orb].
  { split; [cbn; tauto |]. split; [reflexivity | discriminate]. }
  destruct (String_includes "residential" (toLowerCase type)
            || String_includes "home" (toLowerCase type)
            || String_includes "dwelling" (toLowerCase type)).
  { split; [cbn; tauto |]. split; [reflexivity | discriminate]. }
  destruct (String_includes "industrial" (toLowerCase type)).
  { split; [cbn; tauto |]. split; [reflexivity | discriminate]. }
  split; [cbn; tauto |]. split; [reflexivity | discriminate].
Qed.

(** X18. The confidence of a revenue estimate is 0.5 at least and stays
    below 0.9: its largest value is 0.5 + 0.2 + 0.1 + 0.1 in binary64, which
    is 0.8999999999999999, so the cap at 0.9 never applies. *)
Theorem estimateRevenueFromPermits_confidence (summary : PermitSummary) :
  geb (confidence (estimateRevenueFromPermits summary)) 0.5 = true
  /\ gtb 0.9 (confidence (estimateRevenueFromPermits summary)) = true
  /\ In (confidence (estimateRevenueFromPermits summary))
       [0.5; 0.6; 0.7; 0.7999999999999999; 0.8999999999999999]%float
  /\ confidence (estimateRevenueFromPermits busySummary) = 0.8999999999999999%float.
Proof.
  unfold estimateRevenueFromPermits. cbv zeta. cbn [confidence].
  destruct (50 <=? totalPermits summary), (truthy_float (averageValue summary)),
    (2 <=? size (byYear summary))%nat;
    (split; [vm_compute; reflexivity |]); (split; [vm_compute; reflexivity |]);
    (split; [| vm_compute; reflexivity]); vm_compute; tauto.
Qed.

(** ** The review adapter *)

Lemma volumeScore_values (t : Z) : In (volumeScore t) [20; 40; 60; 80; 100].
Proof. unfold volumeScore. zcase; cbn [In]; tauto. Qed.

Lemma platformScore_values (n : Z) : In (platformScore n) [20; 40; 60; 80; 100].
Proof. unfold platformScore. zcase; cbn [In]; tauto. Qed.

Lemma googleScore_values (g : option ReviewData) : In (googleScore g) [20; 40; 60; 80; 100].
Proof. unfold googleScore. destruct g; [zcase |]; cbn [In]; tauto. Qed.

Lemma ratingScore_values (r : float) : In (ratingScore r) [30; 40; 50; 60].
Proof.
  unfold ratingScore.
  destruct (geb r 4.5), (geb r 4.0), (geb r 3.5), (geb r 3.0), (gtb r 0); cbn [In]; tauto.
Qed.

Lemma reviewWeakness_score_eq (h : Host) (reviews : AggregatedReviews) :
  fst (calculateReviewWeaknessScore h reviews)
  = weaknessScoreOf (volumeScore (ar_totalReviews reviews))
      (platformScore (platformsPresent reviews))
      (googleScore (googleReviews reviews))
      (ratingScore (ar_overallRating reviews)).
Proof. reflexivity. Qed.

(** The 5 * 5 * 5 * 4 weakness scores. *)
Lemma weaknessScore_table :
  forallb (fun v => forallb (fun p => forallb (fun g => forallb (fun r =>
    inb (weaknessScoreOf v p g r) (map Z2F (seqZ 22 73)))
    [30; 40; 50; 60]) [20; 40; 60; 80; 100]) [20; 40; 60; 80; 100]) [20; 40; 60; 80; 100]
  = true.
Proof. vm_compute. reflexivity. Qed.

(** X19. The review weakness score is an integer from 22 to 94, whatever
    the aggregated reviews are. *)
Theorem calculateReviewWeaknessScore_range (h : Host) (reviews : AggregatedReviews) :
  isIntegerIn 22 94 (fst (calculateReviewWeaknessScore h reviews))
  /\ length (snd (calculateReviewWeaknessScore h reviews)) = 4%nat.
Proof.
  split; [| reflexivity].
  rewrite reviewWeakness_score_eq.
  pose proof weaknessScore_table as H.
  rewrite forallb_forall in H.
  specialize (H _ (volumeScore_values (ar_totalReviews reviews))).
  rewrite forallb_forall in H.
  specialize (H _ (platformScore_values (platformsPresent reviews))).
  rewrite forallb_forall in H.
  specialize (H _ (googleScore_values (googleReviews reviews))).
  rewrite forallb_forall in H.
  specialize (H _ (ratingScore_values (ar_overallRating reviews))).
  apply inb_In, in_map_iff in H as (n & <- & Hn).
  apply list_elem_of_In, elem_of_seqZ in Hn. exists n. split; [lia | reflexivity].
Qed.

(** ** The CSV export *)

Lemma doubleQuotes_inj (s1 s2 : string) : doubleQuotes s1 = doubleQuotes s2 -> s1 = s2.
Proof.
  revert s2. induction s1 as [| a1 r1 IH]; intros [| a2 r2]; cbn [doubleQuotes].
  - reflexivity.
  - destruct (Ascii.eqb a2 dquote); discriminate.
  - destruct (Ascii.eqb a1 dquote); discriminate.
  - destruct (Ascii.eqb a1 dquote) eqn:E1, (Ascii.eqb a2 dquote) eqn:E2.
    + apply Ascii.eqb_eq in E1, E2. subst. intros H. injection H as H. f_equal. apply IH, H.
    + intros H. injection H as Ha _. subst a2. rewrite Ascii.eqb_refl in E2. discriminate.
    + intros H. injection H as Ha _. subst a1. rewrite Ascii.eqb_refl in E1. discriminate.
    + intros H. injection H as -> H. f_equal. apply IH, H.
Qed.

Lemma append_inj_l (s1 s2 t : string) : s1 +:+ t = s2 +:+ t -> s1 = s2.
Proof.
  revert s2. induction s1 as [| a1 r1 IH]; intros [| a2 r2] H.
  - reflexivity.
  - apply (f_equal String.length) in H. rewrite !append_length in H. cbn in H. lia.
  - apply (f_equal String.length) in H. rewrite !append_length in H. cbn in H. lia.
  - cbn in H. injection H as -> H. f_equal. apply IH, H.
Qed.

(** X20. The CSV export keeps text fields apart: two different values
    that are not empty are escaped to different fields. *)
Theorem escapeCSV_injective (v1 v2 : string) :
  v1 <> "" -> v2 <> "" -> v1 <> v2 -> escapeCSV v1 <> escapeCSV v2.
Proof.
  intros H1 H2 Hne H. apply Hne. revert H. unfold escapeCSV.
  destruct (String.eqb_spec v1 ""); [contradiction |].
  destruct (String.eqb_spec v2 ""); [contradiction |].
  destruct (includesChar comma v1 || includesChar linefeed v1 || includesChar dquote v1)
    eqn:Q1;
    destruct (includesChar comma v2 || includesChar linefeed v2 || includesChar dquote v2)
      eqn:Q2; intros H.
  - injection H as H. apply append_inj_l in H. apply doubleQuotes_inj, H.
  - subst v2. cbn [includesChar] in Q2.
    rewrite Ascii.eqb_refl in Q2. cbn [orb] in Q2.
    rewrite !orb_true_r in Q2. discriminate.
  - subst v1. cbn [includesChar] in Q1.
    rewrite Ascii.eqb_refl in Q1. cbn [orb] in Q1.
    rewrite !orb_true_r in Q1. discriminate.
  - exact H.
Qed.

(** A value with a comma, which is quoted, and one without. *)
Lemma escapeCSV_injective_witness : escapeCSV "Austin, TX" <> escapeCSV "Austin TX".
Proof.
  apply (escapeCSV_injective "Austin, TX" "Austin TX"); discriminate.
Defined.

(** ** Truncation *)

Lemma takeString_length (n : nat) (s : string) :
  String.length (takeString n s) = Nat.min n (String.length s).
Proof.
  revert s. induction n as [| n IH]; intros [| a rest]; cbn; try reflexivity.
  rewrite IH. reflexivity.
Qed.

(** X21. [truncate] with a length that is not negative keeps a string of
    at most that many characters as it is, and cuts a longer one to that many
    characters followed by three dots: the result then has three characters
    more than the length asked for, so a string that is one or two characters
    too long comes out longer than it went in. *)
Theorem truncate_length (str : string) (length : Z) :
  0 <= length ->
  (Z.of_nat (String.length str) <= length -> truncate str length = str)
  /\ (length < Z.of_nat (String.length str) ->
      truncate str length = takeString (Z.to_nat length) str +:+ "..."
      /\ Z.of_nat (String.length (truncate str length)) = length + 3).
Proof.
  intros Hn. unfold truncate, slice0.
  destruct (Z.leb_spec (Z.of_nat (String.length str)) length) as [Hle | Hgt].
  - split; [reflexivity | lia].
  - split; [lia |]. intros _.
    destruct (Z.ltb_spec length 0) as [Hneg | _]; [lia |].
    split; [reflexivity |].
    rewrite append_length, takeString_length. cbn [String.length]. lia.
Qed.

(** A string of four characters cut to three has six. *)
Lemma truncate_length_witness :
  truncate "Acme" 3 = "Acm..." /\ Z.of_nat (String.length (truncate "Acme" 3)) = 3 + 3.
Proof.
  apply (truncate_length "Acme" 3); [lia | reflexivity].
Defined.

(** ** A founding year that is not known *)

Lemma acquisition_score_eq (h : Host) (b : Business) (config : ScoringConfig) :
  score (calculateAcquisitionFitScore h b config)
  = acquisitionScoreOf (ownershipScore (ownershipType b)) (ageScore (yearsInBusiness h b))
      (nicheScore (niches b)) (successionScore (successionStatus b) (ownerAge b)).
Proof. reflexivity. Qed.

Lemma ownershipScore_In (t : option OwnershipType) :
  In (ownershipScore t) [100; 30; 10; 20; 50].
Proof. destruct t as [[] |]; cbn; tauto. Qed.

Lemma nicheScore_In (ns : list string) : In (nicheScore ns) [50; 80; 100].
Proof.
  unfold nicheScore. destruct (0 <? length ns)%nat; [| cbn; tauto].
  destruct (existsb _ ns); cbn; tauto.
Qed.

Lemma successionScore_In (st : option SuccessionStatus) (age : option Z) :
  In (successionScore st age) [100; 90; 40; 20; 50; 85; 70].
Proof.
  unfold successionScore, successionBase.
  destruct st as [[] |], age as [a |]; cbv zeta;
    repeat match goal with
           | |- context [?x =? ?y] => destruct (x =? y)
           | |- context [?x <=? ?y] => destruct (x <=? y)
           end; cbn; tauto.
Qed.

(** The Acquisition Fit score with the age factor at 50 against the same
    with the age factor at 10, 20, 30 or 40. *)
Lemma unknown_age_table :
  forallb (fun o => forallb (fun n => forallb (fun s => forallb (fun a =>
    gtb (acquisitionScoreOf o 50 n s) (acquisitionScoreOf o a n s))
    [10; 20; 30; 40]) [100; 90; 40; 20; 50; 85; 70]) [50; 80; 100]) [100; 30; 10; 20; 50]
  = true.
Proof. vm_compute. reflexivity. Qed.

(** X22. A founding year that is not known is scored better than a recent
    one: a business founded one to four years ago gets a strictly higher
    Acquisition Fit score when its founding year is removed, since the age
    factor of an unknown age is 50 and that of one to four years is 10 to
    40. *)
Theorem unknown_age_beats_young (h : Host) (b : Business) (config : ScoringConfig) :
  0 < yearsInBusiness h b < 5 ->
  gtb (score (calculateAcquisitionFitScore h (setFoundedYear None b) config))
      (score (calculateAcquisitionFitScore h b config)) = true.
Proof.
  intros Hy. rewrite !acquisition_score_eq.
  cbn [setFoundedYear ownershipType niches successionStatus ownerAge].
  replace (yearsInBusiness h (setFoundedYear None b)) with 0 by reflexivity.
  change (ageScore 0) with 50.
  pose proof unknown_age_table as H.
  rewrite forallb_forall in H. specialize (H _ (ownershipScore_In (ownershipType b))).
  rewrite forallb_forall in H. specialize (H _ (nicheScore_In (niches b))).
  rewrite forallb_forall in H.
  specialize (H _ (successionScore_In (successionStatus b) (ownerAge b))).
  rewrite forallb_forall in H. apply H.
  assert (yearsInBusiness h b = 1 \/ yearsInBusiness h b = 2 \/ yearsInBusiness h b = 3
          \/ yearsInBusiness h b = 4) as [-> | [-> | [-> | ->]]] by lia;
    cbn; tauto.
Qed.

(** The established business, had it been founded in 2023. *)
Lemma unknown_age_beats_young_witness :
  gtb (score (calculateAcquisitionFitScore exampleHost (setFoundedYear None youngBusiness)
                DEFAULT_SCORING_CONFIG))
      (score (calculateAcquisitionFitScore exampleHost youngBusiness DEFAULT_SCORING_CONFIG))
  = true.
Proof.
  apply (unknown_age_beats_young exampleHost youngBusiness DEFAULT_SCORING_CONFIG).
  vm_compute. split; reflexivity.
Defined.

(** ** Starting a job *)

(** X23. Starting a job the store does not have throws 'Job not found'
    and changes nothing. Starting a job of a type other than
    REGION_DISCOVERY sets the row to RUNNING and then throws that the type is
    not implemented, so the row stays RUNNING. Starting a REGION_DISCOVERY
    job never throws, and the row ends COMPLETED or FAILED. *)
Theorem startResearchJob_outcomes (ai : Research) (columns : JobColumns)
  (jobId : string) (w : World) :
  match jobs w !! jobId with
  | None => startResearchJob ai columns jobId w = (inl "Job not found", w)
  | Some job =>
      match typeOf columns jobId with
      | REGION_DISCOVERY =>
          exists after job',
            startResearchJob ai columns jobId w = (inr tt, after)
            /\ jobs after !! jobId = Some job'
            /\ (job_status job' = JOB_COMPLETED \/ job_status job' = JOB_FAILED)
      | other =>
          exists after,
            startResearchJob ai columns jobId w
            = (inl ("Job type " +:+ jobType_str other +:+ " not yet implemented"), after)
            /\ jobs after !! jobId
               = Some {| job_status := JOB_RUNNING; job_progress := job_progress job;
                         job_businessesFound := job_businessesFound job;
                         job_businessesQualified := job_businessesQualified job;
                         job_error := job_error job;
                         job_openaiResponseId := job_openaiResponseId job |}
            /\ businesses after = businesses w
            /\ scores after = scores w
      end
  end.
Proof.
  destruct (jobs w !! jobId) as [job |] eqn:Hjob.
  2: { unfold startResearchJob, bind at 1, gets. rewrite Hjob. reflexivity. }
  destruct (typeOf columns jobId) eqn:Ht;
    unfold startResearchJob, bind at 1, gets; rewrite Hjob, Ht;
    unfold bind at 1, updateJobStatus at 1; rewrite (updateJob_present _ _ _ _ Hjob).
  - match goal with
    | |- context [bind (runRegionDiscoveryPipeline _ _ _) _ ?w1] =>
        destruct (agrees_runRegionDiscoveryPipeline jobId ai (parametersOf columns jobId) w1)
          as ([result reported] & after & Hrun & (job' & Hjob' & _ & Hagree) & _)
    end.
    { apply jobPresent_set_jobs. unfold jobPresent. rewrite Hjob. eauto. }
    unfold bind at 1. rewrite Hrun. exists after, job'.
    split; [reflexivity |]. split; [exact Hjob' |].
    cbn [fst] in Hagree. destruct (success result); [left | right]; apply Hagree.
  - eexists. split; [reflexivity |]. cbn [set_jobs jobs businesses scores].
    rewrite lookup_alter_eq, Hjob. repeat split; reflexivity.
  - eexists. split; [reflexivity |]. cbn [set_jobs jobs businesses scores].
    rewrite lookup_alter_eq, Hjob. repeat split; reflexivity.
  - eexists. split; [reflexivity |]. cbn [set_jobs jobs businesses scores].
    rewrite lookup_alter_eq, Hjob. repeat split; reflexivity.
Qed.

(** ** From the status of the task to the row of the job *)

(** X24. A research task that the API never reports as 'completed' or
    'failed' (one that was cancelled, say) makes the run fail with 'Research
    timed out': the poll of the discovery stage gives up after its 30
    minutes, and the run that polls so returns without success, reports
    DISCOVERY and ERROR, leaves the job row FAILED with that message and
    stores no business. *)
Theorem pipeline_fails_when_research_times_out (start : ResearchResult)
  (retrieve : nat -> Thrown + ApiResponse) (lat sl : nat -> Q)
  (extract : string -> string + list ExtractedBusinessData)
  (validate : ExtractedBusinessData -> string + ValidationAnswer)
  (jobId : string) (params : ResearchJobParameters) (w : World) (job : ResearchJob) :
  jobs w !! jobId = Some job ->
  truthy_str (region params ≫= rg_county) = true ->
  r_status start <> RS_failed ->
  (forall k, (0 <= lat k)%Q) -> (forall k, (0 <= sl k)%Q) ->
  (forall k, endsPoll (retrieve k) = false) ->
  exists fuel0 ai,
    (forall fuel, (fuel0 < fuel)%nat ->
       researchPolled start (remoteOf (r_id start) retrieve lat sl) fuel extract validate
       = Some ai)
    /\ finalResult ai = timedOut (r_id start)
    /\ exists reported after job',
         runRegionDiscoveryPipeline ai jobId params w
         = (inr ({| success := false; jobId := jobId; businessIds := [];
                    stats := {| discovered := 0; validated := 0; stored := 0;
                                scored := 0; st_errors := 1 |} |}, reported), after)
         /\ map stage reported = [DISCOVERY; ERROR]
         /\ jobs after !! jobId = Some job'
         /\ job_status job' = JOB_FAILED
         /\ job_error job' = Some "Research timed out"
         /\ job_openaiResponseId job' = Some (r_id start)
         /\ businesses after = businesses w.
Proof.
  intros Hjob Hcounty Hstart Hl Hs Hnever.
  destruct (poll_result (remoteOf (r_id start) retrieve lat sl) discoveryPollOptions
              (r_id start) Hl Hs eq_refl)
    as (k & res & tr & Hret & _ & _ & [(_ & -> & _) | (_ & Hterm & _)]).
  2: { cbn [remoteOf statusAt] in Hterm.
       rewrite isTerminal_getResearchStatus, Hnever in Hterm. discriminate. }
  set (ai := {| startResult := start; finalResult := timedOut (r_id start);
                extractBusinessData := extract; validateBusinessData := validate |}).
  exists k, ai.
  split; [intros fuel Hfuel; unfold researchPolled; rewrite (Hret fuel Hfuel); reflexivity |].
  split; [reflexivity |].
  assert (DiscoveryFailure ai params "Research timed out") as Hfail.
  { apply (NotCompleted ai params Hcounty Hstart). discriminate. }
  destruct (runRegionDiscoveryPipeline_discovery_fails ai jobId params w job _ Hjob Hfail)
    as (reported & after & job' & Hrun & Hstage & _ & Hjob' & Hst & Herr & _ & Hid & Hb & _).
  exists reported, after, job'.
  split; [exact Hrun |]. split; [exact Hstage |]. split; [exact Hjob' |].
  split; [exact Hst |]. split; [exact Herr |]. split; [| exact Hb].
  apply Hid; assumption.
Qed.

(** A task that was cancelled, on the store with one job. *)
Lemma pipeline_fails_when_research_times_out_witness :
  exists fuel0 ai,
    (forall fuel, (fuel0 < fuel)%nat ->
       researchPolled (startResult exampleResearch)
         (remoteOf "resp_1" cancelledTask (fun _ => 0%Q) (fun _ => 0%Q)) fuel
         (extractBusinessData exampleResearch) (validateBusinessData exampleResearch)
       = Some ai)
    /\ finalResult ai = timedOut "resp_1"
    /\ exists reported after job',
         runRegionDiscoveryPipeline ai "job_1" travisCounty emptyWorld
         = (inr ({| success := false; jobId := "job_1"; businessIds := [];
                    stats := {| discovered := 0; validated := 0; stored := 0;
                                scored := 0; st_errors := 1 |} |}, reported), after)
         /\ map stage reported = [DISCOVERY; ERROR]
         /\ jobs after !! "job_1" = Some job'
         /\ job_status job' = JOB_FAILED
         /\ job_error job' = Some "Research timed out"
         /\ job_openaiResponseId job' = Some "resp_1"
         /\ businesses after = businesses emptyWorld.
Proof.
  apply (pipeline_fails_when_research_times_out (startResult exampleResearch)
           cancelledTask (fun _ => 0%Q) (fun _ => 0%Q)
           (extractBusinessData exampleResearch) (validateBusinessData exampleResearch)
           "job_1" travisCounty emptyWorld
           {| job_status := JOB_RUNNING; job_progress := 0;
              job_businessesFound := 0; job_businessesQualified := 0;
              job_error := None; job_openaiResponseId := None |}).
  - reflexivity.
  - reflexivity.
  - discriminate.
  - intros k. discriminate.
  - intros k. discriminate.
  - intros k. reflexivity.
Defined.
